(** * Crawditor: the crawl-to-audit pipeline of [index.js]

    A shallow embedding of the Node.js program: the command line parsing,
    the crawler callbacks, the sanitizer of directory names, the output
    store ([save]), the recursive audit queue ([auditAll]) and the index
    builder ([makeAuditsIndex]), run on a small model of the Node event
    loop, the console and the file system.  The crawler, Chrome and
    Lighthouse are the environment: they decide which callback comes next
    and with what.  Line numbers are those of the source of the program. *)

From Stdlib Require Import ZArith Ascii String List Bool Lia.
From Stdlib Require Import DecimalString.
From stdpp Require Import gmap strings list.

(** ** JavaScript strings

    A JavaScript string is a sequence of UTF-16 code units; it is modelled
    by [string], a sequence of bytes (UTF-8).  Every character the program
    inspects is ASCII, and no byte of a multi-byte UTF-8 sequence is ASCII,
    so replacing, testing and slicing on bytes agree with the code units. *)
Module Js.

(** [s.replace(/c/g, d)] for a one-character pattern [c]. *)
Fixpoint replaceAll (c d : ascii) (s : string) : string :=
  match s with
  | EmptyString => EmptyString
  | String a s' => String (if Ascii.eqb a c then d else a) (replaceAll c d s')
  end.

(** [s[i]]: [None] stands for [undefined] (index out of range). *)
Definition charAt (s : string) (i : Z) : option ascii :=
  if (i <? 0)%Z then None else String.get (Z.to_nat i) s.

(** [s.slice(0, e)]: a negative [e] counts from the end of [s]. *)
Definition slice0 (s : string) (e : Z) : string :=
  let len := Z.of_nat (String.length s) in
  let e' := if (e <? 0)%Z then Z.max (len + e) 0 else Z.min e len in
  String.substring 0 (Z.to_nat e') s.

(** The double quote and the line feed, as one-character strings. *)
Definition dquote : string := String "034"%char EmptyString.
Definition nl : string := String "010"%char EmptyString.

(** Decimal rendering of an integer-valued number. *)
Definition showZ (n : Z) : string := NilEmpty.string_of_int (Z.to_int n).

(** Does the string contain the character? *)
Fixpoint contains (c : ascii) (s : string) : bool :=
  match s with
  | EmptyString => false
  | String a s' => Ascii.eqb a c || contains c s'
  end.

(** The last character, [None] on the empty string. *)
Fixpoint lastChar (s : string) : option ascii :=
  match s with
  | EmptyString => None
  | String a EmptyString => Some a
  | String _ s' => lastChar s'
  end.

(** [s.startsWith(pre)] *)
Fixpoint startsWith (pre s : string) : bool :=
  match pre with
  | EmptyString => true
  | String a pre' =>
      match s with
      | String b s' => Ascii.eqb a b && startsWith pre' s'
      | EmptyString => false
      end
  end.

(** All but the last character. *)
Fixpoint butLast (s : string) : string :=
  match s with
  | EmptyString => EmptyString
  | String a EmptyString => EmptyString
  | String a s' => String a (butLast s')
  end.

(** [s.split(c)] *)
Fixpoint splitOn (c : ascii) (s : string) : list string :=
  match s with
  | EmptyString => [EmptyString]
  | String a s' =>
      if Ascii.eqb a c then EmptyString :: splitOn c s'
      else match splitOn c s' with
           | [] => [String a EmptyString]
           | w :: ws => String a w :: ws
           end
  end.

End Js.

(** ** Regular expressions

    The subset of the JavaScript regular expressions the program uses, with
    a backtracking matcher.  The program only tests whether
    [str.match(/re/g)] is [null], so the matcher answers whether some match
    exists. *)
Module Regex.

Inductive Re : Type :=
| Eps                                  (* the empty pattern *)
| Class (p : ascii -> bool)            (* a character class *)
| Cat (r1 r2 : Re)                     (* r1 r2 *)
| Alt (r1 r2 : Re)                     (* r1|r2 *)
| Opt (r : Re)                         (* r? *)
| Plus (r : Re)                        (* r+ *)
| WordBoundary.                        (* \b *)

Definition between (lo hi c : ascii) : bool :=
  (nat_of_ascii lo <=? nat_of_ascii c)%nat && (nat_of_ascii c <=? nat_of_ascii hi)%nat.

Definition isDigit (c : ascii) : bool := between "0" "9" c.

(** [\w] is [A-Za-z0-9_]. *)
Definition isWord (c : ascii) : bool :=
  between "a" "z" c || between "A" "Z" c || isDigit c || Ascii.eqb c "_".

Definition isWordOpt (o : option ascii) : bool :=
  match o with Some c => isWord c | None => false end.

Definition oneOf (chars : string) (c : ascii) : bool := Js.contains c chars.

Definition lit (c : ascii) : Re := Class (Ascii.eqb c).

Fixpoint word (s : string) : Re :=
  match s with
  | EmptyString => Eps
  | String c s' => Cat (lit c) (word s')
  end.

Definition headChar (s : string) : option ascii :=
  match s with EmptyString => None | String c _ => Some c end.

(** [matchRe r prev s k]: [r] matches a prefix of [s] ([prev] is the
    character before it) so that the continuation [k] accepts the rest.
    The alternatives are tried in turn, the second one only if the first
    fails. *)
Fixpoint matchRe (r : Re) (prev : option ascii) (s : string)
         (k : option ascii -> string -> bool) : bool :=
  match r with
  | Eps => k prev s
  | Class p =>
      match s with
      | String c s' => if p c then k (Some c) s' else false
      | EmptyString => false
      end
  | Cat r1 r2 => matchRe r1 prev s (fun p' s' => matchRe r2 p' s' k)
  | Alt r1 r2 => if matchRe r1 prev s k then true else matchRe r2 prev s k
  | Opt r1 => if matchRe r1 prev s k then true else k prev s
  | Plus r1 =>
      (fix loop (fuel : nat) (prev : option ascii) (s : string) : bool :=
         match fuel with
         | O => false
         | S fuel' =>
             matchRe r1 prev s
               (fun p' s' => if loop fuel' p' s' then true else k p' s')
         end) (S (String.length s)) prev s
  | WordBoundary =>
      if xorb (isWordOpt prev) (isWordOpt (headChar s)) then k prev s else false
  end.

(** A match starting at the current position or at a later one. *)
Fixpoint searchFrom (r : Re) (prev : option ascii) (s : string) : bool :=
  if matchRe r prev s (fun _ _ => true) then true
  else match s with
       | EmptyString => false
       | String c s' => searchFrom r (Some c) s'
       end.

(** Truthiness of [s.match(/r/g)]. *)
Definition matches (r : Re) (s : string) : bool := searchFrom r None s.

End Regex.

(** ** The path sanitizer (lines 118-127) *)

Definition sanatizeURL (url : string) : string :=
  let url := Js.replaceAll ":" "."
               (Js.replaceAll "?" "."
                  (Js.replaceAll "/" "." url)) in
  if negb (bool_decide (Js.charAt url (Z.of_nat (String.length url) - 1) = Some "."%char))
  then url
  else Js.slice0 url (Z.of_nat (String.length url) - 1).

(** The characters the sanitizer turns into a dot, and the dot itself. *)
Definition isSep (c : ascii) : bool :=
  Ascii.eqb c "/" || Ascii.eqb c "?" || Ascii.eqb c ":" || Ascii.eqb c ".".

(** Are the last two characters of the string both among [/ ? : .]? *)
Fixpoint endsInTwoSeps (s : string) : bool :=
  match s with
  | EmptyString => false
  | String a s' =>
      match s' with
      | String b EmptyString => isSep a && isSep b
      | _ => endsInTwoSeps s'
      end
  end.

(** The three replacements as one map over the characters. *)
Definition dotted (a : ascii) : ascii := if isSep a then "."%char else a.

Fixpoint mapStr (f : ascii -> ascii) (s : string) : string :=
  match s with
  | EmptyString => EmptyString
  | String a s' => String (f a) (mapStr f s')
  end.

(** [s] ends with a dot. *)
Definition endsWithDot (s : string) : bool :=
  match Js.lastChar s with
  | Some c => Ascii.eqb c "."
  | None => false
  end.

(** The last step of the sanitizer: one trailing dot is dropped. *)
Definition strip (s : string) : string :=
  if endsWithDot s then Js.butLast s else s.

(** ** JavaScript values

    [VNumber] carries the integer-valued numbers (the program itself only
    creates [1] and [5]); [VObject] is a plain object or array, given by its
    JSON tree. *)

#[warnings="-register-all"] Inductive Json : Type :=
| JNull
| JBool (b : bool)
| JNum (repr : string)
| JStr (s : string)
| JArr (items : list Json)
| JObj (props : list (string * Json)).

Inductive JsValue : Type :=
| VUndefined
| VNull
| VBool (b : bool)
| VNumber (n : Z)
| VNaN
| VString (s : string)
| VObject (o : Json)
| VFunction.

(** [!v] is [negb (truthy v)]. *)
Definition truthy (v : JsValue) : bool :=
  match v with
  | VUndefined | VNull | VNaN => false
  | VBool b => b
  | VNumber n => negb (n =? 0)%Z
  | VString s => negb (String.eqb s "")
  | VObject _ | VFunction => true
  end.

Definition falsy (v : JsValue) : Prop := truthy v = false.

Definition typeOf (v : JsValue) : string :=
  match v with
  | VUndefined => "undefined"
  | VNull | VObject _ => "object"
  | VBool _ => "boolean"
  | VNumber _ | VNaN => "number"
  | VString _ => "string"
  | VFunction => "function"
  end.

(** What a template literal [`${v}`] prints for a primitive. *)
Definition template (v : JsValue) : string :=
  match v with
  | VUndefined => "undefined"
  | VNull => "null"
  | VBool true => "true"
  | VBool false => "false"
  | VNumber n => Js.showZ n
  | VNaN => "NaN"
  | VString s => s
  | VObject _ => "[object Object]"
  | VFunction => "function"
  end.

(** [v.match(/r/g)] as a condition, for a string [v]. *)
Definition strMatch (v : JsValue) (r : Regex.Re) : bool :=
  match v with
  | VString s => Regex.matches r s
  | _ => false
  end.

(** ** Command line (lines 7-34) *)
Module Cli.
Import Regex.

(** [process.argv[i]]. *)
Definition argvAt (argv : list string) (i : nat) : JsValue :=
  match argv !! i with
  | Some s => VString s
  | None => VUndefined
  end.

(** [[\w.-]] *)
Definition hostChar (c : ascii) : bool := isWord c || oneOf ".-" c.

(** [[\w\-\._~:/?#[\]@!\$&'\(\)\*\+,;=.]] *)
Definition tailChar (c : ascii) : bool :=
  isWord c || oneOf "-._~:/?#[]@!$&'()*+,;=." c.

(** [/(?:http(s)?:\/\/)?[\w.-]+(?:\.[\w\.-]+)+[...]+/g] (line 15) *)
Definition urlRe : Re :=
  Cat (Opt (Cat (word "http") (Cat (Opt (lit "s")) (word "://"))))
    (Cat (Plus (Class hostChar))
       (Cat (Plus (Cat (lit ".") (Plus (Class hostChar))))
          (Plus (Class tailChar)))).

(** [/\b(10|[1-9])\b/g] (line 23) *)
Definition depthRe : Re :=
  Cat WordBoundary (Cat (Alt (word "10") (Class (between "1" "9"))) WordBoundary).

(** [/[1-5]/g] (line 29) *)
Definition threadsRe : Re := Class (between "1" "5").

(** Lines 21-25. *)
Definition depthOf (argv : list string) : JsValue :=
  let depth := VNumber 1 in
  if truthy (argvAt argv 3) && strMatch (argvAt argv 3) depthRe
  then argvAt argv 3
  else depth.

(** Lines 27-31. *)
Definition threadsOf (argv : list string) : JsValue :=
  let threads := VNumber 5 in
  if truthy (argvAt argv 4) && strMatch (argvAt argv 4) threadsRe
  then argvAt argv 4
  else threads.

(** The numeric reading of an argument that is a plain decimal integer,
    with an optional sign; [None] for any other text. *)
Fixpoint digitsValue (acc : Z) (s : string) : option Z :=
  match s with
  | EmptyString => Some acc
  | String c s' =>
      if isDigit c
      then digitsValue (10 * acc + (Z.of_nat (nat_of_ascii c) - 48)) s'
      else None
  end.

Definition intValue (s : string) : option Z :=
  match s with
  | EmptyString => None
  | String "-" (String c s' as t) => option_map Z.opp (digitsValue 0 t)
  | _ => digitsValue 0 s
  end.

Definition inRange (lo hi : Z) (s : string) : bool :=
  match intValue s with
  | Some n => (lo <=? n)%Z && (n <=? hi)%Z
  | None => false
  end.

End Cli.

(** ** The file system

    The tree below the working directory, as a finite map from the list of
    path components to the node found there.  The working directory itself
    is the empty list and always a directory; [..] in it stays in it. *)

Inductive Node : Type :=
| File (content : string)
| Dir.

Module Fs.

Definition nodeAt (fs : gmap (list string) Node) (p : list string) : option Node :=
  match p with
  | [] => Some Dir
  | _ => fs !! p
  end.

Definition isDir (fs : gmap (list string) Node) (p : list string) : bool :=
  match nodeAt fs p with
  | Some Dir => true
  | _ => false
  end.

(** The components of a path; empty ones (doubled or trailing slashes)
    are skipped, as the system calls do. *)
Definition components (path : string) : list string :=
  List.filter (fun c => negb (String.eqb c "")) (Js.splitOn "/" path).

(** Follows the components from [cur]; every directory gone through has
    to exist ([None] is ENOENT or ENOTDIR).  The last component need not
    exist. *)
Fixpoint walk (fs : gmap (list string) Node) (cur : list string)
         (comps : list string) : option (list string) :=
  match comps with
  | [] => Some cur
  | c :: rest =>
      if isDir fs cur then
        walk fs (if String.eqb c "." then cur
                 else if String.eqb c ".." then removelast cur
                 else cur ++ [c]) rest
      else None
  end.

Definition resolve (fs : gmap (list string) Node) (path : string) : option (list string) :=
  walk fs [] (components path).

(** [fs.existsSync(path)] *)
Definition exists_ (fs : gmap (list string) Node) (path : string) : bool :=
  match resolve fs path with
  | Some q => bool_decide (is_Some (nodeAt fs q))
  | None => false
  end.

(** [fs.mkdirSync(path)]: the new tree, or the error code. *)
Definition mkdir (fs : gmap (list string) Node) (path : string)
  : string + gmap (list string) Node :=
  match resolve fs path with
  | None => inl "ENOENT"
  | Some q =>
      match nodeAt fs q with
      | Some _ => inl "EEXIST"
      | None => inr (<[q := Dir]> fs)
      end
  end.

(** Creating or replacing a regular file: the new tree, or the error. *)
Definition write (fs : gmap (list string) Node) (path content : string)
  : string + gmap (list string) Node :=
  match resolve fs path with
  | None => inl "ENOENT"
  | Some q =>
      match nodeAt fs q with
      | Some Dir => inl "EISDIR"
      | _ => inr (<[q := File content]> fs)
      end
  end.

(** The entries right below the directory [d], of any kind. *)
Definition children (fs : gmap (list string) Node) (d : list string)
  : list (string * Node) :=
  omap (fun '(p, n) =>
          match last p with
          | Some name => if bool_decide (p = d ++ [name]) then Some (name, n) else None
          | None => None
          end) (map_to_list fs).

(** [fs.readdirSync(path)]: the names of all entries of the directory,
    in the order of the map (the real order is that of the file system). *)
Definition readdir (fs : gmap (list string) Node) (path : string)
  : string + list string :=
  match resolve fs path with
  | None => inl "ENOENT"
  | Some q =>
      if isDir fs q then inr (map fst (children fs q))
      else match nodeAt fs q with
           | Some _ => inl "ENOTDIR"
           | None => inl "ENOENT"
           end
  end.

(** The names of the subdirectories right below [d]. *)
Definition subdirs (fs : gmap (list string) Node) (d : list string) : list string :=
  omap (fun '(name, n) => match n with Dir => Some name | File _ => None end)
       (children fs d).

(** Is the entry matched by the glob [./output/*] or below such a match?
    The star does not match names starting with a dot. *)
Definition globbed (p : list string) : bool :=
  match p with
  | "output" :: name :: _ =>
      negb (bool_decide (Regex.headChar name = Some "."%char))
  | _ => false
  end.

(** [rimraf.sync("./output/*")] *)
Definition rimrafOutput (fs : gmap (list string) Node) : gmap (list string) Node :=
  if isDir fs ["output"]
  then filter (fun kv => globbed kv.1 = false) fs
  else fs.

End Fs.

(** ** The process: console, pending operations, exit status *)

Inductive Stream : Type := Info | Error.

(** What the process does.  [ECall] is a mark left in the log when
    [auditAll] or [makeAuditsIndex] is entered; the other events are the
    effects of the code. *)
Inductive Event : Type :=
| EConsole (stream : Stream) (msg : string)   (* console.info, console.error *)
| ECall (fn : string)                          (* entry into a function *)
| ERimraf (glob : string)                      (* rimraf.sync *)
| EMkdirSync (path : string)                   (* fs.mkdirSync *)
| EWriteFile (path : string)                   (* fs.writeFile is issued *)
| EWriteFileDone (path : string) (ok : bool)   (* ... and has completed *)
| EWriteFileSync (path : string)               (* fs.writeFileSync *)
| EUserCallback (id : nat) (err : bool)        (* a caller's save callback *)
| ECrawl (url : string) (depth threads : JsValue)   (* crawler.crawl *)
| ELaunch (url : string)                       (* audit(url) launches Chrome *)
| ESettled (url : string) (ok : bool)          (* the promise of audit(url) *)
| EUnhandledRejection
| EUncaught (thrown : string)
| EExit (code : Z).

(** The callback of a pending [fs.writeFile]: the closure [save] creates on
    line 149, or one given by the caller of [save]. *)
Inductive Callback : Type :=
| SavedCallback (filename : string)
| UserCallback (id : nat).

Record PendingWrite : Type := mkWrite {
  wPath : string;
  wData : string;
  wCallback : Callback
}.

(** An audit in flight, with what the [then] callback of [auditAll] closes
    over. [aLaunched]: Chrome is up and Lighthouse is running. *)
Record PendingAudit : Type := mkAudit {
  aUrls : list string;
  aIndex : nat;
  aUrl : string;
  aLaunched : bool
}.

Record State : Type := mkState {
  files : gmap (list string) Node;
  history : list Event;            (* newest first *)
  crawling : bool;                 (* crawl started, onFinished not yet called *)
  audits : list PendingAudit;
  writes : list PendingWrite;
  exitCode : option Z              (* set by process.exit or a crash *)
}.

Definition setFiles (fs : gmap (list string) Node) (st : State) : State :=
  mkState fs (history st) (crawling st) (audits st) (writes st) (exitCode st).
Definition emit (e : Event) (st : State) : State :=
  mkState (files st) (e :: history st) (crawling st) (audits st) (writes st) (exitCode st).
Definition setCrawling (b : bool) (st : State) : State :=
  mkState (files st) (history st) b (audits st) (writes st) (exitCode st).
Definition setAudits (l : list PendingAudit) (st : State) : State :=
  mkState (files st) (history st) (crawling st) l (writes st) (exitCode st).
Definition setWrites (l : list PendingWrite) (st : State) : State :=
  mkState (files st) (history st) (crawling st) (audits st) l (exitCode st).
Definition setExit (c : Z) (st : State) : State :=
  mkState (files st) (history st) (crawling st) (audits st) (writes st) (Some c).

(** How a piece of synchronous code ends: it returns, throws, or the
    process exits under it. *)
Inductive Outcome (A : Type) : Type :=
| Ret (a : A)
| Throw (thrown : string)
| Exited.
Arguments Ret {A} a.
Arguments Throw {A} thrown.
Arguments Exited {A}.

Definition M (A : Type) : Type := State -> Outcome A * State.

Definition ret {A} (a : A) : M A := fun st => (Ret a, st).
Definition throw {A} (v : string) : M A := fun st => (Throw v, st).
Definition bind {A B} (m : M A) (f : A -> M B) : M B :=
  fun st =>
    match m st with
    | (Ret a, st') => f a st'
    | (Throw v, st') => (Throw v, st')
    | (Exited, st') => (Exited, st')
    end.

Notation "x <- m ;; k" := (bind m (fun x => k))
  (at level 100, m at next level, k at level 200, right associativity).
Notation "m ;; k" := (bind m (fun _ => k))
  (at level 100, k at level 200, right associativity).

Definition effect (e : Event) : M unit := fun st => (Ret tt, emit e st).
Definition when (b : bool) (m : M unit) : M unit := if b then m else ret tt.

(** [xs.forEach(f)] *)
Fixpoint forEach {A} (xs : list A) (f : A -> M unit) : M unit :=
  match xs with
  | [] => ret tt
  | x :: xs' => f x ;; forEach xs' f
  end.

Definition consoleInfo (msg : string) : M unit := effect (EConsole Info msg).
Definition consoleError (msg : string) : M unit := effect (EConsole Error msg).

(** [process.exit(code)] *)
Definition processExit {A} (code : Z) : M A :=
  fun st => (Exited, setExit code (emit (EExit code) st)).

Definition existsSync (path : string) : M bool :=
  fun st => (Ret (Fs.exists_ (files st) path), st).

Definition mkdirSync (path : string) : M unit :=
  fun st =>
    let st := emit (EMkdirSync path) st in
    match Fs.mkdir (files st) path with
    | inr fs' => (Ret tt, setFiles fs' st)
    | inl err => (Throw err, st)
    end.

Definition readdirSync (path : string) : M (list string) :=
  fun st =>
    match Fs.readdir (files st) path with
    | inr names => (Ret names, st)
    | inl err => (Throw err, st)
    end.

Definition writeFileSync (path content : string) : M unit :=
  fun st =>
    let st := emit (EWriteFileSync path) st in
    match Fs.write (files st) path content with
    | inr fs' => (Ret tt, setFiles fs' st)
    | inl err => (Throw err, st)
    end.

(** [fs.writeFile(path, data, callback)]: the write is queued; the file
    appears, and the callback runs, when the operation completes. *)
Definition writeFile (path data : string) (cb : Callback) : M unit :=
  fun st =>
    let st := emit (EWriteFile path) st in
    (Ret tt, setWrites (writes st ++ [mkWrite path data cb]) st).

(** [audit(url).then(...)] of [auditAll] (line 219): [audit] (lines
    199-208) calls [launchChromeAndRunLighthouse] (lines 177-190), which
    calls [chromeLauncher.launch]; everything after that runs when the
    launch settles.  The [then] callback waits for the promise with its
    [urls] and [index]. *)
Definition startAudit (urls : list string) (index : nat) (url : string) : M unit :=
  fun st =>
    let st := emit (ELaunch url) st in
    (Ret tt, setAudits (audits st ++ [mkAudit urls index url false]) st).

(** The process before the module body runs. *)
Definition initial (fs : gmap (list string) Node) : State :=
  mkState fs [] false [] [] None.

(** ** One audit: the promise chain of [launchChromeAndRunLighthouse]
    (lines 177-190) and [audit] (lines 199-208) *)
Module Chain.

(** The options object [audit] creates, with the [port] the chain sets. *)
Record Options : Type := mkOptions {
  chromeFlags : list string;
  output : string;
  port : option Z
}.

(** What Lighthouse resolves with, as far as the program reads it. *)
Record Results : Type := mkResults {
  lhr : Json;
  report : string
}.

(** What the promise of [audit] resolves with: [{json, html}]. *)
Record Report : Type := mkReport {
  json : Json;
  html : string
}.

(** The asynchronous operations, by the type of what they resolve with:
    a launched Chrome is known by its port. *)
Inductive Op : Type -> Type :=
| Launch (flags : list string) : Op Z
| RunLighthouse (url : string) (opts : Options) (config : JsValue) : Op Results
| Kill (chrome : Z) : Op unit.

(** A promise: settled (rejected with a reason, or resolved), about to
    print, or waiting for an operation to settle. *)
Inductive Promise (A : Type) : Type :=
| Settled (r : string + A)
| Log (msg : string) (next : Promise A)
| Await {R : Type} (op : Op R) (k : string + R -> Promise A).
Arguments Settled {A} r.
Arguments Log {A} msg next.
Arguments Await {A R} op k.

(** [op.then(f)]: [f] runs when [op] resolves; a rejection is passed on. *)
Definition andThen {R A} (op : Op R) (f : R -> Promise A) : Promise A :=
  Await op (fun r => match r with
                     | inr x => f x
                     | inl reason => Settled (inl reason)
                     end).

(** [launchChromeAndRunLighthouse] (lines 177-190). *)
Definition launchChromeAndRunLighthouse (url : string) (opts : Options)
           (config : JsValue) : Promise Report :=
  andThen (Launch (chromeFlags opts)) (fun chrome =>
    let opts := mkOptions (chromeFlags opts) (output opts) (Some chrome) in
    Log ("Auditing " +:+ url)
      (andThen (RunLighthouse url opts config) (fun results =>
         andThen (Kill chrome) (fun _ =>
           Settled (inr (mkReport (lhr results) (report results))))))).

(** [audit] (lines 199-208); the parameter [config] defaults to [null]. *)
Definition audit (url : string) : Promise Report :=
  let options := mkOptions ["--show-paint-rects"] "html" None in
  launchChromeAndRunLighthouse url options VNull.

(** What was called, in order. *)
Inductive Call : Type :=
| Called {R : Type} (op : Op R)
| Printed (msg : string).

(** The environment: how each operation settles. *)
Definition Env : Type := forall R, Op R -> string + R.

(** The chain run to its end. *)
Fixpoint run {A} (p : Promise A) (env : Env) : list Call * (string + A) :=
  match p with
  | Settled r => ([], r)
  | Log msg next =>
      let (calls, r) := run next env in (Printed msg :: calls, r)
  | Await op k =>
      let (calls, r) := run (k (env _ op)) env in (Called op :: calls, r)
  end.

Definition isKill (c : Call) : bool :=
  match c with
  | Called (Kill _) => true
  | _ => false
  end.

Definition isLighthouse (c : Call) : bool :=
  match c with
  | Called (RunLighthouse _ _ _) => true
  | _ => false
  end.

End Chain.

(** The options Lighthouse is run with on the Chrome at [chrome]. *)
Definition auditOptions (chrome : Z) : Chain.Options :=
  Chain.mkOptions ["--show-paint-rects"] "html" (Some chrome).

(** ** Sample data for the concrete runs *)

Module Sample.

(** A stand-in for [JSON.stringify]. *)
Definition stringify (o : Json) : string := "{}".

Definition argv : list string := ["node"; "index.js"; "https://example.com"].

(** The working directory holds an empty [output]. *)
Definition tree : gmap (list string) Node := <[ ["output"] := Dir ]> ∅.

Definition urls : list string := ["https://example.com/a"; "https://example.com/b"].

Definition report : option (Json * string) := Some (JObj [], "<html></html>").

(** The store root with a subdirectory, a regular file and a dot file. *)
Definition store : gmap (list string) Node :=
  <[ ["output"; ".gitkeep"] := File "" ]>
    (<[ ["output"; "lastCrawl.json"] := File "{}" ]>
       (<[ ["output"; "https...example.com.a"] := Dir ]> tree)).

(** An audit of the first URL in flight, with Chrome up and the directory
    of the URL in place. *)
Definition auditing : State :=
  mkState (<[ ["output"; "https...example.com.a"] := Dir ]> tree) [] false
          [mkAudit urls 0 "https://example.com/a" true] [] None.

(** An audit in flight of a URL whose sanitized name is [..]. *)
Definition escaping : State :=
  mkState tree [] false [mkAudit ["../"] 0 "../" true] [] None.


End Sample.

(** ** The program *)
Section Program.

(** [JSON.stringify(o, "", 2)] *)
Variable stringify : Json -> string.

(** [save] (lines 144-167). *)
Definition save (filename : string) (data : JsValue) (callback : option nat) : M unit :=
  if negb (truthy data) || negb (truthy (VString filename))
  then throw "No data or no filename"
  else
    let callback :=
      match callback with
      | Some f => UserCallback f
      | None => SavedCallback filename
      end in
    let data :=
      if String.eqb (typeOf data) "object"
      then match data with
           | VObject o => VString (stringify o)
           | _ => VString "null"
           end
      else data in
    match data with
    | VString text =>
        present <- existsSync "./output" ;;
        when (negb present) (mkdirSync "output") ;;
        writeFile ("./output/" +:+ filename) text callback
    | _ => consoleError "Unable to save data."
    end.

(** [auditAll] (lines 216-232); the result is what the call returns.
    [urls !! index] is [Some url] exactly when [index < urls.length], and
    [url] is then [urls[index]]. *)
Definition auditAll (urls : list string) (index : nat) : M JsValue :=
  effect (ECall "auditAll") ;;
  match urls !! index with
  | Some url =>
      startAudit urls index url ;;
      ret VUndefined
  | None =>
      consoleInfo "Auditing complete." ;;
      ret (VBool true)
  end.

(** The [then] callback of [auditAll] (lines 220-227), for the audit of
    [url = urls[index]] resolved with [{json, html}]: Lighthouse gives an
    object for [json] and a text for [html]. *)
Definition auditDone (urls : list string) (index : nat) (url : string)
           (json : Json) (html : string) : M unit :=
  save (sanatizeURL url +:+ "/auditData.json") (VObject json) None ;;
  save (sanatizeURL url +:+ "/index.html") (VString html) None ;;
  auditAll urls (index + 1) ;;
  ret tt.

(** [readDirs] (lines 243-245). *)
Definition readDirs : M (list string) := readdirSync "./output".

Definition link (dir : string) : string :=
  "<li><a href=" +:+ Js.dquote +:+ "/" +:+ dir +:+ "/" +:+ Js.dquote +:+ ">"
    +:+ dir +:+ "</a></li>".

Definition indexPage (dirs : string) : string :=
  Js.nl +:+ "  <html>" +:+ Js.nl +:+ "    <head>" +:+ Js.nl
    +:+ "    </head>" +:+ Js.nl +:+ "    <body>" +:+ Js.nl
    +:+ "      <ul>" +:+ Js.nl +:+ "        " +:+ dirs +:+ Js.nl
    +:+ "      </ul>" +:+ Js.nl +:+ "    </body>" +:+ Js.nl
    +:+ "  </html>" +:+ Js.nl +:+ "  ".

(** [makeAuditsIndex] (lines 250-270). *)
Definition makeAuditsIndex : M unit :=
  effect (ECall "makeAuditsIndex") ;;
  entries <- readDirs ;;
  let dirs := fold_left (fun dirs dir => dirs +:+ link dir) entries "" in
  writeFileSync "./output/index.html" (indexPage dirs).

(** The object [{...urls, timeCreated: new Date()}]. *)
Definition crawlObject (crawled discovered : list string) (now : string) : Json :=
  JObj [("crawled", JArr (map JStr crawled));
        ("discovered", JArr (map JStr discovered));
        ("timeCreated", JStr now)].

(** [saveLastCrawl] (lines 94-110). *)
Definition saveLastCrawl (crawled discovered : list string) (now : string) : M unit :=
  forEach discovered (fun url =>
    let url := sanatizeURL url in
    present <- existsSync ("./output/" +:+ url) ;;
    when (negb present) (mkdirSync ("./output/" +:+ url))) ;;
  save "lastCrawl.json" (VObject (crawlObject crawled discovered now)) None ;;
  auditAll discovered 0 ;;
  makeAuditsIndex.

(** [crawlerSuccess] (lines 53-57). *)
Definition crawlerSuccess : M unit :=
  consoleInfo "Crawler finish, continuing.".

(** [crawlerError] (lines 64-69). *)
Definition crawlerError : M unit :=
  consoleError "Crawling error, exiting." ;;
  processExit 1.

(** [crawlerFinished] (lines 76-87); [now] is the value of [new Date()]. *)
Definition crawlerFinished (crawled discovered : list string) (now : string) : M unit :=
  if (length crawled =? 0)%nat && (length discovered =? 0)%nat
  then consoleError (Js.nl +:+ "Please check your URL exists and has links in it.")
  else saveLastCrawl crawled discovered now.

(** [clearOutput] (lines 132-135). *)
Definition clearOutput : M unit :=
  consoleInfo "Clearing output..." ;;
  fun st => (Ret tt, setFiles (Fs.rimrafOutput (files st)) (emit (ERimraf "./output/*") st)).

(** [crawler.crawl(URL)]: the crawl starts; its callbacks come later. *)
Definition crawl (url : string) (depth threads : JsValue) : M unit :=
  fun st => (Ret tt, setCrawling true (emit (ECrawl url depth threads) st)).

(** The module body, top to bottom (lines 7-46 and 234-238). *)
Definition main (argv : list string) : M unit :=
  when (negb (truthy (Cli.argvAt argv 2)))
    (consoleError "Please provide a URL to crawl and audit." ;; processExit 1) ;;
  when (negb (strMatch (Cli.argvAt argv 2) Cli.urlRe))
    (consoleError "Please use a correct URL." ;; processExit 1) ;;
  let URL := template (Cli.argvAt argv 2) in
  let depth := Cli.depthOf argv in
  let threads := Cli.threadsOf argv in
  consoleInfo ("Crawling " +:+ URL +:+ ", at a depth of " +:+ template depth
                 +:+ ", with " +:+ template threads +:+ " threads.") ;;
  clearOutput ;;
  crawl URL depth threads.

(** *** The event loop

    The program is driven by what it waits for.  While the crawl is on, the
    crawler calls [onSuccess] and [onError], whenever a fetch ends, and at
    last [onFinished], once.  Chrome launches or fails to; Lighthouse and
    [chrome.kill] resolve or reject; a write issued by [fs.writeFile]
    completes, with or without an error, and the file is there from then
    on.  Each of these is one turn: the callback runs to its end before
    anything else happens. *)

(** A callback run from the event loop: an exception nobody catches ends
    the process with status 1. *)
Definition task (m : M unit) (st : State) : State :=
  match m st with
  | (Ret _, st') => st'
  | (Exited, st') => st'
  | (Throw v, st') => setExit 1 (emit (EExit 1) (emit (EUncaught v) st'))
  end.

(** A [then] callback: an exception rejects the promise [then] returned,
    which nobody handles; Node warns and the process goes on.  (A Node that
    ends the process here stops the queue as well.) *)
Definition job (m : M unit) (st : State) : State :=
  match m st with
  | (Ret _, st') => st'
  | (Exited, st') => st'
  | (Throw v, st') => emit EUnhandledRejection st'
  end.

(** What the environment does next. *)
Inductive Action : Type :=
| CrawlSuccess                          (* a page was fetched: onSuccess *)
| CrawlError                            (* a fetch failed: onError *)
| CrawlFinished (crawled discovered : list string) (now : string)
| ChromeLaunched (k : nat) (ok : bool)  (* chromeLauncher.launch settles *)
| AuditSettled (k : nat) (report : option (Json * string))
    (* Lighthouse and chrome.kill settle: [{json, html}], the report
       object [lhr] and the HTML text [report], or a rejection *)
| WriteCompleted (k : nat) (ioError : bool).

(** The callback of a completed [fs.writeFile]. *)
Definition runCallback (cb : Callback) (err : option string) : M unit :=
  match cb with
  | SavedCallback filename =>
      match err with
      | Some e => throw e
      | None => consoleInfo ("Saved file " +:+ filename +:+ "!")
      end
  | UserCallback id => effect (EUserCallback id (bool_decide (is_Some err)))
  end.

(** One turn of the event loop; [None]: the action cannot happen now. *)
Definition react (a : Action) (st : State) : option State :=
  match exitCode st with
  | Some _ => None
  | None =>
      match a with
      | CrawlSuccess =>
          if crawling st then Some (task crawlerSuccess st) else None
      | CrawlError =>
          if crawling st then Some (task crawlerError st) else None
      | CrawlFinished crawled discovered now =>
          if crawling st
          then Some (task (crawlerFinished crawled discovered now) (setCrawling false st))
          else None
      | ChromeLaunched k ok =>
          match audits st !! k with
          | Some a =>
              if aLaunched a then None
              else if ok then
                Some (job (consoleInfo ("Auditing " +:+ aUrl a))
                        (setAudits (<[k := mkAudit (aUrls a) (aIndex a) (aUrl a) true]> (audits st)) st))
              else
                Some (emit EUnhandledRejection
                        (emit (ESettled (aUrl a) false) (setAudits (delete k (audits st)) st)))
          | None => None
          end
      | AuditSettled k report =>
          match audits st !! k with
          | Some a =>
              if aLaunched a then
                let st := setAudits (delete k (audits st)) st in
                match report with
                | Some (json, html) =>
                    Some (job (auditDone (aUrls a) (aIndex a) (aUrl a) json html)
                            (emit (ESettled (aUrl a) true) st))
                | None =>
                    Some (emit EUnhandledRejection (emit (ESettled (aUrl a) false) st))
                end
              else None
          | None => None
          end
      | WriteCompleted k ioError =>
          match writes st !! k with
          | Some w =>
              let st := setWrites (delete k (writes st)) st in
              let result :=
                if ioError then inl "EIO"
                else Fs.write (files st) (wPath w) (wData w) in
              match result with
              | inr fs' =>
                  Some (task (runCallback (wCallback w) None)
                          (emit (EWriteFileDone (wPath w) true) (setFiles fs' st)))
              | inl e =>
                  Some (task (runCallback (wCallback w) (Some e))
                          (emit (EWriteFileDone (wPath w) false) st))
              end
          | None => None
          end
      end
  end.

Fixpoint run (acts : list Action) (st : State) : option State :=
  match acts with
  | [] => Some st
  | a :: acts' =>
      match react a st with
      | Some st' => run acts' st'
      | None => None
      end
  end.

(** The process after the module body has run. *)
Definition boot (argv : list string) (fs : gmap (list string) Node) : State :=
  task (main argv) (initial fs).

(** The exit status: the one set, or 0 once nothing is pending. *)
Definition exitStatus (st : State) : option Z :=
  match exitCode st with
  | Some c => Some c
  | None => if negb (crawling st) && (length (audits st) =? 0)%nat
                  && (length (writes st) =? 0)%nat
            then Some 0%Z else None
  end.

(** *** Reading the log *)

Definition isLaunch (e : Event) : bool :=
  match e with ELaunch _ => true | _ => false end.

Definition isSettled (e : Event) : bool :=
  match e with ESettled _ _ => true | _ => false end.

Definition isWriteDone (e : Event) : bool :=
  match e with EWriteFileDone _ _ => true | _ => false end.

(** The message [auditAll] ends the queue with. *)
Definition isComplete (e : Event) : bool :=
  match e with
  | EConsole Info msg => String.eqb msg "Auditing complete."
  | _ => false
  end.

Definition isCallOf (fn : string) (e : Event) : bool :=
  match e with
  | ECall f => String.eqb f fn
  | _ => false
  end.

Definition isCall (e : Event) : bool :=
  match e with ECall _ => true | _ => false end.

(** The URLs whose audit was started, in the order of the list of events. *)
Definition launched (evs : list Event) : list string :=
  omap (fun e => match e with ELaunch u => Some u | _ => None end) evs.

Definition count (p : Event -> bool) (evs : list Event) : nat :=
  length (List.filter p evs).

(** The two files [auditDone] saves for a URL. *)
Definition dataPath (url : string) : string :=
  "./output/" +:+ sanatizeURL url +:+ "/auditData.json".
Definition reportPath (url : string) : string :=
  "./output/" +:+ sanatizeURL url +:+ "/index.html".

(** Audits go well: Chrome launches, Lighthouse resolves, and the HTML
    report is not the empty text. *)
Definition goodAction (a : Action) : bool :=
  match a with
  | ChromeLaunched _ ok => ok
  | AuditSettled _ (Some (_, html)) => negb (String.eqb html "")
  | AuditSettled _ None => false
  | _ => true
  end.

(** An audit fails: Chrome does not launch, Lighthouse rejects, or the
    HTML report is the empty text. *)
Definition failedAudit (a : Action) : bool :=
  match a with
  | ChromeLaunched _ ok => negb ok
  | AuditSettled _ (Some (_, html)) => String.eqb html ""
  | AuditSettled _ None => true
  | _ => false
  end.

(** A path of the form [./output/...], or [output] itself. *)
Definition underOutput (path : string) : bool :=
  Js.startsWith "./output/" path.

Definition confined (e : Event) : bool :=
  match e with
  | EMkdirSync p => underOutput p || String.eqb p "output"
  | EWriteFile p | EWriteFileDone p _ => underOutput p
  | EWriteFileSync p => String.eqb p "./output/index.html"
  | _ => true
  end.

(** *** Invariants and what they are built from *)

(** [Grows Q R m]: running [m] only adds events satisfying [Q] on top of
    the history and pending writes satisfying [R] at the end of the queue. *)
Definition Grows {A} (Q : Event -> Prop) (R : PendingWrite -> Prop) (m : M A) : Prop :=
  forall st, exists d ws,
    history (snd (m st)) = d ++ history st
    /\ writes (snd (m st)) = writes st ++ ws
    /\ Forall Q d /\ Forall R ws.

(** The invariant: the paths of all directory creations and writes done so
    far, and of the writes still pending. *)
Definition Confined (st : State) : Prop :=
  Forall (fun e => confined e = true) (history st)
  /\ Forall (fun w => underOutput (wPath w) = true) (writes st).

(** [save] makes sure that [./output] is there before it queues the write. *)
Definition ensureOutput (st : State) : State :=
  if Fs.exists_ (files st) "./output" then st
  else setFiles (<[ ["output"] := Dir ]> (files st)) (emit (EMkdirSync "output") st).

(** The state after [fs.writeFile] was called from [save filename]. *)
Definition queued (filename text : string) (st : State) : State :=
  setWrites (writes st ++ [mkWrite ("./output/" +:+ filename) text (SavedCallback filename)])
            (emit (EWriteFile ("./output/" +:+ filename)) st).

(** The state after both reports of [url] were handed to [save]. *)
Definition reportsQueued (url : string) (json : Json) (html : string) (st : State) : State :=
  queued (sanatizeURL url +:+ "/index.html") html
    (ensureOutput
       (queued (sanatizeURL url +:+ "/auditData.json") (stringify json)
          (ensureOutput st))).

(** Where the queue stands: the audit of [urls[i]] is in flight (Chrome up
    or not yet), the queue has stopped after a failure, or it has ended. *)
Inductive Phase : Type :=
| Running (i : nat) (up : bool)
| Stalled
| Finished.

(** Is the newest event of a history the entry into [auditAll]? *)
Definition headIsCall (h : list Event) : bool :=
  match h with
  | e :: _ => isCallOf "auditAll" e
  | [] => false
  end.

(** How often the queue signalled its end: the message of line 229,
    printed right after the entry into [auditAll] (history, newest first). *)
Fixpoint completions (h : list Event) : nat :=
  match h with
  | [] => 0
  | e :: h' => (if isComplete e && headIsCall h' then 1 else 0) + completions h'
  end.

Definition mkdirOnly (m : list Event) : Prop :=
  m = [] \/ m = [EMkdirSync "output"].

(** What came before the start of the audit of [u] ([older], newest first):
    nothing but the entry into [auditAll] for the first URL; for a later
    one, the settled audit of the URL before it and the issue of its two
    writes, all in the same turn. *)
Definition Before (urls : list string) (u : string) (older : list Event) : Prop :=
  match length (launched older) with
  | O => urls !! 0%nat = Some u
  | S i =>
      exists ui m1 m2 rest,
        urls !! i = Some ui /\ urls !! S i = Some u
        /\ mkdirOnly m1 /\ mkdirOnly m2
        /\ older = ECall "auditAll" :: EWriteFile (reportPath ui) :: m2
                     ++ EWriteFile (dataPath ui) :: m1
                     ++ ESettled ui true :: rest
  end.

(** [P u older] holds at every start of an audit in the history. *)
Inductive EachLaunch (P : string -> list Event -> Prop) : list Event -> Prop :=
| EachLaunch_nil : EachLaunch P []
| EachLaunch_launch u h : P u h -> EachLaunch P h -> EachLaunch P (ELaunch u :: h)
| EachLaunch_other e h : isLaunch e = false -> EachLaunch P h -> EachLaunch P (e :: h).

(** The invariant of the queue over [urls]; [h0] is the history before
    [auditAll(urls, 0)] was called. *)
Definition ChainInv (urls : list string) (h0 : list Event) (st : State) (ph : Phase) : Prop :=
  exists d,
    history st = d ++ h0
    /\ crawling st = false
    /\ headIsCall d = false
    /\ EachLaunch (Before urls) d
    /\ match ph with
       | Running i up =>
           exists u, urls !! i = Some u
                     /\ audits st = [mkAudit urls i u up]
                     /\ rev (launched d) = take (S i) urls
                     /\ completions d = 0
       | Stalled =>
           audits st = []
           /\ (exists i, rev (launched d) = take i urls)
           /\ completions d = 0
       | Finished =>
           audits st = []
           /\ rev (launched d) = urls
           /\ completions d = 1
       end.

(** Events that neither enter a function nor start an audit. *)
Definition quiet (e : Event) : bool := negb (isCall e) && negb (isLaunch e).

(** Events that have nothing to do with the audit queue or the index. *)
Definition calm (e : Event) : bool :=
  negb (isCall e) && negb (isLaunch e) && negb (isSettled e).

(** The phase after the audit of [urls[i]] has settled with [report]. *)
Definition afterSettled (urls : list string) (i : nat) (report : option (Json * string)) : Phase :=
  match report with
  | Some (_, html) =>
      if String.eqb html "" then Stalled
      else match urls !! S i with
           | Some _ => Running (S i) false
           | None => Finished
           end
  | None => Stalled
  end.

(** Before the audit phase: no audit, no call of [auditAll] or of
    [makeAuditsIndex]; nothing is pending while the crawl is on. *)
Definition Early (st : State) : Prop :=
  Forall (fun e => calm e = true) (history st)
  /\ audits st = []
  /\ (crawling st = true -> writes st = []).

(** From the audit phase on: [makeAuditsIndex] was entered once, right
    after the first call of [auditAll] had returned. *)
Definition Indexed (st : State) : Prop :=
  crawling st = false
  /\ exists newer x older,
       history st = newer ++ ECall "makeAuditsIndex" :: x :: ECall "auditAll" :: older
       /\ Forall (fun e => isCallOf "makeAuditsIndex" e = false) newer
       /\ Forall (fun e => calm e = true) older
       /\ (isLaunch x = true \/ x = EConsole Info "Auditing complete.").

(** Code that adds calm events only and leaves the audits and the crawl
    alone. *)
Definition Calm {A} (m : M A) : Prop :=
  forall st, exists d,
    history (snd (m st)) = d ++ history st
    /\ Forall (fun e => calm e = true) d
    /\ audits (snd (m st)) = audits st
    /\ crawling (snd (m st)) = crawling st.

(** One round of the loop of [saveLastCrawl] that creates the directories. *)
Definition mkdirFor (url : string) : M unit :=
  let url := sanatizeURL url in
  present <- existsSync ("./output/" +:+ url) ;;
  when (negb present) (mkdirSync ("./output/" +:+ url)).

(** *** What the further properties are stated with *)

(** Does the string end in one of the characters [/ ? : .]? *)
Definition endsInSep (s : string) : bool :=
  match Js.lastChar s with
  | Some a => isSep a
  | None => false
  end.

(** A name that is a directory entry of its own: not empty, not [.] and
    not [..]. *)
Definition properName (name : string) : bool :=
  negb (String.eqb name "") && negb (String.eqb name ".") && negb (String.eqb name "..").

(** Where [./output/<name>] leads for a name without a slash, when
    [./output] is a directory: to the entry [name] of [output], to [output]
    itself for the empty name and for [.], and to the working directory for
    [..]. *)
Definition below (name : string) : list string :=
  if String.eqb name "" || String.eqb name "." then ["output"]
  else if String.eqb name ".." then []
  else ["output"; name].

(** [t] is what is left of [s] after some of its first characters. *)
Inductive Suffix (t : string) : string -> Prop :=
| Suffix_here : Suffix t t
| Suffix_next c s : Suffix t s -> Suffix t (String c s).

(** What [/\b(10|[1-9])\b/] looks for: [10], or one digit from [1] to
    [9]. *)
Definition isDepthToken (tok : string) : bool :=
  String.eqb tok "10"
  || match tok with
     | String c EmptyString => Regex.between "1" "9" c
     | _ => false
     end.

(** The text holds such a token with no word character right before it
    and none right after it. *)
Definition hasDepthToken (s : string) : Prop :=
  exists pre tok post,
    s = pre +:+ tok +:+ post
    /\ isDepthToken tok = true
    /\ Regex.isWordOpt (Js.lastChar pre) = false
    /\ Regex.isWordOpt (Regex.headChar post) = false.

(** A token starts right here, and no word character follows it. *)
Definition depthHere (s : string) : bool :=
  match s with
  | String c rest =>
      (Ascii.eqb "1" c
       && match rest with
          | String c' rest' => Ascii.eqb "0" c' && negb (Regex.isWordOpt (Regex.headChar rest'))
          | EmptyString => false
          end)
      || (Regex.between "1" "9" c && negb (Regex.isWordOpt (Regex.headChar rest)))
  | EmptyString => false
  end.

(** The character before the text that follows [pre], when the character
    before [pre] is [prev]. *)
Definition lastOr (prev : option ascii) (pre : string) : option ascii :=
  match Js.lastChar pre with
  | Some c => Some c
  | None => prev
  end.

Definition isExit (e : Event) : bool :=
  match e with EExit _ => true | _ => false end.

(** A write queued by [save] with its own callback, for the file name
    [save] was given. *)
Definition DefaultWrite (w : PendingWrite) : Prop :=
  exists filename,
    wCallback w = SavedCallback filename /\ wPath w = "./output/" +:+ filename.

(** The process is running: no exit so far. *)
Definition Alive (st : State) : Prop :=
  exitCode st = None /\ Forall (fun e => isExit e = false) (history st).

(** The process has ended, with status 1, and the exit is the last thing
    that happened. *)
Definition Dead (st : State) : Prop :=
  exitCode st = Some 1%Z
  /\ exists h, history st = EExit 1 :: h /\ Forall (fun e => isExit e = false) h.

(** Code that exits with status 1 if at all, and that queues its writes
    with the callback of [save]. *)
Definition Sane {A} (m : M A) : Prop :=
  forall st, Alive st -> Forall DefaultWrite (writes st) ->
    Forall DefaultWrite (writes (snd (m st)))
    /\ match fst (m st) with
       | Exited => Dead (snd (m st))
       | _ => Alive (snd (m st))
       end.

(** The state of a process between two turns. *)
Definition Orderly (st : State) : Prop :=
  (Alive st \/ Dead st) /\ Forall DefaultWrite (writes st).


(** While the crawl is on, the tree is as [clearOutput] left it and
    nothing is pending. *)
Definition InCrawl (tree : gmap (list string) Node) (st : State) : Prop :=
  crawling st = true -> files st = tree /\ writes st = [] /\ audits st = [].





(** A pattern without [\b]: whether it matches does not depend on what
    is around the match. *)
Fixpoint plain (r : Regex.Re) : bool :=
  match r with
  | Regex.WordBoundary => false
  | Regex.Cat r1 r2 | Regex.Alt r1 r2 => plain r1 && plain r2
  | Regex.Opt r1 | Regex.Plus r1 => plain r1
  | Regex.Eps | Regex.Class _ => true
  end.

(** *** Where the written paths lead *)

(** Where a list of path components leads from [cur], read off the
    components alone: [.] stays, [..] goes up, a name goes down. *)
Fixpoint lexical (cur comps : list string) : list string :=
  match comps with
  | [] => cur
  | c :: rest =>
      lexical (if String.eqb c "." then cur
               else if String.eqb c ".." then removelast cur
               else cur ++ [c]) rest
  end.

(** Where a path leads from the working directory. *)
Definition target (path : string) : list string :=
  lexical [] (Fs.components path).

(** The path leads to [output] or below it, at least [n] levels below. *)
Definition under (n : nat) (path : string) : bool :=
  match target path with
  | a :: rest => String.eqb a "output" && (n <=? length rest)%nat
  | [] => false
  end.

(** The same, said of the file system: wherever the path resolves, it is
    to [output] or to an entry at least [n] levels below it. *)
Definition LeadsInto (n : nat) (path : string) : Prop :=
  forall (tree : gmap (list string) Node) (q : list string),
    Fs.resolve tree path = Some q ->
    exists rest, q = "output" :: rest /\ n <= length rest.

(** An entry that is neither [output] nor below it. *)
Definition outside (p : list string) : bool :=
  match p with
  | a :: _ => negb (String.eqb a "output")
  | [] => true
  end.

(** The URL is three characters long, all of them among [/ ? : .]: the
    URLs whose directory name is [..]. *)
Definition threeSeps (url : string) : bool :=
  match url with
  | String a (String b (String c EmptyString)) => isSep a && isSep b && isSep c
  | _ => false
  end.

(** Any other URL: its directory name is one path component other than
    [..] (lemma [safeURL_name]). *)
Definition safeURL (url : string) : bool := negb (threeSeps url).

(** A directory creation leads to [output] or below it, a write to below
    it. *)
Definition inPlace (e : Event) : bool :=
  match e with
  | EMkdirSync p => under 0 p
  | EWriteFile p | EWriteFileDone p _ | EWriteFileSync p => under 1 p
  | _ => true
  end.

(** An audit in flight whose URL, and whose queue, hold such URLs only. *)
Definition safeAudit (a : PendingAudit) : bool :=
  forallb safeURL (aUrls a) && safeURL (aUrl a).

(** The invariant of the runs in which no discovered URL has the directory
    name [..]: what was created or written, and what is still to be
    written, is in [output]; the audits in flight are of such URLs; and
    outside [output] the tree is the one the program was started on,
    [tree0]. *)
Definition InPlace (tree0 : gmap (list string) Node) (st : State) : Prop :=
  Forall (fun e => inPlace e = true) (history st)
  /\ Forall (fun w => under 1 (wPath w) = true) (writes st)
  /\ Forall (fun a => safeAudit a = true) (audits st)
  /\ forall p, outside p = true -> files st !! p = tree0 !! p.

(** Code that keeps the invariant. *)
Definition Keeps {A} (m : M A) : Prop :=
  forall tree0 st, InPlace tree0 st -> InPlace tree0 (snd (m st)).

(** What happens delivers no URL with the directory name [..]: only the
    end of the crawl delivers URLs. *)
Definition safeAction (a : Action) : bool :=
  match a with
  | CrawlFinished _ discovered _ => forallb safeURL discovered
  | _ => true
  end.

(** * Properties *)

(** ** The sanitizer *)

Lemma replaced_mapStr (s : string) :
  Js.replaceAll ":" "." (Js.replaceAll "?" "." (Js.replaceAll "/" "." s)) = mapStr dotted s.
Proof.
  induction s as [|a s IH]; [reflexivity|].
  cbn [Js.replaceAll mapStr]. rewrite IH. f_equal.
  unfold dotted, isSep.
  destruct (Ascii.eqb_spec a "/") as [->|H1]; [reflexivity|].
  destruct (Ascii.eqb_spec a "?") as [->|H2]; [reflexivity|].
  destruct (Ascii.eqb_spec a ":") as [->|H3]; [reflexivity|].
  destruct (Ascii.eqb_spec a ".") as [->|H4]; reflexivity.
Qed.

Lemma charAt_nat (s : string) (n : nat) : Js.charAt s (Z.of_nat n) = String.get n s.
Proof.
  unfold Js.charAt. destruct (Z.ltb_spec (Z.of_nat n) 0) as [H|H]; [lia|].
  now rewrite Nat2Z.id.
Qed.

Lemma get_last (a : ascii) (s : string) :
  String.get (String.length s) (String a s) = Js.lastChar (String a s).
Proof.
  revert a. induction s as [|b s IH]; intros a; [reflexivity|].
  cbn [String.length].
  change (String.get (S (String.length s)) (String a (String b s)))
    with (String.get (String.length s) (String b s)).
  rewrite IH. reflexivity.
Qed.

Lemma charAt_last (s : string) :
  Js.charAt s (Z.of_nat (String.length s) - 1) = Js.lastChar s.
Proof.
  destruct s as [|a s]; [reflexivity|].
  cbn [String.length].
  replace (Z.of_nat (S (String.length s)) - 1)%Z with (Z.of_nat (String.length s)) by lia.
  rewrite charAt_nat. apply get_last.
Qed.

Lemma substring_butLast (a : ascii) (s : string) :
  String.substring 0 (String.length s) (String a s) = Js.butLast (String a s).
Proof.
  revert a. induction s as [|b s IH]; intros a; [reflexivity|].
  cbn [String.length].
  change (String.substring 0 (S (String.length s)) (String a (String b s)))
    with (String a (String.substring 0 (String.length s) (String b s))).
  rewrite IH. reflexivity.
Qed.

Lemma slice0_butLast (s : string) :
  s <> EmptyString ->
  Js.slice0 s (Z.of_nat (String.length s) - 1) = Js.butLast s.
Proof.
  destruct s as [|a s]; [congruence|]. intros _.
  unfold Js.slice0. cbn [String.length].
  destruct (Z.ltb_spec (Z.of_nat (S (String.length s)) - 1) 0) as [H|H]; [lia|].
  rewrite Z.min_l by lia.
  replace (Z.to_nat (Z.of_nat (S (String.length s)) - 1)) with (String.length s) by lia.
  apply substring_butLast.
Qed.

Lemma sanatizeURL_strip (x : string) : sanatizeURL x = strip (mapStr dotted x).
Proof.
  unfold sanatizeURL. rewrite replaced_mapStr, charAt_last. unfold strip, endsWithDot.
  destruct (Js.lastChar (mapStr dotted x)) as [c|] eqn:E.
  - destruct (Ascii.eqb_spec c ".") as [->|Hc].
    + rewrite bool_decide_eq_true_2 by reflexivity. cbn [negb].
      apply slice0_butLast. intros H0. rewrite H0 in E. discriminate.
    + rewrite bool_decide_eq_false_2 by congruence. reflexivity.
  - rewrite bool_decide_eq_false_2 by congruence. reflexivity.
Qed.

Lemma dotted_dot (a : ascii) : Ascii.eqb (dotted a) "." = isSep a.
Proof.
  unfold dotted. destruct (isSep a) eqn:E; [reflexivity|].
  unfold isSep in E. apply orb_false_iff in E. tauto.
Qed.

Lemma dotted_idem (a : ascii) : dotted (dotted a) = dotted a.
Proof.
  unfold dotted at 1. destruct (isSep (dotted a)) eqn:E; [|reflexivity].
  unfold dotted in *. destruct (isSep a) eqn:E'; [reflexivity|congruence].
Qed.

Lemma mapStr_dotted_idem (s : string) : mapStr dotted (mapStr dotted s) = mapStr dotted s.
Proof.
  induction s as [|a s IH]; [reflexivity|].
  cbn [mapStr]. now rewrite dotted_idem, IH.
Qed.

Lemma mapStr_butLast (f : ascii -> ascii) (s : string) :
  mapStr f (Js.butLast s) = Js.butLast (mapStr f s).
Proof.
  induction s as [|a s IH]; [reflexivity|].
  destruct s as [|b s]; [reflexivity|].
  change (Js.butLast (String a (String b s))) with (String a (Js.butLast (String b s))).
  cbn [mapStr] in *. rewrite IH. reflexivity.
Qed.

Lemma lastChar_mapStr (f : ascii -> ascii) (s : string) :
  Js.lastChar (mapStr f s) = option_map f (Js.lastChar s).
Proof.
  induction s as [|a s IH]; [reflexivity|].
  destruct s as [|b s]; [reflexivity|]. exact IH.
Qed.

Lemma length_butLast (s : string) :
  String.length (Js.butLast s) = pred (String.length s).
Proof.
  induction s as [|a s IH]; [reflexivity|].
  destruct s as [|b s]; [reflexivity|].
  change (Js.butLast (String a (String b s))) with (String a (Js.butLast (String b s))).
  cbn [String.length] in *. now rewrite IH.
Qed.

(** A sanitized name is a fixed point of the three replacements. *)
Lemma mapStr_dotted_strip (x : string) :
  mapStr dotted (strip (mapStr dotted x)) = strip (mapStr dotted x).
Proof.
  unfold strip. destruct (endsWithDot (mapStr dotted x)).
  - now rewrite mapStr_butLast, mapStr_dotted_idem.
  - apply mapStr_dotted_idem.
Qed.

Lemma endsInTwoSeps_spec (x : string) :
  endsInTwoSeps x =
  match Js.lastChar (Js.butLast x), Js.lastChar x with
  | Some a, Some b => isSep a && isSep b
  | _, _ => false
  end.
Proof.
  induction x as [|a s IH]; [reflexivity|].
  destruct s as [|b s]; [reflexivity|].
  destruct s as [|c s]; [reflexivity|].
  exact IH.
Qed.

(** After the sanitizer a dot is left at the end exactly when the input
    ends in two characters of [/ ? : .]. *)
Lemma endsWithDot_strip (x : string) :
  endsWithDot (strip (mapStr dotted x)) = endsInTwoSeps x.
Proof.
  rewrite endsInTwoSeps_spec. unfold strip.
  destruct (endsWithDot (mapStr dotted x)) eqn:E.
  - unfold endsWithDot in *. rewrite <- mapStr_butLast.
    rewrite lastChar_mapStr in *.
    destruct (Js.lastChar x) as [b|]; [|discriminate].
    cbn [option_map] in E. rewrite dotted_dot in E. rewrite E.
    destruct (Js.lastChar (Js.butLast x)) as [a|]; [|reflexivity].
    cbn [option_map]. rewrite dotted_dot. now rewrite andb_true_r.
  - rewrite E. unfold endsWithDot in E. rewrite lastChar_mapStr in E.
    destruct (Js.lastChar x) as [b|].
    + cbn [option_map] in E. rewrite dotted_dot in E. rewrite E.
      destruct (Js.lastChar (Js.butLast x)); [now rewrite andb_false_r|reflexivity].
    + now destruct (Js.lastChar (Js.butLast x)).
Qed.

Lemma contains_mapStr_dotted (c : ascii) (s : string) :
  isSep c = true -> c <> "."%char -> Js.contains c (mapStr dotted s) = false.
Proof.
  intros Hc Hd. induction s as [|a s IH]; [reflexivity|].
  cbn [mapStr Js.contains]. rewrite IH, orb_false_r.
  apply Ascii.eqb_neq. unfold dotted.
  destruct (isSep a) eqn:E; congruence.
Qed.

Lemma contains_butLast (c : ascii) (s : string) :
  Js.contains c s = false -> Js.contains c (Js.butLast s) = false.
Proof.
  induction s as [|a s IH]; [reflexivity|].
  destruct s as [|b s]; [reflexivity|].
  change (Js.butLast (String a (String b s))) with (String a (Js.butLast (String b s))).
  cbn [Js.contains] in *. intros H. apply orb_false_iff in H as [H1 H2].
  rewrite H1. cbn [orb]. now apply IH.
Qed.

Lemma contains_strip (c : ascii) (s : string) :
  Js.contains c s = false -> Js.contains c (strip s) = false.
Proof.
  intros H. unfold strip. destruct (endsWithDot s); [now apply contains_butLast|exact H].
Qed.

(** The sanitizer never leaves a slash, a question mark or a colon. *)
Lemma sanatizeURL_no_separator (x : string) :
  Js.contains "/" (sanatizeURL x) = false
  /\ Js.contains "?" (sanatizeURL x) = false
  /\ Js.contains ":" (sanatizeURL x) = false.
Proof.
  rewrite sanatizeURL_strip.
  repeat split; apply contains_strip, contains_mapStr_dotted; (reflexivity || discriminate).
Qed.

(** Sanitizing twice drops at most one more trailing dot. *)
Lemma sanatizeURL_twice (x : string) :
  sanatizeURL (sanatizeURL x) = strip (sanatizeURL x).
Proof.
  rewrite !sanatizeURL_strip. now rewrite mapStr_dotted_strip.
Qed.

(** The sanitizer is idempotent at [x] exactly when [x] does not end in two
    characters of [/ ? : .]. *)
Lemma sanatizeURL_fixed_iff (x : string) :
  sanatizeURL (sanatizeURL x) = sanatizeURL x <-> endsInTwoSeps x = false.
Proof.
  rewrite sanatizeURL_twice. unfold strip.
  rewrite sanatizeURL_strip at 1. rewrite endsWithDot_strip.
  destruct (endsInTwoSeps x) eqn:E; [|tauto].
  split; [|discriminate]. intros H. exfalso.
  rewrite <- endsWithDot_strip, <- sanatizeURL_strip in E.
  assert (L := length_butLast (sanatizeURL x)). rewrite H in L.
  destruct (sanatizeURL x); [discriminate|]. cbn [String.length] in L. lia.
Qed.

(** ** What a piece of code adds to the log and to the pending writes *)

Lemma Grows_ret {A} Q R (a : A) : Grows Q R (ret a).
Proof. intros st. exists [], []. cbn. rewrite app_nil_r. auto. Qed.

Lemma Grows_throw {A} Q R v : Grows Q R (@throw A v).
Proof. intros st. exists [], []. cbn. rewrite app_nil_r. auto. Qed.

Lemma Grows_bind {A B} Q R (m : M A) (f : A -> M B) :
  Grows Q R m -> (forall a, Grows Q R (f a)) -> Grows Q R (bind m f).
Proof.
  intros Hm Hf st. unfold bind.
  destruct (Hm st) as (d & ws & H1 & H2 & H3 & H4).
  destruct (m st) as [[a|v|] st1]; cbn [snd] in *.
  - destruct (Hf a st1) as (d' & ws' & G1 & G2 & G3 & G4).
    exists (d' ++ d), (ws ++ ws'). rewrite G1, G2, H1, H2, !app_assoc.
    repeat split; apply Forall_app; auto.
  - exists d, ws. auto.
  - exists d, ws. auto.
Qed.

Lemma Grows_effect Q R (e : Event) : Q e -> Grows Q R (effect e).
Proof. intros He st. exists [e], []. cbn. rewrite app_nil_r. auto. Qed.

Lemma Grows_when Q R (b : bool) (m : M unit) : Grows Q R m -> Grows Q R (when b m).
Proof. destruct b; [auto|]. intros _. apply Grows_ret. Qed.

Lemma Grows_forEach {A} Q R (xs : list A) (f : A -> M unit) :
  (forall x, Grows Q R (f x)) -> Grows Q R (forEach xs f).
Proof.
  intros Hf. induction xs as [|x xs IH]; [apply Grows_ret|].
  cbn [forEach]. apply Grows_bind; auto.
Qed.

Lemma Grows_existsSync Q R path : Grows Q R (existsSync path).
Proof. intros st. exists [], []. cbn. rewrite app_nil_r. auto. Qed.

Lemma Grows_readdirSync Q R path : Grows Q R (readdirSync path).
Proof.
  intros st. exists [], []. unfold readdirSync.
  destruct (Fs.readdir (files st) path); cbn; rewrite app_nil_r; auto.
Qed.

Lemma Grows_mkdirSync (Q : Event -> Prop) R path :
  Q (EMkdirSync path) -> Grows Q R (mkdirSync path).
Proof.
  intros He st. exists [EMkdirSync path], []. unfold mkdirSync. cbn [files emit].
  destruct (Fs.mkdir (files st) path); cbn; rewrite app_nil_r; auto.
Qed.

Lemma Grows_writeFileSync (Q : Event -> Prop) R path content :
  Q (EWriteFileSync path) -> Grows Q R (writeFileSync path content).
Proof.
  intros He st. exists [EWriteFileSync path], []. unfold writeFileSync. cbn [files emit].
  destruct (Fs.write (files st) path content); cbn; rewrite app_nil_r; auto.
Qed.

Lemma Grows_writeFile (Q : Event -> Prop) (R : PendingWrite -> Prop) path data cb :
  Q (EWriteFile path) -> R (mkWrite path data cb) -> Grows Q R (writeFile path data cb).
Proof. intros He Hw st. exists [EWriteFile path], [mkWrite path data cb]. cbn. auto. Qed.

Lemma Grows_startAudit (Q : Event -> Prop) R urls index url :
  Q (ELaunch url) -> Grows Q R (startAudit urls index url).
Proof. intros He st. exists [ELaunch url], []. cbn. rewrite app_nil_r. auto. Qed.

Lemma Grows_processExit {A} (Q : Event -> Prop) R code :
  Q (EExit code) -> Grows Q R (@processExit A code).
Proof. intros He st. exists [EExit code], []. cbn. rewrite app_nil_r. auto. Qed.

(** The events and pending writes of the program's functions. *)

Lemma Grows_save (Q : Event -> Prop) (R : PendingWrite -> Prop) filename data cb :
  Q (EMkdirSync "output") ->
  Q (EWriteFile ("./output/" +:+ filename)) ->
  Q (EConsole Error "Unable to save data.") ->
  (forall text c, R (mkWrite ("./output/" +:+ filename) text c)) ->
  Grows Q R (save filename data cb).
Proof.
  intros H1 H2 H3 H4. unfold save.
  destruct (negb (truthy data) || negb (truthy (VString filename))); [apply Grows_throw|].
  assert (G : forall text c, Grows Q R
            (present <- existsSync "./output" ;;
             when (negb present) (mkdirSync "output") ;;
             writeFile ("./output/" +:+ filename) text c)).
  { intros text c. apply Grows_bind; [apply Grows_existsSync|]. intros present.
    apply Grows_bind; [apply Grows_when, Grows_mkdirSync, H1|]. intros _.
    apply Grows_writeFile; auto. }
  destruct data; cbn [typeOf String.eqb Ascii.eqb Bool.eqb];
    try apply G; apply Grows_effect, H3.
Qed.

Lemma Grows_auditAll (Q : Event -> Prop) R urls index :
  Q (ECall "auditAll") ->
  (forall u, Q (ELaunch u)) ->
  Q (EConsole Info "Auditing complete.") ->
  Grows Q R (auditAll urls index).
Proof.
  intros H1 H2 H3. unfold auditAll.
  apply Grows_bind; [apply Grows_effect, H1|]. intros _.
  destruct (urls !! index).
  - apply Grows_bind; [apply Grows_startAudit, H2|]. intros _. apply Grows_ret.
  - apply Grows_bind; [apply Grows_effect, H3|]. intros _. apply Grows_ret.
Qed.

Lemma Grows_auditDone (Q : Event -> Prop) (R : PendingWrite -> Prop) urls index url json html :
  Q (EMkdirSync "output") ->
  (forall f, Q (EWriteFile ("./output/" +:+ f))) ->
  Q (EConsole Error "Unable to save data.") ->
  (forall f text c, R (mkWrite ("./output/" +:+ f) text c)) ->
  Q (ECall "auditAll") ->
  (forall u, Q (ELaunch u)) ->
  Q (EConsole Info "Auditing complete.") ->
  Grows Q R (auditDone urls index url json html).
Proof.
  intros. unfold auditDone.
  apply Grows_bind; [apply Grows_save; auto|]. intros _.
  apply Grows_bind; [apply Grows_save; auto|]. intros _.
  apply Grows_bind; [apply Grows_auditAll; auto|]. intros _. apply Grows_ret.
Qed.

Lemma Grows_makeAuditsIndex (Q : Event -> Prop) R :
  Q (ECall "makeAuditsIndex") ->
  Q (EWriteFileSync "./output/index.html") ->
  Grows Q R makeAuditsIndex.
Proof.
  intros H1 H2. unfold makeAuditsIndex, readDirs.
  apply Grows_bind; [apply Grows_effect, H1|]. intros _.
  apply Grows_bind; [apply Grows_readdirSync|]. intros entries.
  apply Grows_writeFileSync, H2.
Qed.

Lemma Grows_saveLastCrawl (Q : Event -> Prop) (R : PendingWrite -> Prop) crawled discovered now :
  (forall p, Q (EMkdirSync ("./output/" +:+ p))) ->
  Q (EMkdirSync "output") ->
  (forall f, Q (EWriteFile ("./output/" +:+ f))) ->
  Q (EConsole Error "Unable to save data.") ->
  (forall f text c, R (mkWrite ("./output/" +:+ f) text c)) ->
  Q (ECall "auditAll") ->
  (forall u, Q (ELaunch u)) ->
  Q (EConsole Info "Auditing complete.") ->
  Q (ECall "makeAuditsIndex") ->
  Q (EWriteFileSync "./output/index.html") ->
  Grows Q R (saveLastCrawl crawled discovered now).
Proof.
  intros. unfold saveLastCrawl.
  apply Grows_bind.
  { apply Grows_forEach. intros url.
    apply Grows_bind; [apply Grows_existsSync|]. intros present.
    apply Grows_when, Grows_mkdirSync. auto. }
  intros _. apply Grows_bind; [apply Grows_save; auto|]. intros _.
  apply Grows_bind; [apply Grows_auditAll; auto|]. intros _.
  apply Grows_makeAuditsIndex; auto.
Qed.

Lemma Grows_runCallback (Q : Event -> Prop) R cb err :
  (forall msg, Q (EConsole Info msg)) ->
  (forall id b, Q (EUserCallback id b)) ->
  Grows Q R (runCallback cb err).
Proof.
  intros H1 H2. destruct cb as [filename|id]; cbn [runCallback].
  - destruct err; [apply Grows_throw|apply Grows_effect, H1].
  - apply Grows_effect, H2.
Qed.

(** The wrappers of the event loop add the crash or the rejection. *)
Lemma task_grows (Q : Event -> Prop) (R : PendingWrite -> Prop) (m : M unit) st :
  Grows Q R m -> (forall v, Q (EUncaught v)) -> Q (EExit 1) ->
  exists d ws, history (task m st) = d ++ history st
               /\ writes (task m st) = writes st ++ ws
               /\ Forall Q d /\ Forall R ws.
Proof.
  intros G H1 H2. destruct (G st) as (d & ws & E1 & E2 & E3 & E4). unfold task.
  destruct (m st) as [[a|v|] st1]; cbn [snd] in *.
  - exists d, ws. auto.
  - exists (EExit 1 :: EUncaught v :: d), ws. cbn. rewrite E1, E2.
    repeat split; auto.
  - exists d, ws. auto.
Qed.

Lemma job_grows (Q : Event -> Prop) (R : PendingWrite -> Prop) (m : M unit) st :
  Grows Q R m -> Q EUnhandledRejection ->
  exists d ws, history (job m st) = d ++ history st
               /\ writes (job m st) = writes st ++ ws
               /\ Forall Q d /\ Forall R ws.
Proof.
  intros G H1. destruct (G st) as (d & ws & E1 & E2 & E3 & E4). unfold job.
  destruct (m st) as [[a|v|] st1]; cbn [snd] in *.
  - exists d, ws. auto.
  - exists (EUnhandledRejection :: d), ws. cbn. rewrite E1, E2.
    repeat split; auto.
  - exists d, ws. auto.
Qed.

(** ** Every write stays below [./output/] *)

Lemma Confined_step (st st' : State) (base : list PendingWrite) :
  Forall (fun e => confined e = true) (history st) ->
  Forall (fun w => underOutput (wPath w) = true) base ->
  (exists d ws, history st' = d ++ history st /\ writes st' = base ++ ws
                /\ Forall (fun e => confined e = true) d
                /\ Forall (fun w => underOutput (wPath w) = true) ws) ->
  Confined st'.
Proof.
  intros H1 H2 (d & ws & E1 & E2 & F1 & F2). split.
  - rewrite E1. apply Forall_app; auto.
  - rewrite E2. apply Forall_app; auto.
Qed.

Ltac confined_premises :=
  repeat match goal with
    | |- forall _, _ => intro
    | |- confined _ = true => reflexivity
    | |- underOutput _ = true => reflexivity
    end.

Lemma Grows_main argv :
  Grows (fun e => confined e = true) (fun w => underOutput (wPath w) = true) (main argv).
Proof.
  unfold main.
  apply Grows_bind.
  { apply Grows_when, Grows_bind; [apply Grows_effect; reflexivity|].
    intros _. apply Grows_processExit. reflexivity. }
  intros _. apply Grows_bind.
  { apply Grows_when, Grows_bind; [apply Grows_effect; reflexivity|].
    intros _. apply Grows_processExit. reflexivity. }
  intros _. apply Grows_bind; [apply Grows_effect; reflexivity|].
  intros _. apply Grows_bind.
  { unfold clearOutput. apply Grows_bind; [apply Grows_effect; reflexivity|].
    intros _ st. exists [ERimraf "./output/*"], []. cbn. rewrite app_nil_r. auto. }
  intros _ st. eexists [ECrawl _ _ _], []. cbn. rewrite app_nil_r. auto.
Qed.

Lemma Grows_crawlerFinished crawled discovered now :
  Grows (fun e => confined e = true) (fun w => underOutput (wPath w) = true)
        (crawlerFinished crawled discovered now).
Proof.
  unfold crawlerFinished.
  destruct ((length crawled =? 0)%nat && (length discovered =? 0)%nat).
  - apply Grows_effect. reflexivity.
  - apply Grows_saveLastCrawl; confined_premises.
Qed.

Lemma boot_confined argv fs : Confined (boot argv fs).
Proof.
  unfold boot. apply (Confined_step (initial fs) _ []); [constructor|constructor|].
  apply task_grows; [apply Grows_main| |]; confined_premises.
Qed.

Ltac confined_wrapper :=
  match goal with
  | |- Confined (task ?m ?s) =>
      apply (Confined_step s _ (writes s));
      [cbn; repeat (constructor; [first [reflexivity|assumption]|]); assumption
      |cbn; assumption
      |apply task_grows; [|confined_premises..]]
  | |- Confined (job ?m ?s) =>
      apply (Confined_step s _ (writes s));
      [cbn; repeat (constructor; [first [reflexivity|assumption]|]); assumption
      |cbn; assumption
      |apply job_grows; [|confined_premises..]]
  end.

Lemma react_confined a st st' : react a st = Some st' -> Confined st -> Confined st'.
Proof.
  intros Hr [Hh Hw]. unfold react in Hr.
  destruct (exitCode st); [discriminate|].
  destruct a as [| |crawled discovered now|k ok|k report|k ioError].
  - destruct (crawling st); [|discriminate]. injection Hr as <-.
    confined_wrapper. apply Grows_effect. reflexivity.
  - destruct (crawling st); [|discriminate]. injection Hr as <-.
    confined_wrapper.
    apply Grows_bind; [apply Grows_effect; reflexivity|].
    intros _. apply Grows_processExit. reflexivity.
  - destruct (crawling st); [|discriminate]. injection Hr as <-.
    confined_wrapper. apply Grows_crawlerFinished.
  - destruct (audits st !! k) as [au|]; [|discriminate].
    destruct (aLaunched au); [discriminate|].
    destruct ok; injection Hr as <-.
    + confined_wrapper. apply Grows_effect. reflexivity.
    + split; cbn; [repeat (constructor; [reflexivity|])|]; assumption.
  - destruct (audits st !! k) as [au|]; [|discriminate].
    destruct (aLaunched au); [|discriminate].
    destruct report as [[json html]|]; injection Hr as <-.
    + confined_wrapper. apply Grows_auditDone; confined_premises.
    + split; cbn; [repeat (constructor; [reflexivity|])|]; assumption.
  - destruct (writes st !! k) as [w|] eqn:Ew; [|discriminate].
    assert (Hp : confined (EWriteFileDone (wPath w) true) = true
                 /\ confined (EWriteFileDone (wPath w) false) = true).
    { split; exact (proj1 (Forall_lookup _ _) Hw k w Ew). }
    destruct Hp as [Hp1 Hp2].
    assert (Hd : Forall (fun w => underOutput (wPath w) = true) (delete k (writes st))).
    { apply Forall_delete, Hw. }
    cbn [files setWrites] in Hr.
    destruct (if ioError then inl "EIO" else Fs.write (files st) (wPath w) (wData w)) as [e|fs'];
      injection Hr as <-; confined_wrapper; apply Grows_runCallback; confined_premises.
Qed.

Lemma run_confined acts st st' : run acts st = Some st' -> Confined st -> Confined st'.
Proof.
  revert st. induction acts as [|a acts IH]; intros st Hr Hc; cbn [run] in Hr.
  - now injection Hr as <-.
  - destruct (react a st) as [st1|] eqn:E; [|discriminate].
    eapply IH; [exact Hr|]. eapply react_confined; eassumption.
Qed.

(** ** What [save], [auditAll] and [auditDone] do, exactly *)

Lemma exists_output (fs : gmap (list string) Node) :
  Fs.exists_ fs "./output" = bool_decide (is_Some (fs !! ["output"])).
Proof. reflexivity. Qed.

Lemma mkdir_output (fs : gmap (list string) Node) :
  Fs.exists_ fs "./output" = false ->
  Fs.mkdir fs "output" = inr (<[ ["output"] := Dir ]> fs).
Proof.
  rewrite exists_output. intros H. apply bool_decide_eq_false in H.
  unfold Fs.mkdir. change (Fs.resolve fs "output") with (Some ["output"]).
  cbn [Fs.nodeAt]. destruct (fs !! ["output"]) eqn:E; [|reflexivity].
  exfalso. apply H. eauto.
Qed.

Lemma save_queues (filename text : string) (st : State) :
  filename <> "" ->
  (present <- existsSync "./output" ;;
   when (negb present) (mkdirSync "output") ;;
   writeFile ("./output/" +:+ filename) text (SavedCallback filename)) st
  = (Ret tt, queued filename text (ensureOutput st)).
Proof.
  intros _. unfold bind, existsSync, ensureOutput, queued.
  destruct (Fs.exists_ (files st) "./output") eqn:E; [reflexivity|].
  cbn [negb when]. unfold mkdirSync. cbn [files emit].
  rewrite (mkdir_output _ E). reflexivity.
Qed.

Lemma save_throws (filename : string) (data : JsValue) (cb : option nat) (st : State) :
  truthy data = false \/ filename = "" ->
  save filename data cb st = (Throw "No data or no filename", st).
Proof.
  intros H. unfold save.
  replace (negb (truthy data) || negb (truthy (VString filename))) with true; [reflexivity|].
  destruct H as [->| ->]; [reflexivity|]. cbn. now rewrite orb_true_r.
Qed.

Lemma truthy_name (filename : string) :
  filename <> "" -> truthy (VString filename) = true.
Proof. intros H. cbn. destruct filename; [congruence|reflexivity]. Qed.

Lemma save_object (filename : string) (o : Json) (st : State) :
  filename <> "" ->
  save filename (VObject o) None st
  = (Ret tt, queued filename (stringify o) (ensureOutput st)).
Proof.
  intros H. unfold save. rewrite (truthy_name _ H). cbn [truthy negb orb typeOf].
  change (String.eqb "object" "object") with true. cbn iota.
  now apply save_queues.
Qed.

Lemma save_text (filename text : string) (st : State) :
  filename <> "" -> text <> "" ->
  save filename (VString text) None st
  = (Ret tt, queued filename text (ensureOutput st)).
Proof.
  intros H Ht. unfold save. rewrite (truthy_name _ H), (truthy_name _ Ht).
  cbn [negb orb typeOf]. change (String.eqb "string" "object") with false. cbn iota.
  now apply save_queues.
Qed.

Lemma auditAll_next (urls : list string) (i : nat) (u : string) (st : State) :
  urls !! i = Some u ->
  auditAll urls i st
  = (Ret VUndefined,
     setAudits (audits st ++ [mkAudit urls i u false])
               (emit (ELaunch u) (emit (ECall "auditAll") st))).
Proof. intros H. unfold auditAll, bind, effect. rewrite H. reflexivity. Qed.

Lemma auditAll_end (urls : list string) (i : nat) (st : State) :
  urls !! i = None ->
  auditAll urls i st
  = (Ret (VBool true),
     emit (EConsole Info "Auditing complete.") (emit (ECall "auditAll") st)).
Proof. intros H. unfold auditAll, bind, effect. rewrite H. reflexivity. Qed.

Lemma append_nonempty (s t : string) : t <> "" -> s +:+ t <> "".
Proof. destruct s; [auto|discriminate]. Qed.

Lemma auditDone_ok urls i url json html st :
  html <> "" ->
  auditDone urls i url json html st
  = (Ret tt, snd (auditAll urls (i + 1) (reportsQueued url json html st))).
Proof.
  intros H. unfold auditDone, bind.
  rewrite save_object by (apply append_nonempty; discriminate).
  rewrite save_text by (auto; apply append_nonempty; discriminate).
  fold (reportsQueued url json html st).
  destruct (urls !! (i + 1)) as [u|] eqn:E.
  - rewrite (auditAll_next _ _ _ _ E). reflexivity.
  - rewrite (auditAll_end _ _ _ E). reflexivity.
Qed.

Lemma auditDone_empty_report urls i url json st :
  auditDone urls i url json "" st
  = (Throw "No data or no filename",
     queued (sanatizeURL url +:+ "/auditData.json") (stringify json) (ensureOutput st)).
Proof.
  unfold auditDone, bind.
  rewrite save_object by (apply append_nonempty; discriminate).
  rewrite save_throws by (left; reflexivity). reflexivity.
Qed.

(** ** The audit queue *)

Lemma ensureOutput_history st :
  exists m, mkdirOnly m /\ history (ensureOutput st) = m ++ history st.
Proof.
  unfold ensureOutput. destruct (Fs.exists_ (files st) "./output").
  - exists []. split; [now left|reflexivity].
  - exists [EMkdirSync "output"]. split; [now right|reflexivity].
Qed.

Lemma ensureOutput_frame st :
  audits (ensureOutput st) = audits st
  /\ writes (ensureOutput st) = writes st
  /\ crawling (ensureOutput st) = crawling st
  /\ exitCode (ensureOutput st) = exitCode st.
Proof. unfold ensureOutput. destruct (Fs.exists_ (files st) "./output"); auto. Qed.

Lemma reportsQueued_history url json html st :
  exists m1 m2, mkdirOnly m1 /\ mkdirOnly m2
    /\ history (reportsQueued url json html st)
       = EWriteFile (reportPath url) :: m2 ++ EWriteFile (dataPath url) :: m1 ++ history st.
Proof.
  unfold reportsQueued.
  destruct (ensureOutput_history st) as (m1 & M1 & E1).
  destruct (ensureOutput_history
              (queued (sanatizeURL url +:+ "/auditData.json") (stringify json) (ensureOutput st)))
    as (m2 & M2 & E2).
  exists m1, m2. repeat split; [assumption..|].
  unfold queued at 1. cbn [history emit setWrites]. rewrite E2.
  unfold queued. cbn [history emit setWrites]. rewrite E1. reflexivity.
Qed.

Lemma reportsQueued_frame url json html st :
  audits (reportsQueued url json html st) = audits st
  /\ crawling (reportsQueued url json html st) = crawling st
  /\ exitCode (reportsQueued url json html st) = exitCode st.
Proof.
  unfold reportsQueued, queued. cbn.
  destruct (ensureOutput_frame
              (setWrites (writes (ensureOutput st) ++
                 [mkWrite ("./output/" +:+ sanatizeURL url +:+ "/auditData.json")
                    (stringify json) (SavedCallback (sanatizeURL url +:+ "/auditData.json"))])
                 (emit (EWriteFile ("./output/" +:+ sanatizeURL url +:+ "/auditData.json"))
                    (ensureOutput st)))) as (A1 & _ & A3 & A4).
  destruct (ensureOutput_frame st) as (B1 & _ & B3 & B4).
  rewrite A1, A3, A4. cbn. auto.
Qed.

Lemma EachLaunch_mkdirOnly P m h : mkdirOnly m -> EachLaunch P h -> EachLaunch P (m ++ h).
Proof. intros [-> | ->] H; [exact H|]. now apply EachLaunch_other. Qed.

Lemma calm_quiet e : calm e = true -> quiet e = true.
Proof. unfold calm, quiet. intros H. apply andb_true_iff in H. tauto. Qed.

Lemma headIsCall_quiet x d :
  Forall (fun e => quiet e = true) x -> headIsCall d = false -> headIsCall (x ++ d) = false.
Proof.
  intros Hx Hd. destruct Hx as [|e x He _]; [exact Hd|].
  cbn. destruct e; try reflexivity. discriminate.
Qed.

Lemma quiet_delta (P : string -> list Event -> Prop) x d :
  Forall (fun e => quiet e = true) x -> headIsCall d = false ->
  headIsCall (x ++ d) = false
  /\ launched (x ++ d) = launched d
  /\ completions (x ++ d) = completions d
  /\ (EachLaunch P d -> EachLaunch P (x ++ d)).
Proof.
  intros Hx Hd. split; [now apply headIsCall_quiet|].
  induction Hx as [|e x He Hx IH]; [auto|].
  destruct IH as (I1 & I2 & I3).
  assert (Hh := headIsCall_quiet x d Hx Hd).
  cbn [app]. repeat split.
  - destruct e; try discriminate; exact I1.
  - cbn [completions]. rewrite Hh, andb_false_r. exact I2.
  - intros HP. apply EachLaunch_other; [|auto].
    destruct e; try reflexivity. discriminate.
Qed.

(** A turn that only adds quiet events and leaves the audits alone keeps
    the queue where it is. *)
Lemma ChainInv_quiet urls h0 st st' ph x :
  history st' = x ++ history st ->
  audits st' = audits st ->
  crawling st' = crawling st ->
  Forall (fun e => quiet e = true) x ->
  ChainInv urls h0 st ph -> ChainInv urls h0 st' ph.
Proof.
  intros Hh Ha Hc Hx (d & E & C & H1 & H2 & H3).
  destruct (quiet_delta (Before urls) x d Hx H1) as (Q1 & Q2 & Q3 & Q4).
  exists (x ++ d).
  split; [rewrite Hh, E; apply app_assoc|].
  split; [congruence|]. split; [exact Q1|]. split; [auto|].
  rewrite Ha, Q2, Q3. exact H3.
Qed.

Lemma task_runCallback cb err st :
  exists x, history (task (runCallback cb err) st) = x ++ history st
            /\ Forall (fun e => calm e = true) x
            /\ audits (task (runCallback cb err) st) = audits st
            /\ crawling (task (runCallback cb err) st) = crawling st.
Proof.
  destruct cb as [filename|id], err as [e|]; cbn.
  - exists [EExit 1; EUncaught e]. repeat split; repeat constructor.
  - eexists [_]. repeat split; repeat constructor.
  - eexists [_]. repeat split; repeat constructor.
  - eexists [_]. repeat split; repeat constructor.
Qed.

Lemma react_write_chain urls h0 k ioError st st' ph :
  react (WriteCompleted k ioError) st = Some st' ->
  ChainInv urls h0 st ph -> ChainInv urls h0 st' ph.
Proof.
  intros Hr Hi. unfold react in Hr.
  destruct (exitCode st); [discriminate|].
  destruct (writes st !! k) as [w|]; [|discriminate].
  cbn [files setWrites] in Hr.
  destruct (if ioError then inl "EIO" else Fs.write (files st) (wPath w) (wData w)) as [e|fs'];
    injection Hr as <-.
  - destruct (task_runCallback (wCallback w) (Some e)
                (emit (EWriteFileDone (wPath w) false) (setWrites (delete k (writes st)) st)))
      as (x & X1 & X2 & X3 & X4).
    eapply (ChainInv_quiet _ _ st _ _ (x ++ [EWriteFileDone (wPath w) false])); [| | | |exact Hi].
    + rewrite X1. cbn. now rewrite <- app_assoc.
    + rewrite X3. reflexivity.
    + rewrite X4. reflexivity.
    + apply Forall_app. split; [|repeat constructor].
      eapply Forall_impl; [exact X2|]. apply calm_quiet.
  - destruct (task_runCallback (wCallback w) None
                (emit (EWriteFileDone (wPath w) true)
                   (setFiles fs' (setWrites (delete k (writes st)) st))))
      as (x & X1 & X2 & X3 & X4).
    eapply (ChainInv_quiet _ _ st _ _ (x ++ [EWriteFileDone (wPath w) true])); [| | | |exact Hi].
    + rewrite X1. cbn. now rewrite <- app_assoc.
    + rewrite X3. reflexivity.
    + rewrite X4. reflexivity.
    + apply Forall_app. split; [|repeat constructor].
      eapply Forall_impl; [exact X2|]. apply calm_quiet.
Qed.

Lemma react_launched_chain urls h0 k ok st st' ph :
  react (ChromeLaunched k ok) st = Some st' ->
  ChainInv urls h0 st ph ->
  exists i, ph = Running i false /\ k = 0%nat
            /\ ChainInv urls h0 st' (if ok then Running i true else Stalled).
Proof.
  intros Hr (d & E & C & H1 & H2 & H3). unfold react in Hr.
  destruct (exitCode st); [discriminate|].
  destruct ph as [i up| |].
  2,3: destruct H3 as (Ha & _); rewrite Ha in Hr; discriminate.
  destruct H3 as (u & Hu & Ha & Hl & Hc). rewrite Ha in Hr.
  destruct k as [|k]; [|discriminate]. cbn in Hr.
  destruct up; [discriminate|]. exists i. split; [reflexivity|]. split; [reflexivity|].
  destruct ok; injection Hr as <-.
  - destruct (quiet_delta (Before urls) [EConsole Info ("Auditing " +:+ u)] d) as (Q1 & Q2 & Q3 & Q4);
      [repeat constructor|exact H1|].
    exists ([EConsole Info ("Auditing " +:+ u)] ++ d).
    split; [cbn; rewrite E; reflexivity|].
    split; [exact C|]. split; [exact Q1|]. split; [auto|].
    exists u. rewrite Q2, Q3. auto.
  - destruct (quiet_delta (Before urls) [EUnhandledRejection; ESettled u false] d)
      as (Q1 & Q2 & Q3 & Q4); [repeat constructor|exact H1|].
    exists ([EUnhandledRejection; ESettled u false] ++ d).
    split; [cbn; rewrite E; reflexivity|].
    split; [exact C|]. split; [exact Q1|]. split; [auto|].
    rewrite Q2, Q3. split; [reflexivity|]. split; [eauto|exact Hc].
Qed.

Lemma launched_length urls d i u :
  urls !! i = Some u -> rev (launched d) = take (S i) urls -> length (launched d) = S i.
Proof.
  intros Hu Hl. rewrite <- length_rev, Hl, length_take.
  apply lookup_lt_Some in Hu. lia.
Qed.

(** The turn in which an audit resolves with both reports: the two writes
    are issued and [auditAll] goes on, in that order. *)
Lemma settled_delta urls d i u json html st :
  urls !! i = Some u ->
  headIsCall d = false ->
  rev (launched d) = take (S i) urls ->
  EachLaunch (Before urls) d ->
  exists x,
    history (snd (auditAll urls (i + 1) (reportsQueued u json html (emit (ESettled u true) st))))
    = x ++ history st
    /\ headIsCall (x ++ d) = false
    /\ EachLaunch (Before urls) (x ++ d)
    /\ match urls !! S i with
       | Some u' => launched (x ++ d) = u' :: launched d
                    /\ completions (x ++ d) = completions d
       | None => launched (x ++ d) = launched d
                 /\ completions (x ++ d) = S (completions d)
       end.
Proof.
  intros Hu Hd Hl HE.
  destruct (reportsQueued_history u json html (emit (ESettled u true) st))
    as (m1 & m2 & M1 & M2 & Eh).
  assert (Hquiet : forall P, EachLaunch P d ->
            EachLaunch P (ECall "auditAll" :: EWriteFile (reportPath u) :: m2
                            ++ EWriteFile (dataPath u) :: m1 ++ ESettled u true :: d)).
  { intros P HP. apply EachLaunch_other; [reflexivity|].
    apply EachLaunch_other; [reflexivity|]. apply EachLaunch_mkdirOnly; [exact M2|].
    apply EachLaunch_other; [reflexivity|]. apply EachLaunch_mkdirOnly; [exact M1|].
    apply EachLaunch_other; [reflexivity|]. exact HP. }
  assert (Hla : launched (ECall "auditAll" :: EWriteFile (reportPath u) :: m2
                            ++ EWriteFile (dataPath u) :: m1 ++ ESettled u true :: d)
                = launched d).
  { destruct M1 as [-> | ->], M2 as [-> | ->]; reflexivity. }
  assert (Hco : completions (EWriteFile (reportPath u) :: m2
                            ++ EWriteFile (dataPath u) :: m1 ++ ESettled u true :: d)
                = completions d).
  { destruct M1 as [-> | ->], M2 as [-> | ->]; reflexivity. }
  replace (i + 1)%nat with (S i) by lia.
  destruct (urls !! S i) as [u'|] eqn:Eu.
  - rewrite (auditAll_next _ _ _ _ Eu). cbn [snd history setAudits emit]. rewrite Eh.
    exists (ELaunch u' :: ECall "auditAll" :: EWriteFile (reportPath u) :: m2
              ++ EWriteFile (dataPath u) :: m1 ++ [ESettled u true]).
    cbn [app]. rewrite <- !app_assoc. cbn [app]. rewrite <- !app_assoc. cbn [app].
    cbn [history emit].
    split; [reflexivity|]. split; [reflexivity|]. split.
    + apply EachLaunch_launch; [|now apply Hquiet].
      unfold Before. rewrite Hla, (launched_length _ _ _ _ Hu Hl).
      exists u, m1, m2, d. auto.
    + change (launched (ELaunch u' :: ?h)) with (u' :: launched h).
      rewrite Hla. split; [reflexivity|].
      cbn [completions isComplete andb Nat.add]. exact Hco.
  - rewrite (auditAll_end _ _ _ Eu). cbn [snd history emit]. rewrite Eh.
    exists (EConsole Info "Auditing complete." :: ECall "auditAll"
              :: EWriteFile (reportPath u) :: m2
              ++ EWriteFile (dataPath u) :: m1 ++ [ESettled u true]).
    cbn [app]. rewrite <- !app_assoc. cbn [app]. rewrite <- !app_assoc. cbn [app].
    cbn [history emit].
    split; [reflexivity|]. split; [reflexivity|]. split.
    + apply EachLaunch_other; [reflexivity|]. now apply Hquiet.
    + change (launched (EConsole Info "Auditing complete." :: ?h)) with (launched h).
      rewrite Hla. split; [reflexivity|].
      change (completions (EConsole Info "Auditing complete." :: ECall "auditAll" :: ?h))
        with (S (completions h)).
      now rewrite Hco.
Qed.

Lemma settled_frame urls i u json html st :
  crawling (snd (auditAll urls (i + 1) (reportsQueued u json html st))) = crawling st
  /\ exitCode (snd (auditAll urls (i + 1) (reportsQueued u json html st))) = exitCode st
  /\ audits (snd (auditAll urls (i + 1) (reportsQueued u json html st)))
     = audits st ++ match urls !! S i with
                    | Some u' => [mkAudit urls (S i) u' false]
                    | None => []
                    end.
Proof.
  destruct (reportsQueued_frame u json html st) as (A1 & A2 & A3).
  replace (i + 1)%nat with (S i) by lia.
  destruct (urls !! S i) as [u'|] eqn:Eu.
  - rewrite (auditAll_next _ _ _ _ Eu).
    cbn [snd crawling exitCode audits setAudits emit]. rewrite A1, A2, A3. auto.
  - rewrite (auditAll_end _ _ _ Eu).
    cbn [snd crawling exitCode audits setAudits emit]. rewrite A1, A2, A3, app_nil_r. auto.
Qed.

Lemma react_settled_chain urls h0 k report st st' ph :
  react (AuditSettled k report) st = Some st' ->
  ChainInv urls h0 st ph ->
  exists i, ph = Running i true /\ k = 0%nat
            /\ ChainInv urls h0 st' (afterSettled urls i report).
Proof.
  intros Hr (d & E & C & H1 & H2 & H3). unfold react in Hr.
  destruct (exitCode st); [discriminate|].
  destruct ph as [i up| |].
  2,3: destruct H3 as (Ha & _); rewrite Ha in Hr; discriminate.
  destruct H3 as (u & Hu & Ha & Hl & Hc). rewrite Ha in Hr.
  destruct k as [|k]; [|discriminate]. cbn in Hr.
  destruct up; [|discriminate]. exists i. split; [reflexivity|]. split; [reflexivity|].
  destruct report as [[json html]|]; injection Hr as <-; cbn [afterSettled].
  - destruct (String.eqb_spec html "") as [-> | Hne].
    + (* the empty report: the second [save] throws *)
      unfold job. rewrite auditDone_empty_report.
      destruct (ensureOutput_history (emit (ESettled u true) (setAudits [] st)))
        as (m1 & M1 & Eh).
      destruct (ensureOutput_frame (emit (ESettled u true) (setAudits [] st)))
        as (F1 & _ & F3 & _).
      destruct (quiet_delta (Before urls)
                  (EUnhandledRejection :: EWriteFile (dataPath u) :: m1 ++ [ESettled u true]) d)
        as (Q1 & Q2 & Q3 & Q4); [|exact H1|].
      { constructor; [reflexivity|]. constructor; [reflexivity|].
        apply Forall_app. split; [|repeat constructor].
        destruct M1 as [-> | ->]; repeat constructor. }
      exists ((EUnhandledRejection :: EWriteFile (dataPath u) :: m1 ++ [ESettled u true]) ++ d).
      split.
      { unfold queued. cbn [history emit setWrites]. rewrite Eh. cbn [history emit setAudits].
        rewrite E. cbn [app]. now rewrite <- !app_assoc. }
      split; [unfold queued; cbn; rewrite F3; exact C|].
      split; [exact Q1|]. split; [auto|].
      rewrite Q2, Q3. split; [unfold queued; cbn; rewrite F1; reflexivity|].
      split; [eauto|exact Hc].
    + unfold job. rewrite (auditDone_ok _ _ _ _ _ _ Hne). cbn [snd].
      destruct (settled_delta urls d i u json html (setAudits [] st) Hu H1 Hl H2)
        as (x & X1 & X2 & X3 & X4).
      destruct (settled_frame urls i u json html (emit (ESettled u true) (setAudits [] st)))
        as (F1 & F2 & F3).
      set (st1 := snd (auditAll urls (i + 1)
                         (reportsQueued u json html (emit (ESettled u true) (setAudits [] st))))) in *.
      clearbody st1.
      cbn [history crawling audits exitCode setAudits emit app] in X1, F1, F2, F3.
      destruct (urls !! S i) as [u'|] eqn:Eu.
      * exists (x ++ d). split; [rewrite X1, E; apply app_assoc|].
        split; [rewrite F1; exact C|]. split; [exact X2|]. split; [exact X3|].
        destruct X4 as (L1 & L2). exists u'. split; [exact Eu|].
        split; [exact F3|]. rewrite L1, L2. split; [|exact Hc].
        cbn [rev]. rewrite Hl. symmetry. now apply take_S_r.
      * exists (x ++ d). split; [rewrite X1, E; apply app_assoc|].
        split; [rewrite F1; exact C|]. split; [exact X2|]. split; [exact X3|].
        destruct X4 as (L1 & L2). split; [exact F3|]. rewrite L1, L2, Hc.
        split; [|reflexivity]. rewrite Hl. apply take_ge.
        apply lookup_ge_None in Eu. lia.
  - destruct (quiet_delta (Before urls) [EUnhandledRejection; ESettled u false] d)
      as (Q1 & Q2 & Q3 & Q4); [repeat constructor|exact H1|].
    exists ([EUnhandledRejection; ESettled u false] ++ d).
    split; [cbn; rewrite E; reflexivity|].
    split; [exact C|]. split; [exact Q1|]. split; [auto|].
    rewrite Q2, Q3. split; [reflexivity|]. split; [eauto|exact Hc].
Qed.

Lemma react_chain urls h0 a st st' ph :
  react a st = Some st' ->
  ChainInv urls h0 st ph ->
  exists ph', ChainInv urls h0 st' ph'
              /\ (goodAction a = true -> ph <> Stalled -> ph' <> Stalled).
Proof.
  intros Hr Hi. destruct a as [| |crawled discovered now|k ok|k report|k ioError].
  1-3: destruct Hi as (d & _ & C & _); unfold react in Hr;
       destruct (exitCode st); [discriminate|]; rewrite C in Hr; discriminate.
  - destruct (react_launched_chain _ _ _ _ _ _ _ Hr Hi) as (i & -> & _ & H).
    eexists. split; [exact H|]. cbn. intros -> _. discriminate.
  - destruct (react_settled_chain _ _ _ _ _ _ _ Hr Hi) as (i & -> & _ & H).
    eexists. split; [exact H|]. cbn. intros Hg _.
    destruct report as [[json html]|]; [|discriminate]. cbn.
    destruct (String.eqb html ""); [discriminate|].
    destruct (urls !! S i); discriminate.
  - exists ph. split; [|auto]. eapply react_write_chain; eassumption.
Qed.

Lemma run_chain urls h0 acts st st' ph :
  run acts st = Some st' ->
  ChainInv urls h0 st ph ->
  exists ph', ChainInv urls h0 st' ph'
              /\ (forallb goodAction acts = true -> ph <> Stalled -> ph' <> Stalled).
Proof.
  revert st ph. induction acts as [|a acts IH]; intros st ph Hr Hi; cbn [run] in Hr.
  - injection Hr as <-. exists ph. auto.
  - destruct (react a st) as [st1|] eqn:E; [|discriminate].
    destruct (react_chain _ _ _ _ _ _ E Hi) as (ph1 & H1 & G1).
    destruct (IH _ _ Hr H1) as (ph2 & H2 & G2).
    exists ph2. split; [exact H2|]. cbn [forallb]. intros Hg Hp.
    apply andb_true_iff in Hg as [Ha Hb]. auto.
Qed.

(** The call [auditAll(urls, 0)] itself. *)
Lemma chain_start urls st0 :
  crawling st0 = false -> audits st0 = [] ->
  exists ph, ph <> Stalled /\ ChainInv urls (history st0) (snd (auditAll urls 0 st0)) ph.
Proof.
  intros C A. destruct (urls !! 0%nat) as [u|] eqn:Eu.
  - exists (Running 0 false). split; [discriminate|].
    rewrite (auditAll_next _ _ _ _ Eu). exists [ELaunch u; ECall "auditAll"].
    cbn. rewrite A. repeat split; auto.
    + apply EachLaunch_launch; [exact Eu|].
      apply EachLaunch_other; [reflexivity|constructor].
    + exists u. repeat split; auto.
      destruct urls as [|u' urls]; [discriminate|]. cbn in Eu. injection Eu as ->.
      reflexivity.
  - exists Finished. split; [discriminate|].
    rewrite (auditAll_end _ _ _ Eu). exists [EConsole Info "Auditing complete."; ECall "auditAll"].
    cbn. repeat split; auto.
    + apply EachLaunch_other; [reflexivity|].
      apply EachLaunch_other; [reflexivity|constructor].
    + destruct urls; [reflexivity|discriminate].
Qed.

(** What the invariant says about the counts. *)
Lemma ChainInv_counts urls h0 st ph :
  ChainInv urls h0 st ph ->
  exists d, history st = d ++ h0
    /\ EachLaunch (Before urls) d
    /\ length (audits st) <= 1
    /\ (exists k, rev (launched d) = take k urls)
    /\ completions d <= 1
    /\ (ph <> Stalled -> audits st = [] -> rev (launched d) = urls /\ completions d = 1).
Proof.
  intros (d & E & C & H1 & H2 & H3). exists d.
  split; [exact E|]. split; [exact H2|].
  destruct ph as [i up| |].
  - destruct H3 as (u & Hu & Ha & Hl & Hc). rewrite Ha, Hc.
    split; [cbn; lia|]. split; [eauto|]. split; [lia|]. intros _ ?. discriminate.
  - destruct H3 as (Ha & Hl & Hc). rewrite Ha, Hc.
    split; [cbn; lia|]. split; [exact Hl|]. split; [lia|]. congruence.
  - destruct H3 as (Ha & Hl & Hc). rewrite Ha, Hc.
    split; [cbn; lia|]. split; [|split; [lia|auto]].
    exists (length urls). now rewrite firstn_all.
Qed.




Lemma EachLaunch_split P h newer u older :
  EachLaunch P h -> h = newer ++ ELaunch u :: older -> P u older.
Proof.
  intros H. revert newer. induction H as [|u' h Hp H IH|e h He H IH]; intros newer E.
  - destruct newer; discriminate.
  - destruct newer as [|e newer]; cbn in E.
    + injection E as -> ->. exact Hp.
    + injection E as _ E. eapply IH, E.
  - destruct newer as [|e' newer]; cbn in E.
    + injection E as -> _. discriminate.
    + injection E as _ E. eapply IH, E.
Qed.

(** ** The phases of a run *)

Lemma Calm_ret {A} (a : A) : Calm (ret a).
Proof. intros st. exists []. cbn. auto. Qed.

Lemma Calm_bind {A B} (m : M A) (f : A -> M B) :
  Calm m -> (forall a, Calm (f a)) -> Calm (bind m f).
Proof.
  intros Hm Hf st. unfold bind.
  destruct (Hm st) as (d & H1 & H2 & H3 & H4).
  destruct (m st) as [[a|v|] st1]; cbn [snd] in *.
  - destruct (Hf a st1) as (d' & G1 & G2 & G3 & G4).
    exists (d' ++ d). rewrite G1, G3, G4, H1, H3, H4, app_assoc.
    repeat split. apply Forall_app; auto.
  - exists d. auto.
  - exists d. auto.
Qed.

Lemma Calm_forEach {A} (xs : list A) (f : A -> M unit) :
  (forall x, Calm (f x)) -> Calm (forEach xs f).
Proof.
  intros Hf. induction xs as [|x xs IH]; [apply Calm_ret|].
  cbn [forEach]. apply Calm_bind; auto.
Qed.

Lemma Calm_mkdirFor (url : string) : Calm (mkdirFor url).
Proof.
  intros st. unfold mkdirFor, bind, existsSync.
  destruct (Fs.exists_ (files st) ("./output/" +:+ sanatizeURL url)); cbn [negb when].
  - exists []. cbn. auto.
  - unfold mkdirSync. cbn [files emit].
    destruct (Fs.mkdir (files st) ("./output/" +:+ sanatizeURL url));
      exists [EMkdirSync ("./output/" +:+ sanatizeURL url)]; cbn; auto.
Qed.

Lemma Forall_calm_mkdirOnly m : mkdirOnly m -> Forall (fun e => calm e = true) m.
Proof. intros [-> | ->]; repeat constructor. Qed.

(** The index builder: entered, then a listing and a write that may fail. *)
Lemma makeAuditsIndex_shape (st : State) :
  exists x, history (task makeAuditsIndex st) = x ++ ECall "makeAuditsIndex" :: history st
            /\ Forall (fun e => calm e = true) x
            /\ audits (task makeAuditsIndex st) = audits st
            /\ crawling (task makeAuditsIndex st) = crawling st.
Proof.
  unfold task, makeAuditsIndex, readDirs, bind, effect, readdirSync. cbn [files emit].
  destruct (Fs.readdir (files st) "./output") as [e|entries].
  - exists [EExit 1; EUncaught e]. cbn. repeat split; repeat constructor.
  - unfold writeFileSync. cbn [files emit].
    destruct (Fs.write _ _ _) as [e|fs'].
    + exists [EExit 1; EUncaught e; EWriteFileSync "./output/index.html"].
      cbn. repeat split; repeat constructor.
    + exists [EWriteFileSync "./output/index.html"]. cbn. repeat split; repeat constructor.
Qed.

Lemma task_bind_ret {A} (m : M A) (k : M unit) (st : State) (a : A) (st1 : State) :
  m st = (Ret a, st1) -> task (m ;; k) st = task k st1.
Proof. intros E. unfold task, bind. now rewrite E. Qed.

(** [onFinished] with something crawled or discovered. *)
Lemma saveLastCrawl_phase crawled discovered now st :
  Early st -> crawling st = false ->
  Early (task (saveLastCrawl crawled discovered now) st)
  \/ Indexed (task (saveLastCrawl crawled discovered now) st).
Proof.
  intros (Hh & Ha & Hw) Hc.
  change (saveLastCrawl crawled discovered now)
    with (forEach discovered mkdirFor ;;
          save "lastCrawl.json" (VObject (crawlObject crawled discovered now)) None ;;
          auditAll discovered 0 ;;
          makeAuditsIndex).
  destruct (Calm_forEach discovered mkdirFor Calm_mkdirFor st) as (d1 & D1 & D2 & D3 & D4).
  destruct (forEach discovered mkdirFor st) as [[[]|e|] s1] eqn:E1; cbn [snd] in *.
  - (* the directories are there *)
    rewrite (task_bind_ret _ _ _ _ _ E1).
    rewrite (task_bind_ret _ _ s1 tt _ (save_object "lastCrawl.json" _ s1 ltac:(discriminate))).
    destruct (ensureOutput_history s1) as (m & M & Em).
    destruct (ensureOutput_frame s1) as (F1 & _ & F3 & _).
    set (s2 := queued "lastCrawl.json" _ (ensureOutput s1)).
    assert (H2 : history s2 = (EWriteFile "./output/lastCrawl.json" :: m ++ d1) ++ history st).
    { unfold s2, queued. cbn [history emit setWrites]. rewrite Em, D1.
      cbn [app]. now rewrite <- app_assoc. }
    assert (A2 : audits s2 = []) by (unfold s2, queued; cbn; congruence).
    assert (C2 : crawling s2 = false) by (unfold s2, queued; cbn; congruence).
    assert (Hold : Forall (fun e => calm e = true) (history s2)).
    { rewrite H2. apply Forall_app. split; [|exact Hh].
      constructor; [reflexivity|]. apply Forall_app. split; [|exact D2].
      now apply Forall_calm_mkdirOnly. }
    clearbody s2. right.
    destruct (discovered !! 0%nat) as [u|] eqn:Eu.
    + rewrite (task_bind_ret _ _ _ _ _ (auditAll_next _ _ _ _ Eu)).
      destruct (makeAuditsIndex_shape
                  (setAudits (audits s2 ++ [mkAudit discovered 0 u false])
                     (emit (ELaunch u) (emit (ECall "auditAll") s2))))
        as (x & X1 & X2 & X3 & X4).
      split; [rewrite X4; exact C2|].
      exists x, (ELaunch u), (history s2). rewrite X1. cbn [history emit setAudits].
      split; [reflexivity|]. split; [|auto].
      eapply Forall_impl; [exact X2|]. intros e He. destruct e; try reflexivity. discriminate.
    + rewrite (task_bind_ret _ _ _ _ _ (auditAll_end _ _ _ Eu)).
      destruct (makeAuditsIndex_shape
                  (emit (EConsole Info "Auditing complete.") (emit (ECall "auditAll") s2)))
        as (x & X1 & X2 & X3 & X4).
      split; [rewrite X4; exact C2|].
      exists x, (EConsole Info "Auditing complete."), (history s2).
      rewrite X1. cbn [history emit].
      split; [reflexivity|]. split; [|auto].
      eapply Forall_impl; [exact X2|]. intros e He. destruct e; try reflexivity. discriminate.
  - (* a directory could not be created: the exception ends the process *)
    left. unfold task, bind. rewrite E1. unfold Early.
    cbn [history audits crawling writes setExit emit].
    split; [|split; [congruence|]].
    + constructor; [reflexivity|]. constructor; [reflexivity|].
      rewrite D1. apply Forall_app. auto.
    + intros H. congruence.
  - left. unfold task, bind. rewrite E1. unfold Early.
    split; [|split; [congruence|]].
    + rewrite D1. apply Forall_app. auto.
    + intros H. congruence.
Qed.

Lemma boot_cases argv fs :
  (exists msg, boot argv fs
     = setExit 1 (emit (EExit 1) (emit (EConsole Error msg) (initial fs))))
  \/ (exists msg url depth threads,
        boot argv fs
        = setCrawling true
            (emit (ECrawl url depth threads)
               (setFiles (Fs.rimrafOutput fs)
                  (emit (ERimraf "./output/*")
                     (emit (EConsole Info "Clearing output...")
                        (emit (EConsole Info msg) (initial fs))))))).
Proof.
  unfold boot, task, main.
  destruct (negb (truthy (Cli.argvAt argv 2))).
  { left. eexists. reflexivity. }
  destruct (negb (strMatch (Cli.argvAt argv 2) Cli.urlRe)).
  { left. eexists. reflexivity. }
  right. do 4 eexists. reflexivity.
Qed.

Lemma boot_early argv fs : Early (boot argv fs).
Proof.
  destruct (boot_cases argv fs) as [(msg & ->)|(msg & url & depth & threads & ->)];
    (split; [repeat constructor|split; [reflexivity|reflexivity]]).
Qed.

Lemma job_auditDone_crawling urls i u json html st :
  crawling (job (auditDone urls i u json html) st) = crawling st.
Proof.
  unfold job. destruct (String.eqb_spec html "") as [-> | Hne].
  - rewrite auditDone_empty_report. unfold queued. cbn [crawling emit setWrites].
    apply ensureOutput_frame.
  - rewrite (auditDone_ok _ _ _ _ _ _ Hne). cbn [snd]. apply settled_frame.
Qed.

(** Once the crawl is over, no turn enters [makeAuditsIndex]. *)
Lemma react_after_crawl a st st' :
  crawling st = false -> react a st = Some st' ->
  exists d, history st' = d ++ history st
            /\ Forall (fun e => isCallOf "makeAuditsIndex" e = false) d
            /\ crawling st' = false.
Proof.
  intros C Hr. unfold react in Hr. destruct (exitCode st); [discriminate|].
  destruct a as [| |crawled discovered now|k ok|k report|k ioError].
  1-3: rewrite C in Hr; discriminate.
  - destruct (audits st !! k) as [au|]; [|discriminate].
    destruct (aLaunched au); [discriminate|].
    destruct ok; injection Hr as <-.
    + exists [EConsole Info ("Auditing " +:+ aUrl au)]. cbn. auto.
    + exists [EUnhandledRejection; ESettled (aUrl au) false]. cbn. auto.
  - destruct (audits st !! k) as [au|]; [|discriminate].
    destruct (aLaunched au); [|discriminate].
    destruct report as [[json html]|]; injection Hr as <-.
    + destruct (job_grows (fun e => isCallOf "makeAuditsIndex" e = false) (fun _ => True)
                  (auditDone (aUrls au) (aIndex au) (aUrl au) json html)
                  (emit (ESettled (aUrl au) true) (setAudits (delete k (audits st)) st)))
        as (d & ws & D1 & _ & D3 & _); [apply Grows_auditDone; auto|reflexivity|].
      exists (d ++ [ESettled (aUrl au) true]). rewrite D1, job_auditDone_crawling.
      cbn. rewrite <- app_assoc. repeat split; [|exact C].
      apply Forall_app. auto.
    + exists [EUnhandledRejection; ESettled (aUrl au) false]. cbn. auto.
  - destruct (writes st !! k) as [w|]; [|discriminate].
    cbn [files setWrites] in Hr.
    assert (Hcalm : forall x, Forall (fun e => calm e = true) x ->
                              Forall (fun e => isCallOf "makeAuditsIndex" e = false) x).
    { intros x Hx. eapply Forall_impl; [exact Hx|].
      intros e He. destruct e; try reflexivity. discriminate. }
    destruct (if ioError then inl "EIO" else Fs.write (files st) (wPath w) (wData w)) as [e|fs'];
      injection Hr as <-.
    + destruct (task_runCallback (wCallback w) (Some e)
                  (emit (EWriteFileDone (wPath w) false) (setWrites (delete k (writes st)) st)))
        as (x & X1 & X2 & X3 & X4).
      exists (x ++ [EWriteFileDone (wPath w) false]). rewrite X1, X4. cbn.
      rewrite <- app_assoc. repeat split; [|exact C]. apply Forall_app. auto.
    + destruct (task_runCallback (wCallback w) None
                  (emit (EWriteFileDone (wPath w) true)
                     (setFiles fs' (setWrites (delete k (writes st)) st))))
        as (x & X1 & X2 & X3 & X4).
      exists (x ++ [EWriteFileDone (wPath w) true]). rewrite X1, X4. cbn.
      rewrite <- app_assoc. repeat split; [|exact C]. apply Forall_app. auto.
Qed.

Lemma react_phase a st st' :
  react a st = Some st' -> Early st \/ Indexed st -> Early st' \/ Indexed st'.
Proof.
  intros Hr [He|Hi].
  - destruct He as (Hh & Ha & Hw). unfold react in Hr.
    destruct (exitCode st); [discriminate|].
    destruct a as [| |crawled discovered now|k ok|k report|k ioError].
    + destruct (crawling st) eqn:C; [|discriminate]. injection Hr as <-. left.
      split; [constructor; [reflexivity|exact Hh]|]. split; [exact Ha|].
      intros _. apply Hw. reflexivity.
    + destruct (crawling st) eqn:C; [|discriminate]. injection Hr as <-. left.
      split; [repeat (constructor; [reflexivity|]); exact Hh|]. split; [exact Ha|].
      intros _. apply Hw. reflexivity.
    + destruct (crawling st) eqn:C; [|discriminate]. injection Hr as <-.
      unfold crawlerFinished.
      destruct ((length crawled =? 0)%nat && (length discovered =? 0)%nat).
      * left. split; [constructor; [reflexivity|exact Hh]|]. split; [exact Ha|discriminate].
      * apply saveLastCrawl_phase; [|reflexivity].
        split; [exact Hh|]. split; [exact Ha|discriminate].
    + rewrite Ha in Hr. discriminate.
    + rewrite Ha in Hr. discriminate.
    + destruct (writes st !! k) as [w|] eqn:Ew; [|discriminate].
      assert (C : crawling st = false).
      { destruct (crawling st); [|reflexivity]. rewrite Hw in Ew by reflexivity. discriminate. }
      cbn [files setWrites] in Hr. left.
      destruct (if ioError then inl "EIO" else Fs.write (files st) (wPath w) (wData w)) as [e|fs'];
        injection Hr as <-.
      * destruct (task_runCallback (wCallback w) (Some e)
                    (emit (EWriteFileDone (wPath w) false) (setWrites (delete k (writes st)) st)))
          as (x & X1 & X2 & X3 & X4).
        split; [rewrite X1; apply Forall_app; split; [exact X2|constructor; [reflexivity|exact Hh]]|].
        split; [rewrite X3; exact Ha|]. rewrite X4. cbn. congruence.
      * destruct (task_runCallback (wCallback w) None
                    (emit (EWriteFileDone (wPath w) true)
                       (setFiles fs' (setWrites (delete k (writes st)) st))))
          as (x & X1 & X2 & X3 & X4).
        split; [rewrite X1; apply Forall_app; split; [exact X2|constructor; [reflexivity|exact Hh]]|].
        split; [rewrite X3; exact Ha|]. rewrite X4. cbn. congruence.
  - destruct Hi as (C & newer & x & older & E & N & O & X).
    destruct (react_after_crawl _ _ _ C Hr) as (d & D1 & D2 & D3).
    right. split; [exact D3|].
    exists (d ++ newer), x, older. rewrite D1, E, <- app_assoc.
    split; [reflexivity|]. split; [apply Forall_app; auto|auto].
Qed.

Lemma run_phase acts st st' :
  run acts st = Some st' -> Early st \/ Indexed st -> Early st' \/ Indexed st'.
Proof.
  revert st. induction acts as [|a acts IH]; intros st Hr H; cbn [run] in Hr.
  - now injection Hr as <-.
  - destruct (react a st) as [st1|] eqn:E; [|discriminate].
    eapply IH; [exact Hr|]. eapply react_phase; eassumption.
Qed.

Lemma count_app p (l1 l2 : list Event) : count p (l1 ++ l2) = (count p l1 + count p l2)%nat.
Proof. unfold count. now rewrite List.filter_app, length_app. Qed.

Lemma count_none p (l : list Event) : Forall (fun e => p e = false) l -> count p l = 0%nat.
Proof.
  unfold count. induction 1 as [|e l He _ IH]; [reflexivity|].
  cbn [List.filter]. now rewrite He.
Qed.

Lemma calm_not_call fn e : calm e = true -> isCallOf fn e = false.
Proof. destruct e; try reflexivity. discriminate. Qed.

Lemma Early_no_call fn st : Early st -> count (isCallOf fn) (history st) = 0%nat.
Proof.
  intros (Hh & _). apply count_none. eapply Forall_impl; [exact Hh|].
  intros e. apply calm_not_call.
Qed.

(** Nothing can happen in a process that has exited, or that has neither a
    crawl nor an audit nor a write pending. *)
Lemma react_dead a st c : exitCode st = Some c -> react a st = None.
Proof. intros H. unfold react. now rewrite H. Qed.

Lemma react_idle a st :
  crawling st = false -> audits st = [] -> writes st = [] -> react a st = None.
Proof.
  intros C A W. unfold react. destruct (exitCode st); [reflexivity|].
  destruct a; rewrite ?C, ?A, ?W; reflexivity.
Qed.

(** ** After a failed audit *)

Lemma run_app acts1 acts2 st st' :
  run (acts1 ++ acts2) st = Some st' <->
  exists st1, run acts1 st = Some st1 /\ run acts2 st1 = Some st'.
Proof.
  revert st. induction acts1 as [|a acts1 IH]; intros st; cbn [app run].
  - split; [eauto|]. now intros (st1 & [= <-] & H).
  - destruct (react a st) as [s|]; [apply IH|].
    split; [discriminate|]. now intros (st1 & [=] & _).
Qed.

Lemma react_stalled urls h0 a st st' :
  react a st = Some st' -> ChainInv urls h0 st Stalled -> ChainInv urls h0 st' Stalled.
Proof.
  intros Hr Hi. destruct a as [| |crawled discovered now|k ok|k report|k ioError].
  1-3: destruct Hi as (d & _ & C & _); unfold react in Hr;
       destruct (exitCode st); [discriminate|]; rewrite C in Hr; discriminate.
  - destruct (react_launched_chain _ _ _ _ _ _ _ Hr Hi) as (i & [=] & _).
  - destruct (react_settled_chain _ _ _ _ _ _ _ Hr Hi) as (i & [=] & _).
  - eapply react_write_chain; eassumption.
Qed.

Lemma run_stalled urls h0 acts st st' :
  run acts st = Some st' -> ChainInv urls h0 st Stalled -> ChainInv urls h0 st' Stalled.
Proof.
  revert st. induction acts as [|a acts IH]; intros st Hr Hi; cbn [run] in Hr.
  - now injection Hr as <-.
  - destruct (react a st) as [st1|] eqn:E; [|discriminate].
    eapply IH; [exact Hr|]. eapply react_stalled; eassumption.
Qed.

(** X19. Once an audit has failed the queue stands still for good: no
    further audit is started, nothing is in flight, and completion is never
    signalled, whatever happens later. *)
Lemma queue_stalls_after_failure (urls : list string) (st0 : State)
      (before : list Action) (a : Action) (after : list Action) (st : State) :
  crawling st0 = false -> audits st0 = [] ->
  failedAudit a = true ->
  run (before ++ a :: after) (snd (auditAll urls 0 st0)) = Some st ->
  exists d k,
    history st = d ++ history st0
    /\ audits st = []
    /\ rev (launched d) = take k urls
    /\ completions d = 0%nat.
Proof.
  intros C A Hf Hr.
  apply run_app in Hr as (s1 & R1 & R2). cbn [run] in R2.
  destruct (react a s1) as [s2|] eqn:Ea; [|discriminate].
  destruct (chain_start urls st0 C A) as (ph0 & _ & H0).
  destruct (run_chain _ _ _ _ _ _ R1 H0) as (ph1 & H1 & _).
  assert (H2 : ChainInv urls (history st0) s2 Stalled).
  { destruct a as [| |crawled discovered now|k ok|k report|k ioError]; try discriminate Hf.
    - destruct (react_launched_chain _ _ _ _ _ _ _ Ea H1) as (i & _ & _ & H).
      cbn in Hf. destruct ok; [discriminate|exact H].
    - destruct (react_settled_chain _ _ _ _ _ _ _ Ea H1) as (i & _ & _ & H).
      destruct report as [[json html]|]; [|exact H].
      cbn in Hf, H. now rewrite Hf in H. }
  destruct (run_stalled _ _ _ _ _ R2 H2) as (d & E & _ & _ & _ & Ha & (k & Hl) & Hc).
  exists d, k. auto.
Qed.

(** ** The command line *)

(** A search for a one-character class finds a character of the class. *)
Lemma searchFrom_class (p : ascii -> bool) (prev : option ascii) (s : string) :
  Regex.searchFrom (Regex.Class p) prev s = existsb p (list_ascii_of_string s).
Proof.
  revert prev. induction s as [|c s IH]; intros prev; [reflexivity|].
  cbn [Regex.searchFrom Regex.matchRe list_ascii_of_string existsb].
  rewrite IH. now destruct (p c).
Qed.

(** X6. The test of the thread count (line 29) lets through every text
    with one of the digits 1 to 5 in it, whatever else it holds; any other
    argument, and a missing one, gives the default 5. *)
Lemma threadsOf_spec (argv : list string) :
  Cli.threadsOf argv
  = match argv !! 4%nat with
    | Some a =>
        if existsb (Regex.between "1" "5") (list_ascii_of_string a)
        then VString a else VNumber 5
    | None => VNumber 5
    end.
Proof.
  unfold Cli.threadsOf, Cli.argvAt. destruct (argv !! 4%nat) as [a|]; [|reflexivity].
  cbn [strMatch truthy]. unfold Regex.matches, Cli.threadsRe. rewrite searchFrom_class.
  destruct a as [|c a]; [reflexivity|]. reflexivity.
Qed.

(** Absent arguments give the defaults, and every value in range is taken
    (as the text it was given as). *)
Lemma cli_in_range (url : string) :
  Cli.depthOf ["node"; "index.js"; url] = VNumber 1
  /\ Cli.threadsOf ["node"; "index.js"; url] = VNumber 5
  /\ Forall (fun n => Cli.depthOf ["node"; "index.js"; url; Js.showZ n] = VString (Js.showZ n))
            [1; 2; 3; 4; 5; 6; 7; 8; 9; 10]%Z
  /\ Forall (fun n => Cli.threadsOf ["node"; "index.js"; url; "1"; Js.showZ n]
                      = VString (Js.showZ n))
            [1; 2; 3; 4; 5]%Z.
Proof. repeat split; repeat constructor. Qed.

(** ** The index builder *)






(** ** The claims *)


(** C3 (amended). The audit of [urls[i+1]] starts in the very turn in which
    the audit of [urls[i]] has settled, right after the writes of its
    [auditData.json] and its [index.html] have been issued, in this order,
    and [auditAll] has been entered again; nothing else happens in between
    but, at most, the creation of [./output]: the start waits for the issue
    of the two writes, not for their completion.  ([history] is newest
    first: [older] is what happened before the start of the audit of [u],
    since the call [auditAll(urls, 0)].) *)
Theorem next_audit_after_writes_issued (urls : list string) (st0 : State)
        (acts : list Action) (st : State)
        (newer : list Event) (u : string) (older : list Event) (i : nat) :
  crawling st0 = false -> audits st0 = [] ->
  run acts (snd (auditAll urls 0 st0)) = Some st ->
  history st = newer ++ ELaunch u :: older ++ history st0 ->
  length (launched older) = S i ->
  exists ui m1 m2 rest,
    urls !! i = Some ui /\ urls !! S i = Some u
    /\ mkdirOnly m1 /\ mkdirOnly m2
    /\ older = ECall "auditAll" :: EWriteFile (reportPath ui) :: m2
                 ++ EWriteFile (dataPath ui) :: m1
                 ++ ESettled ui true :: rest
    /\ count isWriteDone (ECall "auditAll" :: EWriteFile (reportPath ui) :: m2
                            ++ EWriteFile (dataPath ui) :: m1) = 0%nat.
Proof.
  intros C A Hr Hh Hl.
  destruct (chain_start urls st0 C A) as (ph0 & _ & H0).
  destruct (run_chain _ _ _ _ _ _ Hr H0) as (ph & Hi & _).
  destruct (ChainInv_counts _ _ _ _ Hi) as (d & E & HE & _).
  assert (Hd : d = newer ++ ELaunch u :: older).
  { apply (app_inv_tail (history st0)). rewrite <- E, Hh, <- app_assoc. reflexivity. }
  pose proof (EachLaunch_split _ _ _ _ _ HE Hd) as Hb.
  unfold Before in Hb. rewrite Hl in Hb.
  destruct Hb as (ui & m1 & m2 & rest & B1 & B2 & B3 & B4 & B5).
  exists ui, m1, m2, rest. repeat split; try assumption.
  destruct B3 as [-> | ->], B4 as [-> | ->]; reflexivity.
Qed.

(** C2 (amended). In every run [makeAuditsIndex] is entered at most once.
    In a run that reaches the audit phase it is entered exactly once: in
    the turn of [onFinished], right after the first call of [auditAll] has
    returned, that is right after the audit of the first discovered URL has
    been started (or, with nothing discovered, right after the queue has
    signalled its end).  It does not wait for the audits: before it, no
    audit has settled. *)
Theorem index_built_right_after_queue_starts (argv : list string)
        (fs : gmap (list string) Node) (acts : list Action) (st : State) :
  run acts (boot argv fs) = Some st ->
  count (isCallOf "makeAuditsIndex") (history st) <= 1
  /\ (count (isCallOf "auditAll") (history st) <> 0%nat ->
      exists newer x older,
        history st = newer ++ ECall "makeAuditsIndex" :: x :: ECall "auditAll" :: older
        /\ count (isCallOf "makeAuditsIndex") newer = 0%nat
        /\ count (isCallOf "makeAuditsIndex") (history st) = 1%nat
        /\ Forall (fun e => calm e = true) older
        /\ (isLaunch x = true \/ x = EConsole Info "Auditing complete.")).
Proof.
  intros Hr.
  destruct (run_phase _ _ _ Hr (or_introl (boot_early argv fs))) as [He|Hi].
  - rewrite !(Early_no_call _ _ He). split; [lia|congruence].
  - destruct Hi as (C & newer & x & older & E & N & O & X).
    assert (Hn : count (isCallOf "makeAuditsIndex") newer = 0%nat) by now apply count_none.
    assert (Hc : count (isCallOf "makeAuditsIndex") (history st) = 1%nat).
    { rewrite E, count_app, Hn.
      change (ECall "makeAuditsIndex" :: x :: ECall "auditAll" :: older)
        with ([ECall "makeAuditsIndex"] ++ [x] ++ [ECall "auditAll"] ++ older).
      rewrite !count_app.
      assert (count (isCallOf "makeAuditsIndex") older = 0%nat) as ->.
      { apply count_none. eapply Forall_impl; [exact O|]. intros e. apply calm_not_call. }
      assert (count (isCallOf "makeAuditsIndex") [x] = 0%nat) as ->.
      { destruct X as [X | ->]; [|reflexivity]. destruct x; try discriminate. reflexivity. }
      reflexivity. }
    split; [lia|]. intros _. exists newer, x, older. auto.
Qed.

(** C5 (amended). A fetch failure during the crawl is not recovered: the
    [onError] callback prints [Crawling error, exiting.] and ends the
    process with status 1.  Nothing has been written, no callback runs any
    more: the traversal does not continue and the crawl result is never
    delivered. *)
Theorem fetch_failure_exits (argv : list string) (fs : gmap (list string) Node)
        (acts : list Action) (st : State) :
  run acts (boot argv fs) = Some st ->
  crawling st = true -> exitCode st = None ->
  exists st',
    react CrawlError st = Some st'
    /\ history st' = EExit 1 :: EConsole Error "Crawling error, exiting." :: history st
    /\ exitCode st' = Some 1%Z
    /\ exitStatus st' = Some 1%Z
    /\ files st' = files st
    /\ writes st' = [] /\ audits st' = []
    /\ forall a, react a st' = None.
Proof.
  intros Hr C He.
  destruct (run_phase _ _ _ Hr (or_introl (boot_early argv fs))) as [H|H].
  2: { destruct H as (C' & _). congruence. }
  destruct H as (_ & Ha & Hw).
  eexists. split; [unfold react; rewrite He, C; reflexivity|].
  split; [reflexivity|]. split; [reflexivity|]. split; [reflexivity|].
  split; [reflexivity|]. split; [exact (Hw C)|]. split; [exact Ha|].
  intros a. now apply (react_dead _ _ 1%Z).
Qed.

(** C8. When the crawl finishes with nothing crawled and nothing
    discovered, the message is printed on the error stream and nothing
    else happens: no exit status is set, the file tree is untouched,
    neither [auditAll] nor [makeAuditsIndex] is entered and no audit is
    started, nothing is pending, so that the process ends with status 0. *)
Theorem empty_crawl_reported (argv : list string) (fs : gmap (list string) Node)
        (acts : list Action) (st : State) (now : string) :
  run acts (boot argv fs) = Some st ->
  crawling st = true -> exitCode st = None ->
  exists st',
    react (CrawlFinished [] [] now) st = Some st'
    /\ history st'
       = EConsole Error (Js.nl +:+ "Please check your URL exists and has links in it.")
           :: history st
    /\ exitCode st' = None
    /\ exitStatus st' = Some 0%Z
    /\ files st' = files st
    /\ Forall (fun e => calm e = true) (history st')
    /\ audits st' = [] /\ writes st' = []
    /\ forall a, react a st' = None.
Proof.
  intros Hr C He.
  destruct (run_phase _ _ _ Hr (or_introl (boot_early argv fs))) as [H|H].
  2: { destruct H as (C' & _). congruence. }
  destruct H as (Hh & Ha & Hw).
  eexists. split; [unfold react; rewrite He, C; reflexivity|].
  split; [reflexivity|]. split; [exact He|].
  split; [unfold exitStatus; cbn; rewrite He, Ha, (Hw C); reflexivity|].
  split; [reflexivity|]. split; [constructor; [reflexivity|exact Hh]|].
  split; [exact Ha|]. split; [exact (Hw C)|].
  intros a. apply react_idle; cbn; auto.
Qed.

(** C9. [save] called with a falsy [data] (the empty string included) or
    with an empty [filename] throws the string [No data or no filename]
    and leaves the process as it was: no directory is created, no write is
    queued, no file is written. *)
Theorem save_rejects_falsy (filename : string) (data : JsValue)
        (callback : option nat) (st : State) :
  falsy data \/ falsy (VString filename) ->
  save filename data callback st = (Throw "No data or no filename", st).
Proof.
  intros [H|H]; apply save_throws; [now left|right].
  unfold falsy in H. cbn in H. destruct filename; [reflexivity|discriminate].
Qed.

(** C4 (amended). On every input the sanitizer leaves no slash, no
    question mark and no colon; and on every input that does not end in two
    characters among [/ ? : .] its result does not end with a dot and
    sanitizing it again changes nothing. *)
Theorem sanatizeURL_idempotent (x : string) :
  Js.contains "/" (sanatizeURL x) = false
  /\ Js.contains "?" (sanatizeURL x) = false
  /\ Js.contains ":" (sanatizeURL x) = false
  /\ (endsInTwoSeps x = false ->
      sanatizeURL (sanatizeURL x) = sanatizeURL x
      /\ endsWithDot (sanatizeURL x) = false).
Proof.
  destruct (sanatizeURL_no_separator x) as (H1 & H2 & H3).
  split; [exact H1|]. split; [exact H2|]. split; [exact H3|].
  intros H. split; [now apply sanatizeURL_fixed_iff|].
  now rewrite sanatizeURL_strip, endsWithDot_strip.
Qed.

(** ** Further properties *)

Lemma lastChar_snoc (s : string) (c : ascii) :
  Js.lastChar (s +:+ String c "") = Some c.
Proof.
  induction s as [|a s IH]; [reflexivity|].
  change (String a s +:+ String c "") with (String a (s +:+ String c "")).
  destruct s as [|b s]; [reflexivity|]. exact IH.
Qed.

Lemma butLast_snoc (s : string) (c : ascii) :
  Js.butLast (s +:+ String c "") = s.
Proof.
  induction s as [|a s IH]; [reflexivity|].
  change (String a s +:+ String c "") with (String a (s +:+ String c "")).
  destruct s as [|b s]; [reflexivity|].
  change (String b s +:+ String c "") with (String b (s +:+ String c "")) in *.
  change (Js.butLast (String a (String b (s +:+ String c ""))))
    with (String a (Js.butLast (String b (s +:+ String c "")))).
  now rewrite IH.
Qed.

Lemma length_mapStr (f : ascii -> ascii) (s : string) :
  String.length (mapStr f s) = String.length s.
Proof. induction s as [|a s IH]; [reflexivity|]. cbn [mapStr String.length]. now rewrite IH. Qed.

Lemma sanatizeURL_mapped (url : string) :
  sanatizeURL url = mapStr dotted (if endsInSep url then Js.butLast url else url).
Proof.
  rewrite sanatizeURL_strip. unfold strip, endsWithDot, endsInSep.
  rewrite lastChar_mapStr. destruct (Js.lastChar url) as [c|]; [|reflexivity].
  cbn [option_map]. rewrite dotted_dot.
  destruct (isSep c); [now rewrite mapStr_butLast|reflexivity].
Qed.

(** X1. The sanitizer in closed form: every [/], [?] and [:] becomes a
    dot, every other character stays where it is, and the last character
    is dropped exactly when the URL ends in one of [/ ? : .].  So the name
    is as long as the URL, or one character shorter. *)
Theorem sanatizeURL_closed_form (url : string) :
  sanatizeURL url = mapStr dotted (if endsInSep url then Js.butLast url else url)
  /\ String.length (sanatizeURL url)
     = (String.length url - (if endsInSep url then 1 else 0))%nat.
Proof.
  pose proof (sanatizeURL_mapped url) as E.
  split; [exact E|]. rewrite E, length_mapStr.
  destruct (endsInSep url); [rewrite length_butLast|]; lia.
Qed.

(** X2. A trailing [/], [?], [:] or [.] is ignored: a URL that does not
    end in one of these characters and the same URL with one of them added
    get the same directory name (and their reports the same files). *)
Theorem sanatizeURL_trailing_separator (url : string) (c : ascii) :
  isSep c = true -> endsInSep url = false ->
  sanatizeURL (url +:+ String c "") = sanatizeURL url.
Proof.
  intros Hc Hs.
  rewrite (sanatizeURL_mapped (url +:+ String c "")), (sanatizeURL_mapped url).
  unfold endsInSep at 1. rewrite lastChar_snoc, Hc, butLast_snoc, Hs. reflexivity.
Qed.

Lemma splitOn_plain (c : ascii) (s : string) :
  Js.contains c s = false -> Js.splitOn c s = [s].
Proof.
  induction s as [|a s IH]; [reflexivity|].
  cbn [Js.contains Js.splitOn]. intros H. apply orb_false_iff in H as [H1 H2].
  rewrite H1, (IH H2). reflexivity.
Qed.

Lemma splitOn_app (c : ascii) (a b : string) :
  Js.contains c a = false ->
  Js.splitOn c (a +:+ String c b) = a :: Js.splitOn c b.
Proof.
  induction a as [|x a IH]; intros H.
  - change ("" +:+ String c b) with (String c b). cbn [Js.splitOn].
    now rewrite Ascii.eqb_refl.
  - cbn [Js.contains] in H. apply orb_false_iff in H as [H1 H2].
    change (String x a +:+ String c b) with (String x (a +:+ String c b)).
    cbn [Js.splitOn]. rewrite H1, (IH H2). reflexivity.
Qed.

Lemma components_dir (name : string) :
  Js.contains "/" name = false ->
  Fs.components ("./output/" +:+ name)
  = "." :: "output" :: (if String.eqb name "" then [] else [name]).
Proof.
  intros H. unfold Fs.components.
  change (Js.splitOn "/" ("./output/" +:+ name))
    with ("." :: "output" :: Js.splitOn "/" name).
  rewrite (splitOn_plain _ _ H). cbn [List.filter String.eqb Ascii.eqb Bool.eqb negb].
  destruct (String.eqb name ""); reflexivity.
Qed.

Lemma components_file (name file : string) :
  Js.contains "/" name = false -> Js.contains "/" file = false ->
  Fs.components ("./output/" +:+ name +:+ String "/" file)
  = "." :: "output" :: (if String.eqb name "" then [] else [name])
      ++ (if String.eqb file "" then [] else [file]).
Proof.
  intros H Hf. unfold Fs.components.
  change (Js.splitOn "/" ("./output/" +:+ name +:+ String "/" file))
    with ("." :: "output" :: Js.splitOn "/" (name +:+ String "/" file)).
  rewrite (splitOn_app _ _ _ H), (splitOn_plain _ _ Hf).
  cbn [List.filter String.eqb Ascii.eqb Bool.eqb negb].
  destruct (String.eqb name ""), (String.eqb file ""); reflexivity.
Qed.

Lemma walk_below (fs : gmap (list string) Node) (name : string) :
  Fs.isDir fs ["output"] = true ->
  Fs.walk fs ["output"] (if String.eqb name "" then [] else [name]) = Some (below name).
Proof.
  intros Ho. unfold below.
  destruct (String.eqb name "") eqn:E0; [reflexivity|].
  cbn [Fs.walk orb]. rewrite Ho.
  destruct (String.eqb name "."); [reflexivity|].
  destruct (String.eqb name ".."); reflexivity.
Qed.

Lemma walk_app (fs : gmap (list string) Node) (cs1 cs2 : list string) :
  forall cur mid,
    Fs.walk fs cur cs1 = Some mid ->
    Fs.walk fs cur (cs1 ++ cs2) = Fs.walk fs mid cs2.
Proof.
  induction cs1 as [|c cs1 IH]; intros cur mid H; cbn [Fs.walk app] in *.
  - now injection H as ->.
  - destruct (Fs.isDir fs cur); [|discriminate]. now apply IH.
Qed.


Lemma resolve_file (fs : gmap (list string) Node) (name file : string) :
  Fs.isDir fs ["output"] = true -> Fs.isDir fs (below name) = true ->
  Js.contains "/" name = false -> Js.contains "/" file = false ->
  properName file = true ->
  Fs.resolve fs ("./output/" +:+ name +:+ String "/" file) = Some (below name ++ [file]).
Proof.
  intros Ho Hd Hn Hf Hp. unfold Fs.resolve. rewrite (components_file _ _ Hn Hf).
  change (Fs.walk fs [] ("." :: "output" :: ?l)) with (Fs.walk fs ["output"] l).
  rewrite (walk_app _ _ _ _ _ (walk_below fs name Ho)).
  unfold properName in Hp. apply andb_true_iff in Hp as [Hp H3].
  apply andb_true_iff in Hp as [H1 H2].
  apply negb_true_iff in H1, H2, H3. rewrite H1. cbn [Fs.walk]. now rewrite Hd, H2, H3.
Qed.

Lemma ensureOutput_present (st : State) :
  Fs.isDir (files st) ["output"] = true -> ensureOutput st = st.
Proof.
  intros H. unfold ensureOutput. rewrite exists_output.
  unfold Fs.isDir, Fs.nodeAt in H.
  destruct (files st !! ["output"]) as [n|] eqn:E; [|discriminate].
  rewrite bool_decide_eq_true_2 by eauto. reflexivity.
Qed.

Lemma auditAll_frame (urls : list string) (i : nat) (st : State) :
  files (snd (auditAll urls i st)) = files st
  /\ writes (snd (auditAll urls i st)) = writes st
  /\ exitCode (snd (auditAll urls i st)) = exitCode st.
Proof.
  destruct (urls !! i) as [u|] eqn:E.
  - rewrite (auditAll_next _ _ _ _ E). auto.
  - rewrite (auditAll_end _ _ _ E). auto.
Qed.

Lemma nodeAt_snoc (fs : gmap (list string) Node) (d : list string) (f : string) :
  Fs.nodeAt fs (d ++ [f]) = fs !! (d ++ [f]).
Proof. destruct d; reflexivity. Qed.

Lemma isDir_insert_file (fs : gmap (list string) Node) (q p : list string) (text : string) :
  q <> p -> Fs.isDir (<[q := File text]> fs) p = Fs.isDir fs p.
Proof.
  intros H. unfold Fs.isDir, Fs.nodeAt. destruct p; [reflexivity|].
  now rewrite lookup_insert_ne.
Qed.

Lemma below_cases (name : string) :
  below name = ["output"] \/ below name = [] \/ below name = ["output"; name].
Proof.
  unfold below. destruct (String.eqb name "" || String.eqb name "."); [auto|].
  destruct (String.eqb name ".."); auto.
Qed.

Lemma write_below (fs : gmap (list string) Node) (name file text : string) :
  Fs.isDir fs ["output"] = true -> Fs.isDir fs (below name) = true ->
  Js.contains "/" name = false -> Js.contains "/" file = false ->
  properName file = true ->
  fs !! (below name ++ [file]) <> Some Dir ->
  Fs.write fs ("./output/" +:+ name +:+ String "/" file) text
  = inr (<[below name ++ [file] := File text]> fs).
Proof.
  intros Ho Hd Hn Hf Hp Hq. unfold Fs.write.
  rewrite (resolve_file _ _ _ Ho Hd Hn Hf Hp), nodeAt_snoc.
  destruct (fs !! (below name ++ [file])) as [[text'|]|]; congruence.
Qed.

Lemma delete_end {A} (l : list A) (a : A) : delete (length l) (l ++ [a]) = l.
Proof. rewrite delete_middle. apply app_nil_r. Qed.

Lemma delete_first_of_two {A} (l : list A) (a b : A) :
  delete (length l) (l ++ [a; b]) = l ++ [b].
Proof. apply delete_middle. Qed.

Lemma delete_second_of_two {A} (l : list A) (a b : A) :
  delete (S (length l)) (l ++ [a; b]) = l ++ [a].
Proof.
  change (l ++ [a; b]) with (l ++ [a] ++ [b]). rewrite app_assoc.
  replace (S (length l)) with (length (l ++ [a])) by (rewrite length_app; cbn; lia).
  rewrite delete_middle. apply app_nil_r.
Qed.

Lemma lookup_end {A} (l : list A) (a : A) : (l ++ [a]) !! length l = Some a.
Proof. induction l as [|x l IH]; [reflexivity|]. exact IH. Qed.

Lemma lookup_first_of_two {A} (l : list A) (a b : A) :
  (l ++ [a; b]) !! length l = Some a.
Proof. induction l as [|x l IH]; [reflexivity|]. exact IH. Qed.

Lemma lookup_second_of_two {A} (l : list A) (a b : A) :
  (l ++ [a; b]) !! S (length l) = Some b.
Proof. induction l as [|x l IH]; [reflexivity|]. exact IH. Qed.

(** The completion, without an error, of a write that [save] queued with
    its own callback. *)
Lemma write_completed (k : nat) (w : PendingWrite) (filename : string)
      (fs' : gmap (list string) Node) (st : State) :
  exitCode st = None ->
  writes st !! k = Some w ->
  wCallback w = SavedCallback filename ->
  Fs.write (files st) (wPath w) (wData w) = inr fs' ->
  react (WriteCompleted k false) st
  = Some (emit (EConsole Info ("Saved file " +:+ filename +:+ "!"))
            (emit (EWriteFileDone (wPath w) true)
               (setFiles fs' (setWrites (delete k (writes st)) st)))).
Proof.
  intros He Hw Hc Hf. unfold react. rewrite He, Hw. cbn [files setWrites].
  rewrite Hf, Hc. reflexivity.
Qed.

Lemma settled_state (urls : list string) (i k : nat) (u : string) (json : Json)
      (html : string) (st : State) :
  exitCode st = None ->
  audits st !! k = Some (mkAudit urls i u true) ->
  html <> "" ->
  Fs.isDir (files st) ["output"] = true ->
  exists s1,
    react (AuditSettled k (Some (json, html))) st = Some s1
    /\ files s1 = files st
    /\ exitCode s1 = None
    /\ writes s1 = writes st
         ++ [mkWrite (dataPath u) (stringify json)
               (SavedCallback (sanatizeURL u +:+ "/auditData.json"));
             mkWrite (reportPath u) html
               (SavedCallback (sanatizeURL u +:+ "/index.html"))].
Proof.
  intros He Ha Hh Ho. unfold react. rewrite He, Ha. cbn [aLaunched aUrls aIndex aUrl].
  eexists. split; [reflexivity|]. unfold job. rewrite (auditDone_ok _ _ _ _ _ _ Hh).
  cbn [snd]. destruct (auditAll_frame urls (i + 1)
    (reportsQueued u json html (emit (ESettled u true) (setAudits (delete k (audits st)) st))))
    as (F1 & F2 & F3).
  rewrite F1, F2, F3. unfold reportsQueued.
  rewrite (ensureOutput_present (emit _ _)) by exact Ho.
  rewrite (ensureOutput_present (queued _ _ _)) by exact Ho.
  unfold queued. cbn [files writes exitCode setWrites emit setAudits].
  rewrite <- app_assoc. auto.
Qed.

Lemma reports_written_below (urls : list string) (i k : nat) (u : string) (json : Json)
      (html : string) (dataFirst : bool) (st : State) :
  let d := below (sanatizeURL u) in
  let n := length (writes st) in
  exitCode st = None ->
  audits st !! k = Some (mkAudit urls i u true) ->
  html <> "" ->
  Fs.isDir (files st) ["output"] = true ->
  Fs.isDir (files st) d = true ->
  files st !! (d ++ ["auditData.json"]) <> Some Dir ->
  files st !! (d ++ ["index.html"]) <> Some Dir ->
  exists st',
    run (AuditSettled k (Some (json, html))
           :: (if dataFirst then [WriteCompleted n false; WriteCompleted n false]
               else [WriteCompleted (S n) false; WriteCompleted n false])) st = Some st'
    /\ files st' = <[d ++ ["index.html"] := File html]>
                     (<[d ++ ["auditData.json"] := File (stringify json)]> (files st))
    /\ writes st' = writes st
    /\ exitCode st' = None
    /\ In (EWriteFileDone (dataPath u) true) (history st')
    /\ In (EWriteFileDone (reportPath u) true) (history st')
    /\ In (EConsole Info ("Saved file " +:+ (sanatizeURL u +:+ "/auditData.json") +:+ "!"))
          (history st')
    /\ In (EConsole Info ("Saved file " +:+ (sanatizeURL u +:+ "/index.html") +:+ "!"))
          (history st').
Proof.
  intros d n He Ha Hh Ho Hd H1 H2. subst n.
  destruct (settled_state urls i k u json html st He Ha Hh Ho) as (s1 & R1 & F1 & E1 & W1).
  destruct (sanatizeURL_no_separator u) as (Hn & _ & _).
  assert (Hne : d ++ ["auditData.json"] <> d ++ ["index.html"]).
  { intros E. apply app_inv_head in E. discriminate. }
  assert (Hout : forall f, d ++ [f] <> ["output"] \/ f = "output").
  { intros f. subst d. destruct (below_cases (sanatizeURL u)) as [-> | [-> | ->]];
      cbn; [left; discriminate| |left; discriminate].
    destruct (String.eqb_spec f "output") as [->|Hf]; [now right|left; congruence]. }
  assert (Hself : forall f, d ++ [f] <> d).
  { intros f E. apply (f_equal length) in E. rewrite length_app in E. cbn in E. lia. }
  assert (Wd : forall fs, Fs.isDir fs ["output"] = true -> Fs.isDir fs d = true ->
                 fs !! (d ++ ["auditData.json"]) <> Some Dir ->
                 Fs.write fs (dataPath u) (stringify json)
                 = inr (<[d ++ ["auditData.json"] := File (stringify json)]> fs)).
  { intros fs A B C. apply (write_below fs (sanatizeURL u) "auditData.json"); auto. }
  assert (Wr : forall fs, Fs.isDir fs ["output"] = true -> Fs.isDir fs d = true ->
                 fs !! (d ++ ["index.html"]) <> Some Dir ->
                 Fs.write fs (reportPath u) html
                 = inr (<[d ++ ["index.html"] := File html]> fs)).
  { intros fs A B C. apply (write_below fs (sanatizeURL u) "index.html"); auto. }
  assert (Keep : forall fs f text, Fs.isDir fs ["output"] = true -> Fs.isDir fs d = true ->
                   f <> "output" ->
                   Fs.isDir (<[d ++ [f] := File text]> fs) ["output"] = true
                   /\ Fs.isDir (<[d ++ [f] := File text]> fs) d = true).
  { intros fs f text A B Hf. rewrite !isDir_insert_file; auto.
    destruct (Hout f) as [H|H]; [exact H|contradiction]. }
  destruct dataFirst; cbn [run]; rewrite R1.
  - (* the data file first *)
    erewrite (write_completed (length (writes st)) _ _ _ s1 E1); cycle 1.
    { rewrite W1. apply lookup_first_of_two. }
    { reflexivity. }
    { rewrite F1. cbn [wPath wData]. apply Wd; assumption. }
    destruct (Keep (files st) "auditData.json" (stringify json) Ho Hd ltac:(discriminate))
      as (K1 & K2).
    rewrite W1, delete_first_of_two.
    erewrite (write_completed (length (writes st)) _ _ _ _); cycle 1.
    { exact E1. }
    { cbn [writes emit setFiles setWrites]. apply lookup_end. }
    { reflexivity. }
    { cbn [files emit setFiles setWrites wPath wData]. apply Wr; [exact K1|exact K2|].
      rewrite lookup_insert_ne by exact Hne. exact H2. }
    eexists. split; [reflexivity|].
    cbn [files writes exitCode history emit setFiles setWrites wPath wData].
    split; [reflexivity|]. split; [apply delete_end|].
    split; [exact E1|]. split; [right; right; right; now left|].
    split; [right; now left|]. split; [right; right; now left|now left].
  - (* the HTML report first *)
    erewrite (write_completed (S (length (writes st))) _ _ _ s1 E1); cycle 1.
    { rewrite W1. apply lookup_second_of_two. }
    { reflexivity. }
    { rewrite F1. cbn [wPath wData]. apply Wr; assumption. }
    destruct (Keep (files st) "index.html" html Ho Hd ltac:(discriminate)) as (K1 & K2).
    rewrite W1, delete_second_of_two.
    erewrite (write_completed (length (writes st)) _ _ _ _); cycle 1.
    { exact E1. }
    { cbn [writes emit setFiles setWrites]. apply lookup_end. }
    { reflexivity. }
    { cbn [files emit setFiles setWrites wPath wData]. apply Wd; [exact K1|exact K2|].
      rewrite lookup_insert_ne by (intros E; apply Hne; now symmetry). exact H1. }
    eexists. split; [reflexivity|].
    cbn [files writes exitCode history emit setFiles setWrites wPath wData].
    split; [apply insert_insert_ne; intros E; apply Hne; now symmetry|].
    split; [apply delete_end|].
    split; [exact E1|]. split; [right; now left|].
    split; [right; right; right; now left|]. split; [now left|right; right; now left].
Qed.

Lemma Suffix_trans (a b c : string) : Suffix a b -> Suffix b c -> Suffix a c.
Proof. intros H1 H2. induction H2; [exact H1|]. now constructor. Qed.

Lemma Suffix_contains (c : ascii) (t s : string) :
  Suffix t s -> Js.contains c s = false -> Js.contains c t = false.
Proof.
  induction 1 as [|a s H IH]; [auto|]. cbn [Js.contains]. intros E.
  apply orb_false_iff in E as [_ E]. auto.
Qed.

(** The matcher only ever hands a remainder of its input to its
    continuation. *)
Lemma matchRe_suffix (r : Regex.Re) : forall prev s k,
  Regex.matchRe r prev s k = true ->
  exists p' s', Suffix s' s /\ k p' s' = true.
Proof.
  induction r as [|p|r1 IH1 r2 IH2|r1 IH1 r2 IH2|r1 IH1|r1 IH1|];
    intros prev s k H; cbn [Regex.matchRe] in H.
  - exists prev, s. split; [constructor|exact H].
  - destruct s as [|c s]; [discriminate|]. destruct (p c); [|discriminate].
    exists (Some c), s. split; [repeat constructor|exact H].
  - apply IH1 in H as (p1 & s1 & S1 & H). apply IH2 in H as (p2 & s2 & S2 & H).
    exists p2, s2. split; [eapply Suffix_trans; eassumption|exact H].
  - destruct (Regex.matchRe r1 prev s k) eqn:E; [now apply IH1 in E|now apply IH2 in H].
  - destruct (Regex.matchRe r1 prev s k) eqn:E; [now apply IH1 in E|].
    exists prev, s. split; [constructor|exact H].
  - apply IH1 in H as (p1 & s1 & S1 & H).
    remember (String.length s) as fuel eqn:Ef. clear Ef.
    match type of H with (if ?b then _ else _) = _ => destruct b eqn:E end;
      [|exists p1, s1; auto].
    clear H.
    enough (G : exists p' s', Suffix s' s1 /\ k p' s' = true).
    { destruct G as (p' & s' & G1 & G2). exists p', s'.
      split; [eapply Suffix_trans; eassumption|exact G2]. }
    clear S1. revert p1 s1 E.
    induction fuel as [|fuel IHf]; intros p1 s1 E; simpl in E; [discriminate|].
    apply IH1 in E as (p2 & s2 & S2 & E).
    match type of E with (if ?b then _ else _) = _ => destruct b eqn:E' end.
    + apply IHf in E' as (p3 & s3 & S3 & E'). exists p3, s3.
      split; [eapply Suffix_trans; eassumption|exact E'].
    + exists p2, s2. auto.
  - destruct (xorb _ _); [|discriminate]. exists prev, s. split; [constructor|exact H].
Qed.

Lemma matchRe_dot_first (r : Regex.Re) prev s k :
  Js.contains "." s = false ->
  Regex.matchRe (Regex.Plus (Regex.Cat (Regex.lit ".") r)) prev s k = false.
Proof.
  intros H. cbn [Regex.matchRe Regex.lit]. destruct s as [|c s]; [reflexivity|].
  cbn [Js.contains] in H. apply orb_false_iff in H as [H _].
  rewrite Ascii.eqb_sym in H. now rewrite H.
Qed.

Lemma urlRe_needs_dot (prev : option ascii) (s : string) :
  Js.contains "." s = false ->
  Regex.matchRe Cli.urlRe prev s (fun _ _ => true) = false.
Proof.
  intros H. destruct (Regex.matchRe Cli.urlRe prev s (fun _ _ => true)) eqn:E; [|reflexivity].
  exfalso. unfold Cli.urlRe in E.
  change (Regex.matchRe (Regex.Cat ?a ?b) prev s ?k)
    with (Regex.matchRe a prev s (fun p' s' => Regex.matchRe b p' s' k)) in E.
  apply matchRe_suffix in E as (p1 & s1 & S1 & E).
  change (Regex.matchRe (Regex.Cat ?a ?b) p1 s1 ?k)
    with (Regex.matchRe a p1 s1 (fun p' s' => Regex.matchRe b p' s' k)) in E.
  apply matchRe_suffix in E as (p2 & s2 & S2 & E).
  change (Regex.matchRe (Regex.Cat ?a ?b) p2 s2 ?k)
    with (Regex.matchRe a p2 s2 (fun p' s' => Regex.matchRe b p' s' k)) in E.
  rewrite matchRe_dot_first in E; [discriminate|].
  eapply Suffix_contains; [exact S2|]. eapply Suffix_contains; [exact S1|exact H].
Qed.

Lemma searchFrom_urlRe_needs_dot (s : string) : forall prev,
  Js.contains "." s = false -> Regex.searchFrom Cli.urlRe prev s = false.
Proof.
  induction s as [|c s IH]; intros prev H; cbn [Regex.searchFrom];
    rewrite (urlRe_needs_dot prev _ H); [reflexivity|].
  apply IH. cbn [Js.contains] in H. apply orb_false_iff in H. tauto.
Qed.

(** X3. A URL argument with no dot in it (such as
    [http://localhost:3000]) does not pass the test of line 15: the program
    prints [Please use a correct URL.] and exits with status 1, before it
    clears the output folder or starts the crawl. *)
Theorem url_without_dot_refused (argv : list string) (url : string)
        (fs : gmap (list string) Node) :
  argv !! 2%nat = Some url -> url <> "" -> Js.contains "." url = false ->
  history (boot argv fs) = [EExit 1; EConsole Error "Please use a correct URL."]
  /\ exitCode (boot argv fs) = Some 1%Z
  /\ files (boot argv fs) = fs
  /\ crawling (boot argv fs) = false.
Proof.
  intros Ha Hu Hd. unfold boot, task, main, Cli.argvAt. rewrite Ha.
  cbn [truthy strMatch]. destruct url as [|c url]; [congruence|].
  change (negb (negb (String.eqb (String c url) ""))) with false. cbn [when].
  unfold Regex.matches. rewrite (searchFrom_urlRe_needs_dot _ _ Hd).
  cbn. auto.
Qed.

Lemma digit_is_word (c : ascii) : Regex.between "1" "9" c = true -> Regex.isWord c = true.
Proof.
  intros H. unfold Regex.isWord, Regex.isDigit.
  replace (Regex.between "0" "9" c) with true; [now rewrite orb_true_r|].
  symmetry. unfold Regex.between in *.
  apply andb_true_iff in H as [H1 H2]. rewrite H2, andb_true_r.
  apply Nat.leb_le in H1. apply Nat.leb_le.
  change (nat_of_ascii "1") with 49%nat in H1. change (nat_of_ascii "0") with 48%nat. lia.
Qed.

Ltac word_cases :=
  repeat match goal with
    | |- context [Regex.isWordOpt ?x] => destruct (Regex.isWordOpt x)
    | |- context [Regex.isWord ?x] => destruct (Regex.isWord x)
    end;
  reflexivity.

Lemma depthRe_here (prev : option ascii) (s : string) :
  Regex.matchRe Cli.depthRe prev s (fun _ _ => true)
  = negb (Regex.isWordOpt prev) && depthHere s.
Proof.
  unfold Cli.depthRe. cbn [Regex.matchRe Regex.word Regex.lit].
  destruct s as [|c rest].
  { cbn [depthHere]. rewrite andb_false_r. now destruct (xorb _ _). }
  cbn [Regex.headChar Regex.isWordOpt depthHere].
  destruct (Regex.between "1" "9" c) eqn:B.
  - rewrite (digit_is_word _ B). rewrite xorb_true_r.
    destruct (Regex.isWordOpt prev); [reflexivity|]. cbn [negb andb orb].
    destruct (Ascii.eqb "1" c) eqn:E1; cbn [andb orb].
    + destruct rest as [|c' rest']; cbn [Regex.headChar Regex.isWordOpt xorb negb orb].
      { reflexivity. }
      destruct (Ascii.eqb "0" c') eqn:E0; cbn [andb orb]; [|word_cases].
      apply Ascii.eqb_eq in E0. subst c'.
      change (Regex.isWord "0") with true. cbn [xorb]. word_cases.
    + cbn [xorb]. word_cases.
  - assert (E1 : Ascii.eqb "1" c = false).
    { destruct (Ascii.eqb_spec "1" c) as [<-|]; [discriminate B|reflexivity]. }
    rewrite E1. cbn [andb orb]. rewrite andb_false_r. now destruct (xorb _ _).
Qed.

Lemma append_nil_l (s : string) : "" +:+ s = s.
Proof. reflexivity. Qed.

Lemma append_cons (c : ascii) (s t : string) : String c s +:+ t = String c (s +:+ t).
Proof. reflexivity. Qed.

Lemma depthHere_spec (s : string) :
  depthHere s = true <->
  exists tok post, s = tok +:+ post /\ isDepthToken tok = true
                   /\ Regex.isWordOpt (Regex.headChar post) = false.
Proof.
  split.
  - destruct s as [|c rest]; [discriminate|]. cbn [depthHere]. intros H.
    apply orb_true_iff in H as [H|H]; apply andb_true_iff in H as [H1 H2].
    + destruct rest as [|c' rest']; [discriminate|].
      apply andb_true_iff in H2 as [H2 H3].
      apply Ascii.eqb_eq in H1, H2. subst c c'.
      exists "10", rest'. split; [reflexivity|]. split; [reflexivity|].
      now apply negb_true_iff.
    + exists (String c ""), rest. split; [reflexivity|].
      split; [unfold isDepthToken; now rewrite H1, orb_true_r|now apply negb_true_iff].
  - intros (tok & post & -> & Ht & Hp). unfold isDepthToken in Ht.
    apply orb_true_iff in Ht as [Ht|Ht].
    + apply String.eqb_eq in Ht. subst tok.
      change ("10" +:+ post) with (String "1" (String "0" post)). cbn [depthHere].
      rewrite Hp. reflexivity.
    + destruct tok as [|c [|c' tok]]; try discriminate.
      change (String c "" +:+ post) with (String c post). cbn [depthHere].
      rewrite Ht, Hp. cbn [negb andb]. apply orb_true_r.
Qed.

Lemma lastOr_cons (prev : option ascii) (c : ascii) (pre : string) :
  lastOr prev (String c pre) = lastOr (Some c) pre.
Proof.
  unfold lastOr. destruct pre as [|b pre]; [reflexivity|].
  change (Js.lastChar (String c (String b pre))) with (Js.lastChar (String b pre)).
  destruct (Js.lastChar (String b pre)) eqn:E; [reflexivity|].
  exfalso. clear - E. revert b E. induction pre as [|a pre IH]; intros b E; [discriminate|].
  apply (IH a). exact E.
Qed.

Lemma searchFrom_depthRe (s : string) : forall prev,
  Regex.searchFrom Cli.depthRe prev s = true <->
  exists pre tok post,
    s = pre +:+ tok +:+ post
    /\ isDepthToken tok = true
    /\ Regex.isWordOpt (lastOr prev pre) = false
    /\ Regex.isWordOpt (Regex.headChar post) = false.
Proof.
  induction s as [|c s IH]; intros prev; cbn [Regex.searchFrom]; rewrite depthRe_here.
  - cbn [depthHere]. rewrite andb_false_r. split; [discriminate|].
    intros (pre & tok & post & E & Ht & _). exfalso.
    destruct pre; [|discriminate]. destruct tok; discriminate.
  - destruct (negb (Regex.isWordOpt prev) && depthHere (String c s)) eqn:M.
    + split; [intros _|reflexivity]. apply andb_true_iff in M as [M1 M2].
      apply depthHere_spec in M2 as (tok & post & E & Ht & Hp).
      exists "", tok, post. split; [exact E|]. split; [exact Ht|].
      split; [now apply negb_true_iff in M1|exact Hp].
    + rewrite IH. split.
      * intros (pre & tok & post & E & Ht & Hl & Hp).
        exists (String c pre), tok, post. rewrite lastOr_cons.
        split; [now rewrite E|auto].
      * intros (pre & tok & post & E & Ht & Hl & Hp).
        destruct pre as [|b pre].
        { exfalso. cbn [lastOr Js.lastChar] in Hl. rewrite Hl in M. cbn [negb andb] in M.
          rewrite append_nil_l in E.
          assert (H : depthHere (String c s) = true)
            by (apply depthHere_spec; exists tok, post; auto).
          congruence. }
        rewrite append_cons in E. injection E as <- E.
        exists pre, tok, post. rewrite lastOr_cons in Hl. auto.
Qed.

Lemma lastOr_None (pre : string) : lastOr None pre = Js.lastChar pre.
Proof. unfold lastOr. now destruct (Js.lastChar pre). Qed.

(** X5. Which depth arguments are taken (line 23): those that hold [10]
    or one digit from [1] to [9] with no word character right before it
    and none right after it; the depth is then the argument as it was
    given.  Any other argument, and a missing one, gives the default 1. *)
Theorem depthOf_spec (argv : list string) :
  match argv !! 3%nat with
  | Some a =>
      (hasDepthToken a -> Cli.depthOf argv = VString a)
      /\ (~ hasDepthToken a -> Cli.depthOf argv = VNumber 1)
  | None => Cli.depthOf argv = VNumber 1
  end.
Proof.
  unfold Cli.depthOf, Cli.argvAt. destruct (argv !! 3%nat) as [a|]; [|reflexivity].
  cbn [strMatch truthy]. unfold Regex.matches.
  pose proof (searchFrom_depthRe a None) as H.
  assert (H' : Regex.searchFrom Cli.depthRe None a = true <-> hasDepthToken a).
  { rewrite H. unfold hasDepthToken. split; intros (pre & tok & post & G);
      exists pre, tok, post; rewrite lastOr_None in *; exact G. }
  clear H. destruct (Regex.searchFrom Cli.depthRe None a) eqn:S.
  - assert (Ha : a <> "").
    { intros ->. discriminate S. }
    destruct a as [|c a]; [congruence|]. cbn [String.eqb negb andb].
    split; [reflexivity|]. intros N. exfalso. apply N, H'. reflexivity.
  - rewrite andb_false_r. split; [|reflexivity].
    intros N. apply H' in N. discriminate.
Qed.

(** X7. The module body, by cases on the first argument.  Missing or
    empty: the program asks for a URL and exits with status 1.  Not matched
    by the test of line 15: it asks for a correct URL and exits with status
    1.  In both cases nothing on disk is touched and no crawl is started.
    Otherwise it announces the crawl, clears the output folder and starts
    the crawl with that URL and the depth and thread count of the command
    line. *)
Theorem boot_checks_url (argv : list string) (fs : gmap (list string) Node) :
  let st := boot argv fs in
  match argv !! 2%nat with
  | Some (String c rest as url) =>
      if Regex.matches Cli.urlRe url
      then history st
           = [ECrawl url (Cli.depthOf argv) (Cli.threadsOf argv);
              ERimraf "./output/*";
              EConsole Info "Clearing output...";
              EConsole Info ("Crawling " +:+ url +:+ ", at a depth of "
                               +:+ template (Cli.depthOf argv) +:+ ", with "
                               +:+ template (Cli.threadsOf argv) +:+ " threads.")]
           /\ exitCode st = None /\ crawling st = true
           /\ files st = Fs.rimrafOutput fs
      else history st = [EExit 1; EConsole Error "Please use a correct URL."]
           /\ exitCode st = Some 1%Z /\ crawling st = false /\ files st = fs
  | _ =>
      history st = [EExit 1; EConsole Error "Please provide a URL to crawl and audit."]
      /\ exitCode st = Some 1%Z /\ crawling st = false /\ files st = fs
  end.
Proof.
  intros st. subst st. unfold boot, task, main, Cli.argvAt.
  destruct (argv !! 2%nat) as [[|c rest]|] eqn:E; cbn [truthy strMatch negb String.eqb when].
  - cbn. auto.
  - destruct (Regex.matches Cli.urlRe (String c rest)); cbn; auto.
  - cbn. auto.
Qed.




Lemma headChar_startsWith (name : string) :
  Regex.headChar name = Some "."%char -> Js.startsWith "." name = true.
Proof. destruct name as [|c name]; [discriminate|]. intros [= ->]. reflexivity. Qed.

Lemma globbed_spec (p : list string) :
  Fs.globbed p
  = match p with
    | a :: name :: _ =>
        String.eqb a "output" && negb (bool_decide (Regex.headChar name = Some "."%char))
    | _ => false
    end.
Proof.
  destruct p as [|a [|name rest]]; [reflexivity| |]; unfold Fs.globbed.
  - repeat (match goal with
            | |- context [match ?x with _ => _ end] => is_var x; destruct x
            end; try reflexivity).
  - repeat (match goal with
            | |- match ?x with _ => _ end = _ =>
                is_var x; destruct x; cbn [String.eqb Ascii.eqb Bool.eqb andb]
            end; try reflexivity).
Qed.




Lemma rimrafOutput_lookup (fs : gmap (list string) Node) (p : list string) :
  Fs.rimrafOutput fs !! p
  = if Fs.isDir fs ["output"] && Fs.globbed p then None else fs !! p.
Proof.
  unfold Fs.rimrafOutput. destruct (Fs.isDir fs ["output"]); [|reflexivity].
  cbn [andb]. destruct (Fs.globbed p) eqn:G.
  - apply map_lookup_filter_None. right. intros n _. cbn. congruence.
  - destruct (fs !! p) as [n|] eqn:E.
    + apply map_lookup_filter_Some. auto.
    + apply map_lookup_filter_None. now left.
Qed.



Lemma below_proper (name : string) : properName name = true -> below name = ["output"; name].
Proof.
  unfold properName, below. intros H. apply andb_true_iff in H as [H H3].
  apply andb_true_iff in H as [H1 H2]. apply negb_true_iff in H1, H2, H3.
  now rewrite H1, H2, H3.
Qed.



Lemma Sane_ret {A} (a : A) : Sane (ret a).
Proof. intros st Ha Hw. auto. Qed.

Lemma Sane_throw {A} (v : string) : Sane (@throw A v).
Proof. intros st Ha Hw. auto. Qed.

Lemma Sane_bind {A B} (m : M A) (f : A -> M B) :
  Sane m -> (forall a, Sane (f a)) -> Sane (bind m f).
Proof.
  intros Hm Hf st Ha Hw. unfold bind. destruct (Hm st Ha Hw) as (W1 & O1).
  destruct (m st) as [[a|v|] st1]; cbn [fst snd] in *; auto.
  apply Hf; assumption.
Qed.

Lemma Alive_emit (e : Event) (st : State) : isExit e = false -> Alive st -> Alive (emit e st).
Proof. intros He (H1 & H2). split; [exact H1|]. cbn. auto. Qed.

Lemma Sane_effect (e : Event) : isExit e = false -> Sane (effect e).
Proof. intros He st Ha Hw. split; [exact Hw|]. now apply Alive_emit. Qed.

Lemma Sane_when (b : bool) (m : M unit) : Sane m -> Sane (when b m).
Proof. destruct b; [auto|]. intros _. apply Sane_ret. Qed.

Lemma Sane_forEach {A} (xs : list A) (f : A -> M unit) :
  (forall x, Sane (f x)) -> Sane (forEach xs f).
Proof.
  intros Hf. induction xs as [|x xs IH]; [apply Sane_ret|].
  cbn [forEach]. apply Sane_bind; auto.
Qed.

Lemma Sane_existsSync (path : string) : Sane (existsSync path).
Proof. intros st Ha Hw. auto. Qed.

Lemma Sane_readdirSync (path : string) : Sane (readdirSync path).
Proof.
  intros st Ha Hw. unfold readdirSync.
  destruct (Fs.readdir (files st) path); cbn; auto.
Qed.

Lemma Sane_mkdirSync (path : string) : Sane (mkdirSync path).
Proof.
  intros st Ha Hw. unfold mkdirSync. cbn [files emit].
  destruct (Fs.mkdir (files st) path); cbn [fst snd writes setFiles emit];
    (split; [exact Hw|]); destruct Ha as (H1 & H2); split; cbn; auto.
Qed.

Lemma Sane_writeFileSync (path content : string) : Sane (writeFileSync path content).
Proof.
  intros st Ha Hw. unfold writeFileSync. cbn [files emit].
  destruct (Fs.write (files st) path content); cbn [fst snd writes setFiles emit];
    (split; [exact Hw|]); destruct Ha as (H1 & H2); split; cbn; auto.
Qed.

Lemma Sane_writeFile (filename data : string) :
  Sane (writeFile ("./output/" +:+ filename) data (SavedCallback filename)).
Proof.
  intros st Ha Hw. unfold writeFile. cbn [fst snd writes setWrites emit]. split.
  - apply Forall_app. split; [exact Hw|]. repeat constructor. now exists filename.
  - destruct Ha as (H1 & H2). split; cbn; auto.
Qed.

Lemma Sane_startAudit (urls : list string) (index : nat) (url : string) :
  Sane (startAudit urls index url).
Proof.
  intros st Ha Hw. unfold startAudit. cbn [fst snd writes setAudits emit].
  split; [exact Hw|]. destruct Ha as (H1 & H2). split; cbn; auto.
Qed.

Lemma Sane_processExit {A} : Sane (@processExit A 1).
Proof.
  intros st (H1 & H2) Hw. unfold processExit. cbn [fst snd writes setExit emit].
  split; [exact Hw|]. split; [reflexivity|]. exists (history st). auto.
Qed.

Lemma Sane_save (filename : string) (data : JsValue) : Sane (save filename data None).
Proof.
  unfold save.
  destruct (negb (truthy data) || negb (truthy (VString filename))); [apply Sane_throw|].
  assert (G : forall text, Sane
            (present <- existsSync "./output" ;;
             when (negb present) (mkdirSync "output") ;;
             writeFile ("./output/" +:+ filename) text (SavedCallback filename))).
  { intros text. apply Sane_bind; [apply Sane_existsSync|]. intros present.
    apply Sane_bind; [apply Sane_when, Sane_mkdirSync|]. intros _.
    apply Sane_writeFile. }
  destruct data; cbn [typeOf String.eqb Ascii.eqb Bool.eqb];
    try apply G; now apply Sane_effect.
Qed.

Lemma Sane_auditAll (urls : list string) (index : nat) : Sane (auditAll urls index).
Proof.
  unfold auditAll. apply Sane_bind; [now apply Sane_effect|]. intros _.
  destruct (urls !! index).
  - apply Sane_bind; [apply Sane_startAudit|]. intros _. apply Sane_ret.
  - apply Sane_bind; [now apply Sane_effect|]. intros _. apply Sane_ret.
Qed.

Lemma Sane_auditDone urls index url json html : Sane (auditDone urls index url json html).
Proof.
  unfold auditDone.
  apply Sane_bind; [apply Sane_save|]. intros _.
  apply Sane_bind; [apply Sane_save|]. intros _.
  apply Sane_bind; [apply Sane_auditAll|]. intros _. apply Sane_ret.
Qed.

Lemma Sane_makeAuditsIndex : Sane makeAuditsIndex.
Proof.
  unfold makeAuditsIndex, readDirs.
  apply Sane_bind; [now apply Sane_effect|]. intros _.
  apply Sane_bind; [apply Sane_readdirSync|]. intros entries.
  apply Sane_writeFileSync.
Qed.

Lemma Sane_crawlerFinished crawled discovered now :
  Sane (crawlerFinished crawled discovered now).
Proof.
  unfold crawlerFinished.
  destruct ((length crawled =? 0)%nat && (length discovered =? 0)%nat).
  - now apply Sane_effect.
  - unfold saveLastCrawl. apply Sane_bind.
    { apply Sane_forEach. intros url.
      apply Sane_bind; [apply Sane_existsSync|]. intros present.
      apply Sane_when, Sane_mkdirSync. }
    intros _. apply Sane_bind; [apply Sane_save|]. intros _.
    apply Sane_bind; [apply Sane_auditAll|]. intros _.
    apply Sane_makeAuditsIndex.
Qed.

Lemma Sane_main (argv : list string) : Sane (main argv).
Proof.
  unfold main.
  apply Sane_bind.
  { apply Sane_when, Sane_bind; [now apply Sane_effect|]. intros _. apply Sane_processExit. }
  intros _. apply Sane_bind.
  { apply Sane_when, Sane_bind; [now apply Sane_effect|]. intros _. apply Sane_processExit. }
  intros _. apply Sane_bind; [now apply Sane_effect|].
  intros _. apply Sane_bind.
  { unfold clearOutput. apply Sane_bind; [now apply Sane_effect|].
    intros _ st (H1 & H2) Hw. cbn. split; [exact Hw|]. split; cbn; auto. }
  intros _ st (H1 & H2) Hw. cbn. split; [exact Hw|]. split; cbn; auto.
Qed.

Lemma Sane_runCallback (cb : Callback) (err : option string) : Sane (runCallback cb err).
Proof.
  destruct cb as [filename|id]; cbn [runCallback].
  - destruct err; [apply Sane_throw|now apply Sane_effect].
  - now apply Sane_effect.
Qed.

Lemma task_orderly (m : M unit) (st : State) :
  Sane m -> Alive st -> Forall DefaultWrite (writes st) -> Orderly (task m st).
Proof.
  intros Hm Ha Hw. destruct (Hm st Ha Hw) as (W & O). unfold task.
  destruct (m st) as [[a|v|] st1]; cbn [fst snd] in *.
  - split; auto.
  - split; [|exact W]. right. destruct O as (O1 & O2). split; [reflexivity|].
    exists (EUncaught v :: history st1). cbn. auto.
  - split; auto.
Qed.

Lemma job_orderly (m : M unit) (st : State) :
  Sane m -> Alive st -> Forall DefaultWrite (writes st) -> Orderly (job m st).
Proof.
  intros Hm Ha Hw. destruct (Hm st Ha Hw) as (W & O). unfold job.
  destruct (m st) as [[a|v|] st1]; cbn [fst snd] in *.
  - split; auto.
  - split; [|exact W]. left. now apply Alive_emit.
  - split; auto.
Qed.

Lemma boot_orderly (argv : list string) (fs : gmap (list string) Node) :
  Orderly (boot argv fs).
Proof.
  apply task_orderly; [apply Sane_main| |constructor].
  split; [reflexivity|constructor].
Qed.

Lemma react_orderly (a : Action) (st st' : State) :
  react a st = Some st' -> Orderly st -> Orderly st'.
Proof.
  intros Hr ([Ha|(Hd & _)] & Hw); [|now rewrite (react_dead a st 1%Z Hd) in Hr].
  pose proof Ha as (He & Hh).
  unfold react in Hr. rewrite He in Hr.
  destruct a as [| |crawled discovered now|k ok|k report|k ioError].
  - destruct (crawling st); [|discriminate]. injection Hr as <-.
    apply task_orderly; [now apply Sane_effect|exact Ha|exact Hw].
  - destruct (crawling st); [|discriminate]. injection Hr as <-.
    apply task_orderly; [|exact Ha|exact Hw].
    apply Sane_bind; [now apply Sane_effect|]. intros _. apply Sane_processExit.
  - destruct (crawling st); [|discriminate]. injection Hr as <-.
    apply task_orderly; [apply Sane_crawlerFinished| |exact Hw]. exact Ha.
  - destruct (audits st !! k) as [au|]; [|discriminate].
    destruct (aLaunched au); [discriminate|].
    destruct ok; injection Hr as <-.
    + apply job_orderly; [now apply Sane_effect| |exact Hw]. exact Ha.
    + split; [left|exact Hw]. repeat apply Alive_emit; try reflexivity. exact Ha.
  - destruct (audits st !! k) as [au|]; [|discriminate].
    destruct (aLaunched au); [|discriminate].
    destruct report as [[json html]|]; injection Hr as <-.
    + apply job_orderly; [apply Sane_auditDone| |exact Hw].
      apply Alive_emit; [reflexivity|exact Ha].
    + split; [left|exact Hw]. repeat apply Alive_emit; try reflexivity. exact Ha.
  - destruct (writes st !! k) as [w|] eqn:Ew; [|discriminate].
    cbn [files setWrites] in Hr.
    assert (Hd : Forall DefaultWrite (delete k (writes st))) by (apply Forall_delete, Hw).
    destruct (if ioError then inl "EIO" else Fs.write (files st) (wPath w) (wData w)) as [e|fs'];
      injection Hr as <-; (apply task_orderly; [apply Sane_runCallback| |exact Hd]);
      (apply Alive_emit; [reflexivity|exact Ha]).
Qed.

Lemma run_orderly (acts : list Action) (st st' : State) :
  run acts st = Some st' -> Orderly st -> Orderly st'.
Proof.
  revert st. induction acts as [|a acts IH]; intros st Hr Hs; cbn [run] in Hr.
  - now injection Hr as <-.
  - destruct (react a st) as [st1|] eqn:E; [|discriminate].
    eapply IH; [exact Hr|]. eapply react_orderly; eassumption.
Qed.

(** X12. In every run, the process has either not exited, and then no
    exit is in its log, or it has exited with status 1, and the exit is
    the last thing it did. *)
Theorem exit_status_is_one (argv : list string) (fs : gmap (list string) Node)
        (acts : list Action) (st : State) :
  run acts (boot argv fs) = Some st ->
  (exitCode st = None /\ Forall (fun e => isExit e = false) (history st))
  \/ (exitCode st = Some 1%Z
      /\ exists h, history st = EExit 1 :: h /\ Forall (fun e => isExit e = false) h).
Proof.
  intros Hr. destruct (run_orderly _ _ _ Hr (boot_orderly argv fs)) as (H & _). exact H.
Qed.








Lemma saveLastCrawl_unfold crawled discovered now :
  saveLastCrawl crawled discovered now
  = (forEach discovered mkdirFor ;;
     save "lastCrawl.json" (VObject (crawlObject crawled discovered now)) None ;;
     auditAll discovered 0 ;;
     makeAuditsIndex).
Proof. reflexivity. Qed.

Lemma auditAll_crawling (urls : list string) (i : nat) (st : State) :
  crawling (snd (auditAll urls i st)) = crawling st.
Proof.
  destruct (urls !! i) as [u|] eqn:E.
  - now rewrite (auditAll_next _ _ _ _ E).
  - now rewrite (auditAll_end _ _ _ E).
Qed.

Lemma auditAll_returns (urls : list string) (i : nat) (st : State) :
  exists v, auditAll urls i st = (Ret v, snd (auditAll urls i st)).
Proof.
  destruct (urls !! i) as [u|] eqn:E.
  - rewrite (auditAll_next _ _ _ _ E). eauto.
  - rewrite (auditAll_end _ _ _ E). eauto.
Qed.

Lemma crawlerFinished_crawling crawled discovered now st :
  crawling (task (crawlerFinished crawled discovered now) st) = crawling st.
Proof.
  unfold crawlerFinished.
  destruct ((length crawled =? 0)%nat && (length discovered =? 0)%nat); [reflexivity|].
  rewrite saveLastCrawl_unfold.
  destruct (Calm_forEach discovered mkdirFor Calm_mkdirFor st) as (d1 & D1 & D2 & D3 & D4).
  destruct (forEach discovered mkdirFor st) as [[[]|e|] s1] eqn:E1; cbn [snd] in *.
  - rewrite (task_bind_ret _ _ _ _ _ E1).
    rewrite (task_bind_ret _ _ s1 tt _ (save_object "lastCrawl.json" _ s1 ltac:(discriminate))).
    destruct (auditAll_returns discovered 0
                (queued "lastCrawl.json"
                   (stringify (crawlObject crawled discovered now)) (ensureOutput s1)))
      as (v & Ea).
    rewrite (task_bind_ret _ _ _ _ _ Ea).
    destruct (makeAuditsIndex_shape
                (snd (auditAll discovered 0
                        (queued "lastCrawl.json"
                           (stringify (crawlObject crawled discovered now)) (ensureOutput s1)))))
      as (x & _ & _ & _ & X4).
    rewrite X4, auditAll_crawling. unfold queued. cbn [crawling setWrites emit].
    destruct (ensureOutput_frame s1) as (_ & _ & F3 & _). congruence.
  - unfold task, bind. rewrite E1. cbn. exact D4.
  - unfold task, bind. rewrite E1. exact D4.
Qed.

Lemma react_incrawl tree a st st' :
  react a st = Some st' -> InCrawl tree st -> InCrawl tree st'.
Proof.
  intros Hr J C'.
  assert (C : crawling st = true).
  { destruct (crawling st) eqn:C; [reflexivity|].
    destruct (react_after_crawl _ _ _ C Hr) as (d & _ & _ & X). congruence. }
  destruct (J C) as (Jf & Jw & Ja). unfold react in Hr.
  destruct (exitCode st); [discriminate|].
  destruct a as [| |crawled discovered now|k ok|k report|k ioError].
  - rewrite C in Hr. injection Hr as <-. cbn. auto.
  - rewrite C in Hr. injection Hr as <-. cbn. auto.
  - rewrite C in Hr. injection Hr as <-. rewrite crawlerFinished_crawling in C'.
    discriminate.
  - rewrite Ja in Hr. discriminate.
  - rewrite Ja in Hr. discriminate.
  - rewrite Jw in Hr. discriminate.
Qed.

Lemma run_incrawl tree acts st st' :
  run acts st = Some st' -> InCrawl tree st -> InCrawl tree st'.
Proof.
  revert st. induction acts as [|a acts IH]; intros st Hr Hs; cbn [run] in Hr.
  - now injection Hr as <-.
  - destruct (react a st) as [st1|] eqn:E; [|discriminate].
    eapply IH; [exact Hr|]. eapply react_incrawl; eassumption.
Qed.

Lemma boot_incrawl argv fs : InCrawl (Fs.rimrafOutput fs) (boot argv fs).
Proof.
  destruct (boot_cases argv fs) as [(msg & ->)|(msg & url & depth & threads & ->)].
  - intros C. discriminate.
  - intros _. cbn. auto.
Qed.



(** The turn of [onFinished] at the end of a run from the start of the
    program: the state it starts in. *)
Lemma before_finished argv fs acts crawled discovered now st :
  run (acts ++ [CrawlFinished crawled discovered now]) (boot argv fs) = Some st ->
  exists s0,
    react (CrawlFinished crawled discovered now) s0 = Some st
    /\ crawling s0 = true /\ exitCode s0 = None
    /\ files s0 = Fs.rimrafOutput fs /\ writes s0 = [] /\ audits s0 = [].
Proof.
  intros Hr. apply run_app in Hr as (s0 & R0 & R1). cbn [run] in R1.
  destruct (react (CrawlFinished crawled discovered now) s0) as [st'|] eqn:E; [|discriminate].
  injection R1 as ->. exists s0. split; [exact E|].
  assert (C : crawling s0 = true /\ exitCode s0 = None).
  { unfold react in E. destruct (exitCode s0); [discriminate|].
    destruct (crawling s0); [auto|discriminate]. }
  destruct C as (C & X). split; [exact C|]. split; [exact X|].
  exact (run_incrawl _ _ _ _ R0 (boot_incrawl argv fs) C).
Qed.



Lemma resolve_missing (fs : gmap (list string) Node) (name : string) :
  fs !! ["output"] = None -> Js.contains "/" name = false -> name <> "" ->
  Fs.resolve fs ("./output/" +:+ name) = None.
Proof.
  intros Ho Hn Hne. unfold Fs.resolve. rewrite (components_dir _ Hn).
  destruct (String.eqb_spec name "") as [->|_]; [congruence|].
  change (Fs.walk fs [] ("." :: "output" :: ?l)) with (Fs.walk fs ["output"] l).
  cbn [Fs.walk]. unfold Fs.isDir, Fs.nodeAt. now rewrite Ho.
Qed.

Lemma mkdirFor_missing (u : string) (st : State) :
  files st !! ["output"] = None -> sanatizeURL u <> "" ->
  mkdirFor u st
  = (Throw "ENOENT", emit (EMkdirSync ("./output/" +:+ sanatizeURL u)) st).
Proof.
  intros Ho Hne. destruct (sanatizeURL_no_separator u) as (Hn & _ & _).
  unfold mkdirFor, bind, existsSync, Fs.exists_.
  rewrite (resolve_missing _ _ Ho Hn Hne). cbn [negb when].
  unfold mkdirSync, Fs.mkdir. cbn [files emit].
  now rewrite (resolve_missing _ _ Ho Hn Hne).
Qed.

Lemma bind_throw {A B} (m : M A) (k : A -> M B) (v : string) (st st' : State) :
  m st = (Throw v, st') -> bind m k st = (Throw v, st').
Proof. intros E. unfold bind. now rewrite E. Qed.

(** X15. Without [./output] on disk the program does not get past the
    first discovered URL: [mkdirSync] of its directory throws [ENOENT] in
    [saveLastCrawl], before [save] could create [./output]; the process
    ends with status 1, nothing is saved and no audit is started. *)
Theorem missing_output_is_fatal (argv : list string) (fs : gmap (list string) Node)
        (acts : list Action) (crawled : list string) (u : string) (rest : list string)
        (now : string) (st : State) :
  fs !! ["output"] = None ->
  sanatizeURL u <> "" ->
  run (acts ++ [CrawlFinished crawled (u :: rest) now]) (boot argv fs) = Some st ->
  exitCode st = Some 1%Z
  /\ (exists h, history st
                = EExit 1 :: EUncaught "ENOENT"
                    :: EMkdirSync ("./output/" +:+ sanatizeURL u) :: h)
  /\ files st = fs /\ writes st = [] /\ audits st = [].
Proof.
  intros Ho Hne Hr.
  destruct (before_finished _ _ _ _ _ _ _ Hr) as (s0 & E & C & X & Hf & Hw & Ha).
  assert (Hf0 : files s0 = fs).
  { rewrite Hf. unfold Fs.rimrafOutput, Fs.isDir, Fs.nodeAt. now rewrite Ho. }
  unfold react in E. rewrite X, C in E. injection E as <-.
  unfold crawlerFinished.
  replace ((length crawled =? 0)%nat && (length (u :: rest) =? 0)%nat) with false
    by (now rewrite andb_false_r).
  rewrite saveLastCrawl_unfold. cbn [forEach].
  unfold task. erewrite bind_throw; cycle 1.
  { apply bind_throw. apply mkdirFor_missing; [|exact Hne].
    cbn [files setCrawling]. now rewrite Hf0. }
  cbn [exitCode history files writes audits setExit emit setCrawling].
  split; [reflexivity|]. split; [eauto|]. auto.
Qed.

(** X16. The two reports of an audit reach the disk: when the audit of a
    URL with a proper sanitized name resolves with a non-empty HTML report,
    its directory is there and no directory is in the place of either file,
    then after the two writes have completed, in either order,
    [auditData.json] holds the JSON text of the report object and
    [index.html] the HTML text, no other entry has changed, and the process
    goes on. *)
Theorem audit_reports_round_trip (urls : list string) (i k : nat) (u : string)
        (json : Json) (html : string) (dataFirst : bool) (st : State) :
  let name := sanatizeURL u in
  let n := length (writes st) in
  exitCode st = None ->
  audits st !! k = Some (mkAudit urls i u true) ->
  html <> "" ->
  properName name = true ->
  Fs.isDir (files st) ["output"] = true ->
  Fs.isDir (files st) ["output"; name] = true ->
  Fs.isDir (files st) ["output"; name; "auditData.json"] = false ->
  Fs.isDir (files st) ["output"; name; "index.html"] = false ->
  exists st',
    run (AuditSettled k (Some (json, html))
           :: (if dataFirst then [WriteCompleted n false; WriteCompleted n false]
               else [WriteCompleted (S n) false; WriteCompleted n false])) st = Some st'
    /\ files st' !! ["output"; name; "auditData.json"] = Some (File (stringify json))
    /\ files st' !! ["output"; name; "index.html"] = Some (File html)
    /\ (forall p, p <> ["output"; name; "auditData.json"] ->
                  p <> ["output"; name; "index.html"] -> files st' !! p = files st !! p)
    /\ writes st' = writes st
    /\ exitCode st' = None.
Proof.
  intros name n He Ha Hh Hp Ho Hd H1 H2. subst name n.
  pose proof (below_proper _ Hp) as Hb.
  destruct (reports_written_below urls i k u json html dataFirst st He Ha Hh Ho) as
    (st' & R & F & W & X & _).
  - now rewrite Hb.
  - rewrite Hb. unfold Fs.isDir, Fs.nodeAt in H1. cbn [app] in *.
    destruct (files st !! ["output"; sanatizeURL u; "auditData.json"]) as [[t|]|]; congruence.
  - rewrite Hb. unfold Fs.isDir, Fs.nodeAt in H2. cbn [app] in *.
    destruct (files st !! ["output"; sanatizeURL u; "index.html"]) as [[t|]|]; congruence.
  - exists st'. split; [exact R|]. rewrite F, Hb. cbn [app].
    split; [rewrite lookup_insert_ne by discriminate; apply lookup_insert_eq|].
    split; [apply lookup_insert_eq|]. split; [|auto].
    intros p P1 P2. rewrite !lookup_insert_ne by congruence. reflexivity.
Qed.

(** X17. A URL whose sanitized name is [..] (such as [../]) takes its
    reports out of the store: both writes are issued for paths that start
    with [./output/], and both files are created in the working directory,
    beside [output]; nothing below [output] changes. *)
Theorem audit_reports_escape_output (urls : list string) (i k : nat) (u : string)
        (json : Json) (html : string) (st : State) :
  let n := length (writes st) in
  exitCode st = None ->
  audits st !! k = Some (mkAudit urls i u true) ->
  html <> "" ->
  sanatizeURL u = ".." ->
  Fs.isDir (files st) ["output"] = true ->
  Fs.isDir (files st) ["auditData.json"] = false ->
  Fs.isDir (files st) ["index.html"] = false ->
  exists st',
    run [AuditSettled k (Some (json, html)); WriteCompleted n false; WriteCompleted n false] st
    = Some st'
    /\ In (EWriteFileDone "./output/../auditData.json" true) (history st')
    /\ In (EWriteFileDone "./output/../index.html" true) (history st')
    /\ files st' !! ["auditData.json"] = Some (File (stringify json))
    /\ files st' !! ["index.html"] = Some (File html)
    /\ (forall p, head p = Some "output" -> files st' !! p = files st !! p).
Proof.
  intros n He Ha Hh Hu Ho H1 H2. subst n.
  assert (Hb : below (sanatizeURL u) = []) by (now rewrite Hu).
  destruct (reports_written_below urls i k u json html true st He Ha Hh Ho) as
    (st' & R & F & W & X & L1 & L2 & _).
  - now rewrite Hb.
  - rewrite Hb. unfold Fs.isDir, Fs.nodeAt in H1. cbn [app] in *.
    destruct (files st !! ["auditData.json"]) as [[t|]|]; congruence.
  - rewrite Hb. unfold Fs.isDir, Fs.nodeAt in H2. cbn [app] in *.
    destruct (files st !! ["index.html"]) as [[t|]|]; congruence.
  - exists st'. split; [exact R|].
    unfold dataPath in L1. unfold reportPath in L2. rewrite Hu in L1, L2.
    split; [exact L1|]. split; [exact L2|].
    rewrite F, Hb. cbn [app].
    split; [rewrite lookup_insert_ne by discriminate; apply lookup_insert_eq|].
    split; [apply lookup_insert_eq|].
    intros p Hp. rewrite !lookup_insert_ne; [reflexivity| |]; intros <-; discriminate.
Qed.

(** X10. [save] of a truthy value that is neither an object nor a text (a
    number, [true], a function) prints [Unable to save data.] on the error
    stream and returns: nothing is thrown, no directory is created and no
    write is queued. *)
Theorem save_unable (filename : string) (data : JsValue) (callback : option nat)
        (st : State) :
  filename <> "" -> truthy data = true ->
  typeOf data <> "object" -> typeOf data <> "string" ->
  save filename data callback st
  = (Ret tt, emit (EConsole Error "Unable to save data.") st).
Proof.
  intros Hf Ht Ho Hs. unfold save.
  rewrite Ht, (truthy_name _ Hf). cbn [negb orb].
  destruct data; cbn [typeOf] in *; try congruence; try discriminate Ht; reflexivity.
Qed.












Lemma if_true_or (a b : bool) : (if a then true else b) = true <-> a = true \/ b = true.
Proof. destruct a, b; intuition congruence. Qed.

(** A match of a plain pattern is still one with more text after it and
    anything before it. *)
Lemma matchRe_extend (post : string) (r : Regex.Re) :
  plain r = true ->
  forall prev prev' s k k',
    (forall p p' s', k p s' = true -> k' p' (s' +:+ post) = true) ->
    Regex.matchRe r prev s k = true ->
    Regex.matchRe r prev' (s +:+ post) k' = true.
Proof.
  induction r as [|c|r1 IH1 r2 IH2|r1 IH1 r2 IH2|r1 IH1|r1 IH1|];
    intros Hp prev prev' s k k' Hk H; cbn [plain] in Hp.
  - cbn [Regex.matchRe] in *. eauto.
  - cbn [Regex.matchRe] in H. destruct s as [|a s]; [discriminate|].
    rewrite append_cons. cbn [Regex.matchRe].
    destruct (c a); [eauto|discriminate].
  - apply andb_true_iff in Hp as [P1 P2]. cbn [Regex.matchRe] in *.
    eapply (IH1 P1); [|exact H]. intros p p' s' G. cbv beta in *.
    eapply (IH2 P2); [exact Hk|exact G].
  - apply andb_true_iff in Hp as [P1 P2]. cbn [Regex.matchRe] in *.
    apply if_true_or in H. apply if_true_or. destruct H as [H|H].
    + left. eapply (IH1 P1); eassumption.
    + right. eapply (IH2 P2); eassumption.
  - cbn [Regex.matchRe] in *.
    apply if_true_or in H. apply if_true_or. destruct H as [H|H].
    + left. eapply (IH1 Hp); eassumption.
    + right. eauto.
  - assert (G : forall f f' p p' t,
              f <= f' ->
              (fix loop (fuel : nat) (prev : option ascii) (s : string) : bool :=
                 match fuel with
                 | O => false
                 | S fuel' =>
                     Regex.matchRe r1 prev s
                       (fun p' s' => if loop fuel' p' s' then true else k p' s')
                 end) f p t = true ->
              (fix loop (fuel : nat) (prev : option ascii) (s : string) : bool :=
                 match fuel with
                 | O => false
                 | S fuel' =>
                     Regex.matchRe r1 prev s
                       (fun p' s' => if loop fuel' p' s' then true else k' p' s')
                 end) f' p' (t +:+ post) = true).
    { induction f as [|f IHf]; intros f' p p' t Hle G; [discriminate|].
      destruct f' as [|f']; [lia|].
      eapply (IH1 Hp); [|exact G]. intros q q' s' Hq. cbv beta in *.
      apply if_true_or in Hq. apply if_true_or. destruct Hq as [Hq|Hq].
      - left. apply (IHf f' q q' s'); [lia|exact Hq].
      - right. eauto. }
    cbn [Regex.matchRe] in *.
    apply (G (S (String.length s)) (S (String.length (s +:+ post))) prev prev' s); [|exact H].
    clear. induction s as [|a s IH]; [cbn; lia|].
    rewrite append_cons. cbn [String.length]. lia.
  - discriminate.
Qed.

Lemma searchFrom_unfold (r : Regex.Re) (prev : option ascii) (s : string) :
  Regex.searchFrom r prev s
  = if Regex.matchRe r prev s (fun _ _ => true) then true
    else match s with
         | EmptyString => false
         | String c s' => Regex.searchFrom r (Some c) s'
         end.
Proof. destruct s; reflexivity. Qed.

Lemma searchFrom_extend (r : Regex.Re) (post : string) :
  plain r = true ->
  forall s prev prev',
    Regex.searchFrom r prev s = true -> Regex.searchFrom r prev' (s +:+ post) = true.
Proof.
  intros Hp. induction s as [|c s IH]; intros prev prev' H;
    rewrite searchFrom_unfold in H; rewrite searchFrom_unfold;
    apply if_true_or in H; apply if_true_or; destruct H as [H|H].
  - left. eapply (matchRe_extend post r Hp); [|exact H]. reflexivity.
  - discriminate.
  - left. eapply (matchRe_extend post r Hp); [|exact H]. reflexivity.
  - right. rewrite append_cons. eapply IH. exact H.
Qed.

Lemma searchFrom_skip (r : Regex.Re) (pre s : string) :
  (forall prev, Regex.searchFrom r prev s = true) ->
  forall prev, Regex.searchFrom r prev (pre +:+ s) = true.
Proof.
  intros H. induction pre as [|c pre IH]; intros prev; [apply H|].
  rewrite append_cons, searchFrom_unfold. apply if_true_or. right. apply IH.
Qed.

Lemma append_empty_r (s : string) : s +:+ "" = s.
Proof. induction s as [|c s IH]; [reflexivity|]. now rewrite append_cons, IH. Qed.

(** X4. The test of line 15 is not anchored: an argument that holds an
    accepted URL anywhere in it is accepted whole, and the crawl is started
    with the whole argument. *)
Theorem url_check_unanchored (argv : list string) (fs : gmap (list string) Node)
        (pre url post : string) :
  Regex.matches Cli.urlRe url = true ->
  argv !! 2%nat = Some (pre +:+ url +:+ post) ->
  exitCode (boot argv fs) = None
  /\ crawling (boot argv fs) = true
  /\ head (history (boot argv fs))
     = Some (ECrawl (pre +:+ url +:+ post) (Cli.depthOf argv) (Cli.threadsOf argv)).
Proof.
  intros Hm Ha.
  assert (M : Regex.matches Cli.urlRe (pre +:+ url +:+ post) = true).
  { unfold Regex.matches in *. apply searchFrom_skip. intros prev.
    eapply (searchFrom_extend Cli.urlRe post eq_refl); exact Hm. }
  assert (Hne : pre +:+ url +:+ post <> "").
  { intros E. rewrite E in M. discriminate M. }
  unfold boot, task, main, Cli.argvAt. rewrite Ha. cbn [truthy strMatch].
  rewrite M. destruct (pre +:+ url +:+ post) as [|c rest] eqn:E; [congruence|].
  cbn. auto.
Qed.

Lemma audit_chain (url : string) (env : Chain.Env) :
  let launch := env _ (Chain.Launch ["--show-paint-rects"]) in
  match launch with
  | inl reason =>
      Chain.run (Chain.audit url) env
      = ([Chain.Called (Chain.Launch ["--show-paint-rects"])], inl reason)
  | inr chrome =>
      let started := [Chain.Called (Chain.Launch ["--show-paint-rects"]);
                      Chain.Printed ("Auditing " +:+ url);
                      Chain.Called (Chain.RunLighthouse url (auditOptions chrome) VNull)] in
      match env _ (Chain.RunLighthouse url (auditOptions chrome) VNull) with
      | inl reason => Chain.run (Chain.audit url) env = (started, inl reason)
      | inr results =>
          Chain.run (Chain.audit url) env
          = (started ++ [Chain.Called (Chain.Kill chrome)],
             match env _ (Chain.Kill chrome) with
             | inl reason => inl reason
             | inr _ => inr (Chain.mkReport (Chain.lhr results) (Chain.report results))
             end)
      end
  end.
Proof.
  cbv zeta. unfold Chain.audit, Chain.launchChromeAndRunLighthouse, Chain.andThen.
  cbn [Chain.run Chain.chromeFlags Chain.output].
  destruct (env Z (Chain.Launch ["--show-paint-rects"])) as [e|chrome]; [reflexivity|].
  cbn [Chain.run]. fold (auditOptions chrome).
  destruct (env Chain.Results (Chain.RunLighthouse url (auditOptions chrome) VNull))
    as [e|results]; [reflexivity|].
  cbn [Chain.run]. destruct (env unit (Chain.Kill chrome)) as [e|[]]; reflexivity.
Qed.

(** X20. In the promise chain of [audit], Lighthouse is run exactly when
    Chrome was launched, and [chrome.kill()] is called exactly when
    Lighthouse has resolved: a rejection of Lighthouse leaves the launched
    Chrome running.  A chain that resolves has killed Chrome. *)
Theorem chrome_killed_iff_lighthouse_resolved (url : string) (env : Chain.Env) :
  let calls := fst (Chain.run (Chain.audit url) env) in
  (existsb Chain.isKill calls = true <->
   exists chrome results,
     env _ (Chain.Launch ["--show-paint-rects"]) = inr chrome
     /\ env _ (Chain.RunLighthouse url (auditOptions chrome) VNull) = inr results)
  /\ (existsb Chain.isLighthouse calls = true <->
      exists chrome, env _ (Chain.Launch ["--show-paint-rects"]) = inr chrome)
  /\ (forall r, snd (Chain.run (Chain.audit url) env) = inr r ->
      existsb Chain.isKill calls = true).
Proof.
  cbv zeta. pose proof (audit_chain url env) as H. cbv zeta in H.
  destruct (env Z (Chain.Launch ["--show-paint-rects"])) as [e|chrome].
  - rewrite H. cbn. split; [|split].
    + split; [discriminate|]. intros (c & r & [=] & _).
    + split; [discriminate|]. intros (c & [=]).
    + discriminate.
  - destruct (env Chain.Results (Chain.RunLighthouse url (auditOptions chrome) VNull))
      as [e|results] eqn:E; rewrite H; cbn.
    + split; [|split].
      * split; [discriminate|]. intros (c & r & [= <-] & E'). congruence.
      * split; [eauto|reflexivity].
      * discriminate.
    + split; [|split]; [split; [eauto|reflexivity]|split; [eauto|reflexivity]|reflexivity].
Qed.

(** X21. The promise of [audit] resolves exactly when the launch,
    Lighthouse and [chrome.kill()] all resolve, and then with [{json:
    results.lhr, html: results.report}]; otherwise it is rejected with the
    reason of the first of the three that was rejected: a failing
    [chrome.kill()] loses the finished report. *)
Theorem audit_resolves_iff_all_settle (url : string) (env : Chain.Env) :
  (forall r, snd (Chain.run (Chain.audit url) env) = inr r <->
     exists chrome results,
       env _ (Chain.Launch ["--show-paint-rects"]) = inr chrome
       /\ env _ (Chain.RunLighthouse url (auditOptions chrome) VNull) = inr results
       /\ env _ (Chain.Kill chrome) = inr tt
       /\ r = Chain.mkReport (Chain.lhr results) (Chain.report results))
  /\ (forall reason, snd (Chain.run (Chain.audit url) env) = inl reason <->
       env _ (Chain.Launch ["--show-paint-rects"]) = inl reason
       \/ exists chrome,
            env _ (Chain.Launch ["--show-paint-rects"]) = inr chrome
            /\ (env _ (Chain.RunLighthouse url (auditOptions chrome) VNull) = inl reason
                \/ exists results,
                     env _ (Chain.RunLighthouse url (auditOptions chrome) VNull) = inr results
                     /\ env _ (Chain.Kill chrome) = inl reason)).
Proof.
  pose proof (audit_chain url env) as H. cbv zeta in H.
  destruct (env Z (Chain.Launch ["--show-paint-rects"])) as [e|chrome].
  - rewrite H. cbn [snd]. split.
    + intros r. split; [discriminate|]. intros (c & x & [=] & _).
    + intros reason. split; [intros [= ->]; now left|].
      intros [[= ->]|(c & [=] & _)]. reflexivity.
  - destruct (env Chain.Results (Chain.RunLighthouse url (auditOptions chrome) VNull))
      as [e|results] eqn:E; rewrite H; cbn [snd].
    + split.
      * intros r. split; [discriminate|]. intros (c & x & [= <-] & E' & _). congruence.
      * intros reason. split.
        -- intros [= ->]. right. exists chrome. auto.
        -- intros [[=]|(c & [= <-] & [E'|(x & E' & _)])]; congruence.
    + destruct (env unit (Chain.Kill chrome)) as [e|[]] eqn:K; split.
      * intros r. split; [discriminate|].
        intros (c & x & [= <-] & _ & K' & _). congruence.
      * intros reason. split.
        -- intros [= ->]. right. exists chrome. split; [reflexivity|]. right. eauto.
        -- intros [[=]|(c & [= <-] & [E'|(x & E' & K')])]; congruence.
      * intros r. split.
        -- intros [= <-]. exists chrome, results. auto.
        -- intros (c & x & [= <-] & E' & _ & ->). congruence.
      * intros reason. split; [discriminate|].
        intros [[=]|(c & [= <-] & [E'|(x & E' & K')])]; congruence.
Qed.

(** ** Where the written paths lead *)

Lemma walk_lexical (fs : gmap (list string) Node) (comps : list string) :
  forall cur q, Fs.walk fs cur comps = Some q -> q = lexical cur comps.
Proof.
  induction comps as [|c comps IH]; intros cur q H; cbn [Fs.walk lexical] in *.
  - now injection H as <-.
  - destruct (Fs.isDir fs cur); [|discriminate]. now apply IH.
Qed.

Lemma under_leads (n : nat) (path : string) : under n path = true -> LeadsInto n path.
Proof.
  intros H tree q R. apply walk_lexical in R. fold (target path) in R. subst q.
  unfold under in H. destruct (target path) as [|a rest]; [discriminate|].
  apply andb_true_iff in H as [H1 H2]. apply String.eqb_eq in H1. subst a.
  exists rest. split; [reflexivity|]. now apply Nat.leb_le.
Qed.

Lemma lexical_app (a b : list string) : forall cur,
  lexical cur (a ++ b) = lexical (lexical cur a) b.
Proof. induction a as [|c a IH]; intros cur; [reflexivity|]. cbn [app lexical]. apply IH. Qed.

Lemma lexical_below (name : string) :
  lexical ["output"] (if String.eqb name "" then [] else [name]) = below name.
Proof.
  unfold below. destruct (String.eqb name "") eqn:E0; [reflexivity|].
  cbn [lexical orb]. destruct (String.eqb name "."); [reflexivity|].
  destruct (String.eqb name ".."); reflexivity.
Qed.

Lemma target_dir (name : string) :
  Js.contains "/" name = false -> target ("./output/" +:+ name) = below name.
Proof.
  intros H. unfold target. rewrite (components_dir _ H).
  change (lexical [] ("." :: "output" :: ?l)) with (lexical ["output"] l).
  apply lexical_below.
Qed.

Lemma target_file (name file : string) :
  Js.contains "/" name = false -> Js.contains "/" file = false ->
  properName file = true ->
  target ("./output/" +:+ name +:+ String "/" file) = below name ++ [file].
Proof.
  intros Hn Hf Hp. unfold target. rewrite (components_file _ _ Hn Hf).
  change (lexical [] ("." :: "output" :: ?l)) with (lexical ["output"] l).
  rewrite lexical_app, lexical_below.
  unfold properName in Hp. apply andb_true_iff in Hp as [Hp H3].
  apply andb_true_iff in Hp as [H1 H2]. apply negb_true_iff in H1, H2, H3.
  rewrite H1. cbn [lexical]. now rewrite H2, H3.
Qed.

Lemma dotted_is_dot (a : ascii) : Ascii.eqb (dotted a) "." = isSep a.
Proof.
  unfold dotted. destruct (isSep a) eqn:E; [reflexivity|].
  unfold isSep in E. now apply orb_false_iff in E as [_ E].
Qed.

(** The directory name is [..] for the URLs of three characters among
    [/ ? : .], and for no other. *)
Lemma safeURL_name (url : string) :
  safeURL url = negb (String.eqb (sanatizeURL url) "..").
Proof.
  unfold safeURL. f_equal. symmetry.
  pose proof (sanatizeURL_mapped url) as E.
  destruct url as [|a [|b [|c [|d rest]]]]; try reflexivity.
  - rewrite E. unfold endsInSep. cbn [Js.lastChar Js.butLast threeSeps].
    destruct (isSep a); cbn [mapStr String.eqb]; [reflexivity|].
    now destruct (Ascii.eqb (dotted a) ".").
  - rewrite E. unfold endsInSep. cbn [Js.lastChar Js.butLast threeSeps].
    destruct (isSep b) eqn:Eb; cbn [mapStr String.eqb].
    + now destruct (Ascii.eqb (dotted a) ".").
    + rewrite !dotted_is_dot, Eb. now destruct (isSep a).
  - rewrite E. unfold endsInSep. cbn [Js.lastChar Js.butLast threeSeps].
    destruct (isSep c) eqn:Ec; cbn [mapStr String.eqb]; rewrite !dotted_is_dot.
    + destruct (isSep a); [|reflexivity]. destruct (isSep b); reflexivity.
    + rewrite andb_false_r.
      destruct (isSep a); [|reflexivity]. destruct (isSep b); reflexivity.
  - cbn [threeSeps]. apply String.eqb_neq. intros H. rewrite H in E.
    apply (f_equal String.length) in E. rewrite length_mapStr in E.
    destruct (endsInSep _); [rewrite length_butLast in E|]; cbn [String.length] in E; lia.
Qed.

Lemma below_safe (u : string) :
  safeURL u = true ->
  below (sanatizeURL u) = ["output"] \/ below (sanatizeURL u) = ["output"; sanatizeURL u].
Proof.
  rewrite safeURL_name. unfold below. intros H. apply negb_true_iff in H. rewrite H.
  destruct (String.eqb (sanatizeURL u) "" || String.eqb (sanatizeURL u) "."); auto.
Qed.

Lemma under_dir (u : string) :
  safeURL u = true -> under 0 ("./output/" +:+ sanatizeURL u) = true.
Proof.
  intros H. destruct (sanatizeURL_no_separator u) as (Hn & _ & _).
  unfold under. rewrite (target_dir _ Hn).
  destruct (below_safe u H) as [-> | ->]; reflexivity.
Qed.

Lemma under_data (u : string) : safeURL u = true -> under 1 (dataPath u) = true.
Proof.
  intros H. destruct (sanatizeURL_no_separator u) as (Hn & _ & _).
  unfold under, dataPath.
  rewrite (target_file (sanatizeURL u) "auditData.json" Hn eq_refl eq_refl).
  destruct (below_safe u H) as [-> | ->]; reflexivity.
Qed.

Lemma under_report (u : string) : safeURL u = true -> under 1 (reportPath u) = true.
Proof.
  intros H. destruct (sanatizeURL_no_separator u) as (Hn & _ & _).
  unfold under, reportPath.
  rewrite (target_file (sanatizeURL u) "index.html" Hn eq_refl eq_refl).
  destruct (below_safe u H) as [-> | ->]; reflexivity.
Qed.

Lemma under_mono (n : nat) (path : string) : under (S n) path = true -> under n path = true.
Proof.
  unfold under. destruct (target path) as [|a rest]; [auto|]. intros H.
  apply andb_true_iff in H as [H1 H2]. rewrite H1. apply Nat.leb_le in H2.
  cbn [andb]. apply Nat.leb_le. lia.
Qed.

(** An entry made where such a path leads is not outside [output]. *)
Lemma insert_under (fs : gmap (list string) Node) (n : nat) (path : string)
      (q p : list string) (x : Node) :
  under n path = true -> Fs.resolve fs path = Some q -> outside p = true ->
  <[q := x]> fs !! p = fs !! p.
Proof.
  intros Hu R Ho. destruct (under_leads _ _ Hu fs q R) as (rest & -> & _).
  apply lookup_insert_ne. intros <-. discriminate Ho.
Qed.

Lemma mkdir_under fs path fs' p :
  under 0 path = true -> Fs.mkdir fs path = inr fs' -> outside p = true ->
  fs' !! p = fs !! p.
Proof.
  intros Hu H Ho. unfold Fs.mkdir in H.
  destruct (Fs.resolve fs path) as [q|] eqn:R; [|discriminate].
  destruct (Fs.nodeAt fs q); [discriminate|]. injection H as <-.
  eapply insert_under; eassumption.
Qed.

Lemma write_under fs path content fs' p :
  under 1 path = true -> Fs.write fs path content = inr fs' -> outside p = true ->
  fs' !! p = fs !! p.
Proof.
  intros Hu H Ho. unfold Fs.write in H.
  destruct (Fs.resolve fs path) as [q|] eqn:R; [|discriminate].
  destruct (Fs.nodeAt fs q) as [[t|]|]; try discriminate; injection H as <-;
    eapply insert_under; eassumption.
Qed.

Lemma rimraf_outside (fs : gmap (list string) Node) (p : list string) :
  outside p = true -> Fs.rimrafOutput fs !! p = fs !! p.
Proof.
  intros Ho. rewrite rimrafOutput_lookup, globbed_spec.
  destruct p as [|a [|name rest]]; try now rewrite andb_false_r.
  cbn [outside] in Ho. apply negb_true_iff in Ho. rewrite Ho. cbn [andb].
  now rewrite andb_false_r.
Qed.

Lemma Keeps_ret {A} (a : A) : Keeps (ret a).
Proof. intros tree0 st H. exact H. Qed.

Lemma Keeps_throw {A} (v : string) : Keeps (@throw A v).
Proof. intros tree0 st H. exact H. Qed.

Lemma Keeps_bind {A B} (m : M A) (f : A -> M B) :
  Keeps m -> (forall a, Keeps (f a)) -> Keeps (bind m f).
Proof.
  intros Hm Hf tree0 st H. unfold bind. specialize (Hm tree0 st H).
  destruct (m st) as [[a|v|] st1]; cbn [snd] in *; [now apply Hf|exact Hm|exact Hm].
Qed.

Lemma InPlace_emit tree0 (e : Event) (st : State) :
  inPlace e = true -> InPlace tree0 st -> InPlace tree0 (emit e st).
Proof. intros He (H1 & H2 & H3 & H4). split; [cbn; auto|]. auto. Qed.

Lemma Keeps_effect (e : Event) : inPlace e = true -> Keeps (effect e).
Proof. intros He tree0 st H. now apply InPlace_emit. Qed.

Lemma Keeps_when (b : bool) (m : M unit) : Keeps m -> Keeps (when b m).
Proof. destruct b; [auto|]. intros _. apply Keeps_ret. Qed.

Lemma Keeps_forEach {A} (xs : list A) (f : A -> M unit) :
  (forall x, In x xs -> Keeps (f x)) -> Keeps (forEach xs f).
Proof.
  induction xs as [|x xs IH]; intros Hf; [apply Keeps_ret|].
  cbn [forEach]. apply Keeps_bind; [apply Hf; now left|].
  intros _. apply IH. intros y Hy. apply Hf. now right.
Qed.

Lemma Keeps_existsSync (path : string) : Keeps (existsSync path).
Proof. intros tree0 st H. exact H. Qed.

Lemma Keeps_readdirSync (path : string) : Keeps (readdirSync path).
Proof.
  intros tree0 st H. unfold readdirSync. now destruct (Fs.readdir (files st) path).
Qed.

Lemma Keeps_mkdirSync (path : string) : under 0 path = true -> Keeps (mkdirSync path).
Proof.
  intros Hu tree0 st (H1 & H2 & H3 & H4). unfold mkdirSync. cbn [files emit].
  destruct (Fs.mkdir (files st) path) as [e|fs'] eqn:E; cbn [snd].
  - apply InPlace_emit; [exact Hu|]. repeat split; assumption.
  - split; [cbn; auto|]. split; [exact H2|]. split; [exact H3|].
    intros p Hp. cbn [files setFiles]. rewrite (mkdir_under _ _ _ _ Hu E Hp). now apply H4.
Qed.

Lemma Keeps_writeFileSync (path content : string) :
  under 1 path = true -> Keeps (writeFileSync path content).
Proof.
  intros Hu tree0 st (H1 & H2 & H3 & H4). unfold writeFileSync. cbn [files emit].
  destruct (Fs.write (files st) path content) as [e|fs'] eqn:E; cbn [snd].
  - apply InPlace_emit; [exact Hu|]. repeat split; assumption.
  - split; [cbn; auto|]. split; [exact H2|]. split; [exact H3|].
    intros p Hp. cbn [files setFiles]. rewrite (write_under _ _ _ _ _ Hu E Hp). now apply H4.
Qed.

Lemma Keeps_writeFile (path data : string) (cb : Callback) :
  under 1 path = true -> Keeps (writeFile path data cb).
Proof.
  intros Hu tree0 st (H1 & H2 & H3 & H4). unfold writeFile. cbn [snd].
  split; [cbn; auto|]. split; [|auto].
  cbn [writes setWrites emit]. apply Forall_app. split; [exact H2|]. repeat constructor. exact Hu.
Qed.

Lemma Keeps_startAudit (urls : list string) (index : nat) (url : string) :
  forallb safeURL urls = true -> safeURL url = true -> Keeps (startAudit urls index url).
Proof.
  intros Hs Hu tree0 st (H1 & H2 & H3 & H4). unfold startAudit. cbn [snd].
  split; [cbn; auto|]. split; [exact H2|]. split; [|exact H4].
  cbn [audits setAudits emit]. apply Forall_app. split; [exact H3|].
  repeat constructor. unfold safeAudit. cbn. now rewrite Hs, Hu.
Qed.

Lemma Keeps_processExit {A} (code : Z) : Keeps (@processExit A code).
Proof. intros tree0 st (H1 & H2 & H3 & H4). unfold processExit. cbn [snd].
  split; [cbn; auto|]. auto. Qed.

Lemma Keeps_save (filename : string) (data : JsValue) (cb : option nat) :
  under 1 ("./output/" +:+ filename) = true -> Keeps (save filename data cb).
Proof.
  intros Hu. unfold save.
  destruct (negb (truthy data) || negb (truthy (VString filename))); [apply Keeps_throw|].
  assert (G : forall text c, Keeps
            (present <- existsSync "./output" ;;
             when (negb present) (mkdirSync "output") ;;
             writeFile ("./output/" +:+ filename) text c)).
  { intros text c. apply Keeps_bind; [apply Keeps_existsSync|]. intros present.
    apply Keeps_bind; [apply Keeps_when, Keeps_mkdirSync; reflexivity|]. intros _.
    now apply Keeps_writeFile. }
  destruct data; cbn [typeOf String.eqb Ascii.eqb Bool.eqb];
    try apply G; now apply Keeps_effect.
Qed.

Lemma safe_lookup (urls : list string) (i : nat) (u : string) :
  forallb safeURL urls = true -> urls !! i = Some u -> safeURL u = true.
Proof.
  intros H E. rewrite forallb_forall in H. apply H.
  apply list_elem_of_In. now apply list_elem_of_lookup_2 in E.
Qed.

Lemma Keeps_auditAll (urls : list string) (index : nat) :
  forallb safeURL urls = true -> Keeps (auditAll urls index).
Proof.
  intros Hs. unfold auditAll. apply Keeps_bind; [now apply Keeps_effect|]. intros _.
  destruct (urls !! index) as [u|] eqn:E.
  - apply Keeps_bind; [|intros _; apply Keeps_ret].
    apply Keeps_startAudit; [exact Hs|]. eapply safe_lookup; eassumption.
  - apply Keeps_bind; [now apply Keeps_effect|]. intros _. apply Keeps_ret.
Qed.

Lemma Keeps_auditDone urls index url json html :
  forallb safeURL urls = true -> safeURL url = true ->
  Keeps (auditDone urls index url json html).
Proof.
  intros Hs Hu. unfold auditDone.
  apply Keeps_bind; [apply Keeps_save; exact (under_data url Hu)|]. intros _.
  apply Keeps_bind; [apply Keeps_save; exact (under_report url Hu)|]. intros _.
  apply Keeps_bind; [now apply Keeps_auditAll|]. intros _. apply Keeps_ret.
Qed.

Lemma Keeps_makeAuditsIndex : Keeps makeAuditsIndex.
Proof.
  unfold makeAuditsIndex, readDirs.
  apply Keeps_bind; [now apply Keeps_effect|]. intros _.
  apply Keeps_bind; [apply Keeps_readdirSync|]. intros entries.
  now apply Keeps_writeFileSync.
Qed.

Lemma Keeps_crawlerFinished crawled discovered now :
  forallb safeURL discovered = true -> Keeps (crawlerFinished crawled discovered now).
Proof.
  intros Hs. unfold crawlerFinished.
  destruct ((length crawled =? 0)%nat && (length discovered =? 0)%nat).
  - now apply Keeps_effect.
  - unfold saveLastCrawl. apply Keeps_bind.
    { apply Keeps_forEach. intros url Hin.
      apply Keeps_bind; [apply Keeps_existsSync|]. intros present.
      apply Keeps_when, Keeps_mkdirSync, under_dir.
      rewrite forallb_forall in Hs. now apply Hs. }
    intros _. apply Keeps_bind; [now apply Keeps_save|]. intros _.
    apply Keeps_bind; [now apply Keeps_auditAll|]. intros _.
    apply Keeps_makeAuditsIndex.
Qed.

Lemma Keeps_clearOutput : Keeps clearOutput.
Proof.
  unfold clearOutput. apply Keeps_bind; [now apply Keeps_effect|].
  intros _ tree0 st (H1 & H2 & H3 & H4). cbn [snd].
  split; [cbn; auto|]. split; [exact H2|]. split; [exact H3|].
  intros p Hp. cbn [files setFiles emit]. rewrite (rimraf_outside _ _ Hp). now apply H4.
Qed.

Lemma Keeps_main (argv : list string) : Keeps (main argv).
Proof.
  unfold main.
  apply Keeps_bind.
  { apply Keeps_when, Keeps_bind; [now apply Keeps_effect|]. intros _. apply Keeps_processExit. }
  intros _. apply Keeps_bind.
  { apply Keeps_when, Keeps_bind; [now apply Keeps_effect|]. intros _. apply Keeps_processExit. }
  intros _. apply Keeps_bind; [now apply Keeps_effect|].
  intros _. apply Keeps_bind; [apply Keeps_clearOutput|].
  intros _ tree0 st (H1 & H2 & H3 & H4). cbn [snd]. split; [cbn; auto|]. auto.
Qed.

Lemma Keeps_runCallback (cb : Callback) (err : option string) : Keeps (runCallback cb err).
Proof.
  destruct cb as [filename|id]; cbn [runCallback].
  - destruct err; [apply Keeps_throw|now apply Keeps_effect].
  - now apply Keeps_effect.
Qed.

Lemma task_in_place tree0 (m : M unit) (st : State) :
  Keeps m -> InPlace tree0 st -> InPlace tree0 (task m st).
Proof.
  intros Hm H. specialize (Hm tree0 st H). unfold task.
  destruct (m st) as [[a|v|] st1]; cbn [snd] in *; [exact Hm| |exact Hm].
  destruct Hm as (H1 & H2 & H3 & H4). split; [cbn; auto|]. auto.
Qed.

Lemma job_in_place tree0 (m : M unit) (st : State) :
  Keeps m -> InPlace tree0 st -> InPlace tree0 (job m st).
Proof.
  intros Hm H. specialize (Hm tree0 st H). unfold job.
  destruct (m st) as [[a|v|] st1]; cbn [snd] in *; [exact Hm| |exact Hm].
  now apply InPlace_emit.
Qed.

Lemma boot_in_place argv fs : InPlace fs (boot argv fs).
Proof.
  apply task_in_place; [apply Keeps_main|].
  split; [constructor|]. split; [constructor|]. split; [constructor|]. reflexivity.
Qed.

Lemma react_in_place tree0 a st st' :
  react a st = Some st' -> safeAction a = true -> InPlace tree0 st -> InPlace tree0 st'.
Proof.
  intros Hr Hs H. pose proof H as (H1 & H2 & H3 & H4).
  unfold react in Hr. destruct (exitCode st); [discriminate|].
  destruct a as [| |crawled discovered now|k ok|k report|k ioError].
  - destruct (crawling st); [|discriminate]. injection Hr as <-.
    apply task_in_place; [now apply Keeps_effect|exact H].
  - destruct (crawling st); [|discriminate]. injection Hr as <-.
    apply task_in_place; [|exact H].
    apply Keeps_bind; [now apply Keeps_effect|]. intros _. apply Keeps_processExit.
  - destruct (crawling st); [|discriminate]. injection Hr as <-.
    apply task_in_place; [now apply Keeps_crawlerFinished|]. exact H.
  - destruct (audits st !! k) as [au|] eqn:Ek; [|discriminate].
    destruct (aLaunched au); [discriminate|].
    pose proof (proj1 (Forall_lookup _ _) H3 k au Ek) as Ha. cbv beta in Ha.
    destruct ok; injection Hr as <-.
    + apply job_in_place; [now apply Keeps_effect|].
      split; [exact H1|]. split; [exact H2|]. split; [|exact H4].
      cbn [audits setAudits]. apply Forall_insert; [exact H3|]. exact Ha.
    + split; [cbn; auto|]. split; [exact H2|]. split; [|exact H4].
      cbn [audits setAudits emit]. now apply Forall_delete.
  - destruct (audits st !! k) as [au|] eqn:Ek; [|discriminate].
    destruct (aLaunched au); [|discriminate].
    pose proof (proj1 (Forall_lookup _ _) H3 k au Ek) as Ha. cbv beta in Ha.
    unfold safeAudit in Ha. apply andb_true_iff in Ha as [Ha1 Ha2].
    assert (Hd : InPlace tree0 (setAudits (delete k (audits st)) st)).
    { split; [exact H1|]. split; [exact H2|]. split; [|exact H4].
      cbn [audits setAudits]. now apply Forall_delete. }
    destruct report as [[json html]|]; injection Hr as <-.
    + apply job_in_place; [now apply Keeps_auditDone|]. now apply InPlace_emit.
    + repeat apply InPlace_emit; try reflexivity. exact Hd.
  - destruct (writes st !! k) as [w|] eqn:Ew; [|discriminate].
    pose proof (proj1 (Forall_lookup _ _) H2 k w Ew) as Hw. cbv beta in Hw.
    cbn [files setWrites] in Hr.
    assert (Hd : InPlace tree0 (setWrites (delete k (writes st)) st)).
    { split; [exact H1|]. split; [|auto]. cbn [writes setWrites]. now apply Forall_delete. }
    destruct (if ioError then inl "EIO" else Fs.write (files st) (wPath w) (wData w))
      as [e|fs'] eqn:E; injection Hr as <-.
    + apply task_in_place; [apply Keeps_runCallback|]. now apply InPlace_emit.
    + apply task_in_place; [apply Keeps_runCallback|]. apply InPlace_emit; [exact Hw|].
      destruct Hd as (D1 & D2 & D3 & D4). split; [exact D1|]. split; [exact D2|].
      split; [exact D3|]. intros p Hp. cbn [files setFiles].
      destruct ioError; [discriminate|].
      rewrite (write_under _ _ _ _ _ Hw E Hp). now apply H4.
Qed.

Lemma run_in_place tree0 acts st st' :
  run acts st = Some st' -> forallb safeAction acts = true ->
  InPlace tree0 st -> InPlace tree0 st'.
Proof.
  revert st. induction acts as [|a acts IH]; intros st Hr Hs H;
    cbn [run forallb] in *.
  - now injection Hr as <-.
  - apply andb_true_iff in Hs as [S1 S2].
    destruct (react a st) as [st1|] eqn:E; [|discriminate].
    eapply IH; [exact Hr|exact S2|]. eapply react_in_place; eassumption.
Qed.

(** C10 (amended). In every run, every directory the program creates is
    [output] itself or has a path starting with [./output/], every write of
    [save] goes to a path starting with [./output/], at its issue and at
    its completion, and the only synchronous write is that of
    [./output/index.html].  When no URL the crawl delivers is made of
    exactly three characters among [/ ? : .], these paths also lead where
    they read: every directory creation is of [output] or of an entry below
    it, every write is of an entry strictly below [output], in whatever
    tree the path is resolved, and no entry of the working directory
    outside [output] is created, changed or removed. *)
Theorem writes_confined_to_output (argv : list string) (fs : gmap (list string) Node)
        (acts : list Action) (st : State) :
  run acts (boot argv fs) = Some st ->
  (forall p, In (EMkdirSync p) (history st) ->
             Js.startsWith "./output/" p = true \/ p = "output")
  /\ (forall p, In (EWriteFile p) (history st) -> Js.startsWith "./output/" p = true)
  /\ (forall p ok, In (EWriteFileDone p ok) (history st) -> Js.startsWith "./output/" p = true)
  /\ (forall p, In (EWriteFileSync p) (history st) -> p = "./output/index.html")
  /\ (forall w, In w (writes st) -> Js.startsWith "./output/" (wPath w) = true)
  /\ (forallb safeAction acts = true ->
      (forall p, In (EMkdirSync p) (history st) -> LeadsInto 0 p)
      /\ (forall p, In (EWriteFile p) (history st) -> LeadsInto 1 p)
      /\ (forall p ok, In (EWriteFileDone p ok) (history st) -> LeadsInto 1 p)
      /\ (forall p, In (EWriteFileSync p) (history st) -> LeadsInto 1 p)
      /\ (forall w, In w (writes st) -> LeadsInto 1 (wPath w))
      /\ (forall p, outside p = true -> files st !! p = fs !! p)).
Proof.
  intros Hr. destruct (run_confined _ _ _ Hr (boot_confined argv fs)) as [Hh' Hw'].
  pose proof (proj1 (List.Forall_forall _ _) Hh') as Hh.
  pose proof (proj1 (List.Forall_forall _ _) Hw') as Hw.
  cbv beta in Hh, Hw. clear Hh' Hw'.
  split; [|split; [|split; [|split; [|split]]]].
  - intros p Hp. apply Hh in Hp. cbn in Hp. apply orb_true_iff in Hp as [Hp|Hp]; [now left|].
    right. now apply String.eqb_eq.
  - intros p Hp. now apply Hh in Hp.
  - intros p ok Hp. now apply Hh in Hp.
  - intros p Hp. apply Hh in Hp. now apply String.eqb_eq.
  - intros w Hp. now apply Hw in Hp.
  - intros Hs. destruct (run_in_place fs _ _ _ Hr Hs (boot_in_place argv fs))
      as (I1 & I2 & I3 & I4).
    pose proof (proj1 (List.Forall_forall _ _) I1) as J1.
    pose proof (proj1 (List.Forall_forall _ _) I2) as J2. cbv beta in J1, J2.
    split; [|split; [|split; [|split; [|split]]]].
    + intros p Hp. apply under_leads. exact (J1 _ Hp).
    + intros p Hp. apply under_leads. exact (J1 _ Hp).
    + intros p ok Hp. apply under_leads. exact (J1 _ Hp).
    + intros p Hp. apply under_leads. exact (J1 _ Hp).
    + intros w Hp. apply under_leads. exact (J2 _ Hp).
    + exact I4.
Qed.

End Program.

(** Reading a component off the result of a concrete run. *)
Lemma run_value {A} (r : option State) (f : State -> A) (v : A) (st : State) :
  r = Some st -> option_map f r = Some v -> f st = v.
Proof. intros -> H. now injection H. Qed.

Lemma run_some (r : option State) :
  match r with Some _ => true | None => false end = true -> exists st, r = Some st.
Proof. destruct r as [st|]; [eauto|discriminate]. Qed.

Ltac run_fact E :=
  match type of E with
  | _ = Some ?st =>
      match goal with
      | |- ?lhs = ?v =>
          let f := eval pattern st in lhs in
          match f with
          | ?g st => refine (run_value _ g v st E _); vm_compute; reflexivity
          end
      end
  end.



(** C3, as stated, fails: the audit of the second URL has started, and
    neither write of the first has completed: both are still pending and the
    file tree is as it was. *)
Lemma next_audit_before_writes_complete :
  exists st,
    run Sample.stringify [ChromeLaunched 0 true; AuditSettled 0 Sample.report] (snd (auditAll Sample.urls 0 (initial Sample.tree)))
    = Some st
    /\ In (ELaunch "https://example.com/b") (history st)
    /\ count isWriteDone (history st) = 0%nat
    /\ map wPath (writes st) = [dataPath "https://example.com/a"; reportPath "https://example.com/a"]
    /\ files st = Sample.tree.
Proof.
  destruct (run_some (run Sample.stringify [ChromeLaunched 0 true; AuditSettled 0 Sample.report]
                        (snd (auditAll Sample.urls 0 (initial Sample.tree))))) as (st & E); [vm_compute; reflexivity|].
  assert (H1 : head (history st) = Some (ELaunch "https://example.com/b")) by run_fact E.
  assert (H2 : count isWriteDone (history st) = 0%nat) by run_fact E.
  assert (H3 : map wPath (writes st)
               = [dataPath "https://example.com/a"; reportPath "https://example.com/a"])
    by run_fact E.
  assert (H4 : files st = Sample.tree) by run_fact E.
  exists st. repeat split; try assumption.
  destruct (history st) as [|e h]; [discriminate|]. injection H1 as ->. now left.
Qed.

Lemma next_audit_after_writes_issued_witness :
  let older := [ECall "auditAll"; EWriteFile (reportPath "https://example.com/a");
                EWriteFile (dataPath "https://example.com/a");
                ESettled "https://example.com/a" true;
                EConsole Info "Auditing https://example.com/a";
                ELaunch "https://example.com/a"; ECall "auditAll"] in
  exists st,
    run Sample.stringify [ChromeLaunched 0 true; AuditSettled 0 Sample.report] (snd (auditAll Sample.urls 0 (initial Sample.tree)))
    = Some st
    /\ history st = [] ++ ELaunch "https://example.com/b" :: older
                      ++ history (initial Sample.tree)
    /\ length (launched older) = 1%nat
    /\ exists ui m1 m2 rest,
         Sample.urls !! 0%nat = Some ui /\ Sample.urls !! 1%nat = Some "https://example.com/b"
         /\ mkdirOnly m1 /\ mkdirOnly m2
         /\ older = ECall "auditAll" :: EWriteFile (reportPath ui) :: m2
                      ++ EWriteFile (dataPath ui) :: m1
                      ++ ESettled ui true :: rest
         /\ count isWriteDone (ECall "auditAll" :: EWriteFile (reportPath ui) :: m2
                                 ++ EWriteFile (dataPath ui) :: m1) = 0%nat.
Proof.
  intros older.
  destruct (run_some (run Sample.stringify [ChromeLaunched 0 true; AuditSettled 0 Sample.report]
                        (snd (auditAll Sample.urls 0 (initial Sample.tree))))) as (st & E); [vm_compute; reflexivity|].
  assert (Hh : history st = [] ++ ELaunch "https://example.com/b" :: older
                              ++ history (initial Sample.tree)) by run_fact E.
  exists st. split; [exact E|]. split; [exact Hh|]. split; [reflexivity|].
  exact (next_audit_after_writes_issued Sample.stringify Sample.urls (initial Sample.tree)
           _ st [] _ older 0 eq_refl eq_refl E Hh eq_refl).
Defined.

(** C2, as stated, fails: with one URL discovered, [makeAuditsIndex] has
    been entered, and has written the index, while the only audit is still
    in flight: no audit has settled and the queue has not signalled its end. *)
Lemma index_built_while_audit_pending :
  exists st,
    run Sample.stringify
      [CrawlFinished ["https://example.com"] ["https://example.com/a"] "2018-06-01T00:00:00.000Z"]
      (boot Sample.argv Sample.tree) = Some st
    /\ count (isCallOf "makeAuditsIndex") (history st) = 1%nat
    /\ head (history st) = Some (EWriteFileSync "./output/index.html")
    /\ audits st = [mkAudit ["https://example.com/a"] 0 "https://example.com/a" false]
    /\ count isSettled (history st) = 0%nat
    /\ completions (history st) = 0%nat.
Proof.
  destruct (run_some (run Sample.stringify
                        [CrawlFinished ["https://example.com"] ["https://example.com/a"]
                           "2018-06-01T00:00:00.000Z"]
                        (boot Sample.argv Sample.tree))) as (st & E); [vm_compute; reflexivity|].
  exists st. split; [exact E|].
  split; [run_fact E|]. split; [run_fact E|]. split; [run_fact E|].
  split; run_fact E.
Qed.

Lemma index_built_right_after_queue_starts_witness :
  exists st,
    run Sample.stringify
      [CrawlFinished ["https://example.com"] ["https://example.com/a"] "2018-06-01T00:00:00.000Z"]
      (boot Sample.argv Sample.tree) = Some st
    /\ count (isCallOf "auditAll") (history st) <> 0%nat
    /\ exists newer x older,
         history st = newer ++ ECall "makeAuditsIndex" :: x :: ECall "auditAll" :: older
         /\ count (isCallOf "makeAuditsIndex") newer = 0%nat
         /\ count (isCallOf "makeAuditsIndex") (history st) = 1%nat
         /\ Forall (fun e => calm e = true) older
         /\ (isLaunch x = true \/ x = EConsole Info "Auditing complete.").
Proof.
  destruct (run_some (run Sample.stringify
                        [CrawlFinished ["https://example.com"] ["https://example.com/a"]
                           "2018-06-01T00:00:00.000Z"]
                        (boot Sample.argv Sample.tree))) as (st & E); [vm_compute; reflexivity|].
  assert (Hc : count (isCallOf "auditAll") (history st) = 1%nat) by run_fact E.
  assert (Hn : count (isCallOf "auditAll") (history st) <> 0%nat) by (rewrite Hc; discriminate).
  exists st. split; [exact E|]. split; [exact Hn|].
  exact (proj2 (index_built_right_after_queue_starts Sample.stringify Sample.argv Sample.tree
                  _ st E) Hn).
Defined.

(** C4, as stated, fails: for a URL ending in [/?] the result still ends
    with a dot, and sanitizing it again gives another name. *)
Lemma sanatizeURL_not_idempotent :
  sanatizeURL "https://example.com/?" = "https...example.com."
  /\ endsWithDot (sanatizeURL "https://example.com/?") = true
  /\ sanatizeURL (sanatizeURL "https://example.com/?") = "https...example.com"
  /\ sanatizeURL (sanatizeURL "https://example.com/?") <> sanatizeURL "https://example.com/?".
Proof. repeat split. discriminate. Qed.

Lemma sanatizeURL_idempotent_witness :
  endsInTwoSeps "https://example.com/a/" = false
  /\ Js.contains "/" (sanatizeURL "https://example.com/a/") = false
  /\ Js.contains "?" (sanatizeURL "https://example.com/a/") = false
  /\ Js.contains ":" (sanatizeURL "https://example.com/a/") = false
  /\ sanatizeURL (sanatizeURL "https://example.com/a/") = sanatizeURL "https://example.com/a/"
  /\ endsWithDot (sanatizeURL "https://example.com/a/") = false.
Proof.
  split; [reflexivity|].
  destruct (sanatizeURL_idempotent "https://example.com/a/") as (H1 & H2 & H3 & H4).
  split; [exact H1|]. split; [exact H2|]. split; [exact H3|]. exact (H4 eq_refl).
Defined.

(** C5, as stated, fails: after one page fetched and one fetch failed, the
    process has exited with status 1 and no callback runs any more. *)
Lemma fetch_failure_ends_process :
  exists st,
    run Sample.stringify [CrawlSuccess; CrawlError] (boot Sample.argv Sample.tree) = Some st
    /\ exitCode st = Some 1%Z
    /\ (forall a, react Sample.stringify a st = None)
    /\ run Sample.stringify [CrawlSuccess; CrawlError; CrawlSuccess]
         (boot Sample.argv Sample.tree) = None.
Proof.
  destruct (run_some (run Sample.stringify [CrawlSuccess; CrawlError]
                        (boot Sample.argv Sample.tree))) as (st & E); [vm_compute; reflexivity|].
  assert (H : exitCode st = Some 1%Z) by run_fact E.
  exists st. split; [exact E|]. split; [exact H|].
  split; [|vm_compute; reflexivity]. intros a. now apply (react_dead _ _ _ 1%Z).
Qed.

Lemma fetch_failure_exits_witness :
  exists st st',
    run Sample.stringify [CrawlSuccess] (boot Sample.argv Sample.tree) = Some st
    /\ crawling st = true /\ exitCode st = None
    /\ react Sample.stringify CrawlError st = Some st'
    /\ history st' = EExit 1 :: EConsole Error "Crawling error, exiting." :: history st
    /\ exitCode st' = Some 1%Z
    /\ exitStatus st' = Some 1%Z
    /\ files st' = files st
    /\ writes st' = [] /\ audits st' = []
    /\ forall a, react Sample.stringify a st' = None.
Proof.
  destruct (run_some (run Sample.stringify [CrawlSuccess] (boot Sample.argv Sample.tree)))
    as (st & E); [vm_compute; reflexivity|].
  assert (C : crawling st = true) by run_fact E.
  assert (X : exitCode st = None) by run_fact E.
  destruct (fetch_failure_exits Sample.stringify Sample.argv Sample.tree _ st E C X)
    as (st' & H).
  exists st, st'. split; [exact E|]. split; [exact C|]. split; [exact X|]. exact H.
Defined.

(** C6: the code passes out-of-range values through.  With the arguments
    [-7] and [15], neither in its range, the crawler is started with depth
    [-7] and [15] threads instead of the defaults 1 and 5. *)
Lemma cli_out_of_range_passed_through :
  let argv := ["node"; "index.js"; "https://example.com"; "-7"; "15"] in
  Cli.inRange 1 10 "-7" = false
  /\ Cli.inRange 1 5 "15" = false
  /\ Cli.depthOf argv = VString "-7"
  /\ Cli.threadsOf argv = VString "15"
  /\ history (boot argv Sample.tree)
     = [ECrawl "https://example.com" (VString "-7") (VString "15");
        ERimraf "./output/*";
        EConsole Info "Clearing output...";
        EConsole Info "Crawling https://example.com, at a depth of -7, with 15 threads."].
Proof. vm_compute. repeat split. Qed.

(** C7: the index links every entry of the store root, regular files
    included.  With one subdirectory and two regular files in [./output],
    the only subdirectory is [https...example.com.a], and the page written
    has three links.  In a whole run, too: a dot file in [./output] is not
    matched by the glob of [clearOutput], and the index links it. *)
Lemma index_links_regular_files :
  Fs.subdirs Sample.store ["output"] = ["https...example.com.a"]
  /\ Fs.readdir Sample.store "./output"
     = inr [".gitkeep"; "lastCrawl.json"; "https...example.com.a"]
  /\ files (snd (makeAuditsIndex (initial Sample.store))) !! ["output"; "index.html"]
     = Some (File (indexPage (link ".gitkeep" +:+ link "lastCrawl.json"
                                +:+ link "https...example.com.a")))
  /\ option_map (fun st => files st !! ["output"; "index.html"])
       (run Sample.stringify
          [CrawlFinished ["https://example.com"] ["https://example.com/a"]
             "2018-06-01T00:00:00.000Z"]
          (boot Sample.argv (<[ ["output"; ".gitkeep"] := File "" ]> Sample.tree)))
     = Some (Some (File (indexPage (link ".gitkeep" +:+ link "https...example.com.a")))).
Proof. vm_compute. repeat split. Qed.

Lemma empty_crawl_reported_witness :
  exists st st',
    run Sample.stringify [CrawlSuccess] (boot Sample.argv Sample.tree) = Some st
    /\ crawling st = true /\ exitCode st = None
    /\ react Sample.stringify (CrawlFinished [] [] "2018-06-01T00:00:00.000Z") st = Some st'
    /\ history st'
       = EConsole Error (Js.nl +:+ "Please check your URL exists and has links in it.")
           :: history st
    /\ exitCode st' = None
    /\ exitStatus st' = Some 0%Z
    /\ files st' = files st
    /\ Forall (fun e => calm e = true) (history st')
    /\ audits st' = [] /\ writes st' = []
    /\ forall a, react Sample.stringify a st' = None.
Proof.
  destruct (run_some (run Sample.stringify [CrawlSuccess] (boot Sample.argv Sample.tree)))
    as (st & E); [vm_compute; reflexivity|].
  assert (C : crawling st = true) by run_fact E.
  assert (X : exitCode st = None) by run_fact E.
  destruct (empty_crawl_reported Sample.stringify Sample.argv Sample.tree _ st
              "2018-06-01T00:00:00.000Z" E C X) as (st' & H).
  exists st, st'. split; [exact E|]. split; [exact C|]. split; [exact X|]. exact H.
Defined.

Lemma save_rejects_falsy_witness :
  (falsy (VString "") \/ falsy (VString "https...example.com.a/index.html"))
  /\ save Sample.stringify "https...example.com.a/index.html" (VString "") None
       (initial Sample.tree)
     = (Throw "No data or no filename", initial Sample.tree).
Proof.
  split; [left; reflexivity|].
  exact (save_rejects_falsy Sample.stringify "https...example.com.a/index.html" (VString "")
           None (initial Sample.tree) (or_introl eq_refl)).
Defined.

(** C10, as stated, fails: for the discovered URL [...] the directory name
    is [..], the report is written to [./output/../auditData.json], a path
    that starts with [./output/], and the file appears in the working
    directory, beside [output]. *)
Lemma write_lands_outside_output :
  exists st,
    run Sample.stringify
      [CrawlFinished ["https://example.com"] ["..."] "2018-06-01T00:00:00.000Z";
       ChromeLaunched 0 true; AuditSettled 0 Sample.report; WriteCompleted 1 false]
      (boot Sample.argv Sample.tree) = Some st
    /\ sanatizeURL "..." = ".."
    /\ In (EWriteFileDone "./output/../auditData.json" true) (history st)
    /\ Js.startsWith "./output/" "./output/../auditData.json" = true
    /\ Fs.resolve Sample.tree "./output/../auditData.json" = Some ["auditData.json"]
    /\ Sample.tree !! ["auditData.json"] = None
    /\ files st !! ["auditData.json"] = Some (File "{}")
    /\ ~ LeadsInto 1 "./output/../auditData.json".
Proof.
  destruct (run_some (run Sample.stringify
      [CrawlFinished ["https://example.com"] ["..."] "2018-06-01T00:00:00.000Z";
       ChromeLaunched 0 true; AuditSettled 0 Sample.report; WriteCompleted 1 false]
      (boot Sample.argv Sample.tree))) as (st & E); [vm_compute; reflexivity|].
  exists st. split; [exact E|]. split; [reflexivity|].
  assert (H1 : existsb (fun e => match e with
                                 | EWriteFileDone p true => String.eqb p "./output/../auditData.json"
                                 | _ => false end) (history st) = true) by run_fact E.
  assert (H2 : files st !! ["auditData.json"] = Some (File "{}")) by run_fact E.
  clear E. split.
  { apply existsb_exists in H1 as (e & He & Hp).
    destruct e as [| | | | |p [|]| | | | | | | |]; try discriminate Hp.
    apply String.eqb_eq in Hp. subst p. exact He. }
  split; [reflexivity|]. split; [vm_compute; reflexivity|]. split; [vm_compute; reflexivity|].
  split; [exact H2|].
  intros L. destruct (L Sample.tree ["auditData.json"]) as (rest & Hq & _).
  - vm_compute; reflexivity.
  - discriminate Hq.
Qed.

Lemma writes_confined_to_output_witness :
  exists st,
    run Sample.stringify
      [CrawlFinished ["https://example.com"] ["https://example.com/a"] "2018-06-01T00:00:00.000Z";
       ChromeLaunched 0 true; AuditSettled 0 Sample.report; WriteCompleted 0 false]
      (boot Sample.argv Sample.tree) = Some st
    /\ forallb safeAction
         [CrawlFinished ["https://example.com"] ["https://example.com/a"]
            "2018-06-01T00:00:00.000Z";
          ChromeLaunched 0 true; AuditSettled 0 Sample.report; WriteCompleted 0 false] = true
    /\ (forall p, In (EMkdirSync p) (history st) ->
                  Js.startsWith "./output/" p = true \/ p = "output")
    /\ (forall p, In (EWriteFile p) (history st) -> Js.startsWith "./output/" p = true)
    /\ (forall p ok, In (EWriteFileDone p ok) (history st) ->
                     Js.startsWith "./output/" p = true)
    /\ (forall p, In (EWriteFileSync p) (history st) -> p = "./output/index.html")
    /\ (forall w, In w (writes st) -> Js.startsWith "./output/" (wPath w) = true)
    /\ (forall p, In (EMkdirSync p) (history st) -> LeadsInto 0 p)
    /\ (forall p, In (EWriteFile p) (history st) -> LeadsInto 1 p)
    /\ (forall p ok, In (EWriteFileDone p ok) (history st) -> LeadsInto 1 p)
    /\ (forall p, In (EWriteFileSync p) (history st) -> LeadsInto 1 p)
    /\ (forall w, In w (writes st) -> LeadsInto 1 (wPath w))
    /\ (forall p, outside p = true -> files st !! p = Sample.tree !! p).
Proof.
  destruct (run_some (run Sample.stringify
                        [CrawlFinished ["https://example.com"] ["https://example.com/a"]
                           "2018-06-01T00:00:00.000Z";
                         ChromeLaunched 0 true; AuditSettled 0 Sample.report;
                         WriteCompleted 0 false]
                        (boot Sample.argv Sample.tree))) as (st & E); [vm_compute; reflexivity|].
  exists st. split; [exact E|]. split; [reflexivity|].
  destruct (writes_confined_to_output Sample.stringify Sample.argv Sample.tree _ st E)
    as (H1 & H2 & H3 & H4 & H5 & H6).
  split; [exact H1|]. split; [exact H2|]. split; [exact H3|]. split; [exact H4|].
  split; [exact H5|]. exact (H6 eq_refl).
Defined.

Lemma sanatizeURL_trailing_separator_witness :
  isSep "/" = true /\ endsInSep "https://example.com/a" = false
  /\ sanatizeURL ("https://example.com/a" +:+ "/") = sanatizeURL "https://example.com/a".
Proof.
  split; [reflexivity|]. split; [reflexivity|].
  exact (sanatizeURL_trailing_separator "https://example.com/a" "/" eq_refl eq_refl).
Defined.

Lemma url_without_dot_refused_witness :
  ["node"; "index.js"; "http://localhost:3000"] !! 2%nat = Some "http://localhost:3000"
  /\ "http://localhost:3000" <> ""
  /\ Js.contains "." "http://localhost:3000" = false
  /\ history (boot ["node"; "index.js"; "http://localhost:3000"] Sample.tree)
     = [EExit 1; EConsole Error "Please use a correct URL."]
  /\ exitCode (boot ["node"; "index.js"; "http://localhost:3000"] Sample.tree) = Some 1%Z
  /\ files (boot ["node"; "index.js"; "http://localhost:3000"] Sample.tree) = Sample.tree
  /\ crawling (boot ["node"; "index.js"; "http://localhost:3000"] Sample.tree) = false.
Proof.
  split; [reflexivity|]. split; [discriminate|]. split; [reflexivity|].
  exact (url_without_dot_refused ["node"; "index.js"; "http://localhost:3000"]
           "http://localhost:3000" Sample.tree eq_refl ltac:(discriminate) eq_refl).
Defined.

Lemma url_check_unanchored_witness :
  Regex.matches Cli.urlRe "example.com" = true
  /\ ["node"; "index.js"; "see example.com, please"] !! 2%nat
     = Some ("see " +:+ "example.com" +:+ ", please")
  /\ exitCode (boot ["node"; "index.js"; "see example.com, please"] Sample.tree) = None
  /\ crawling (boot ["node"; "index.js"; "see example.com, please"] Sample.tree) = true
  /\ head (history (boot ["node"; "index.js"; "see example.com, please"] Sample.tree))
     = Some (ECrawl ("see " +:+ "example.com" +:+ ", please")
               (Cli.depthOf ["node"; "index.js"; "see example.com, please"])
               (Cli.threadsOf ["node"; "index.js"; "see example.com, please"])).
Proof.
  split; [vm_compute; reflexivity|]. split; [reflexivity|].
  exact (url_check_unanchored ["node"; "index.js"; "see example.com, please"] Sample.tree
           "see " "example.com" ", please" ltac:(vm_compute; reflexivity) eq_refl).
Defined.


Lemma save_unable_witness :
  "count.json" <> "" /\ truthy (VNumber 42) = true
  /\ typeOf (VNumber 42) <> "object" /\ typeOf (VNumber 42) <> "string"
  /\ save Sample.stringify "count.json" (VNumber 42) None (initial Sample.tree)
     = (Ret tt, emit (EConsole Error "Unable to save data.") (initial Sample.tree)).
Proof.
  split; [discriminate|]. split; [reflexivity|].
  split; [discriminate|]. split; [discriminate|].
  apply (save_unable Sample.stringify "count.json" (VNumber 42) None (initial Sample.tree));
    [discriminate|reflexivity|discriminate|discriminate].
Defined.

Lemma exit_status_is_one_witness :
  exists st,
    run Sample.stringify [CrawlSuccess; CrawlError] (boot Sample.argv Sample.tree) = Some st
    /\ ((exitCode st = None /\ Forall (fun e => isExit e = false) (history st))
        \/ (exitCode st = Some 1%Z
            /\ exists h, history st = EExit 1 :: h
                         /\ Forall (fun e => isExit e = false) h)).
Proof.
  destruct (run_some (run Sample.stringify [CrawlSuccess; CrawlError]
                        (boot Sample.argv Sample.tree))) as (st & E); [vm_compute; reflexivity|].
  exists st. split; [exact E|].
  exact (exit_status_is_one Sample.stringify Sample.argv Sample.tree _ st E).
Defined.




Lemma missing_output_is_fatal_witness :
  exists st,
    (∅ : gmap (list string) Node) !! ["output"] = None
    /\ sanatizeURL "https://example.com/a" <> ""
    /\ run Sample.stringify
         ([CrawlSuccess]
            ++ [CrawlFinished ["https://example.com"] ("https://example.com/a" :: [])
                  "2018-06-01T00:00:00.000Z"])
         (boot Sample.argv ∅) = Some st
    /\ exitCode st = Some 1%Z
    /\ (exists h, history st
                  = EExit 1 :: EUncaught "ENOENT"
                      :: EMkdirSync ("./output/" +:+ sanatizeURL "https://example.com/a") :: h)
    /\ files st = ∅ /\ writes st = [] /\ audits st = [].
Proof.
  destruct (run_some (run Sample.stringify
                        ([CrawlSuccess]
                           ++ [CrawlFinished ["https://example.com"] ("https://example.com/a" :: [])
                                 "2018-06-01T00:00:00.000Z"])
                        (boot Sample.argv ∅))) as (st & E); [vm_compute; reflexivity|].
  exists st. split; [reflexivity|]. split; [discriminate|]. split; [exact E|].
  exact (missing_output_is_fatal Sample.stringify Sample.argv ∅ [CrawlSuccess]
           ["https://example.com"] "https://example.com/a" [] "2018-06-01T00:00:00.000Z" st
           eq_refl ltac:(discriminate) E).
Defined.

Lemma audit_reports_round_trip_witness :
  exitCode Sample.auditing = None
  /\ audits Sample.auditing !! 0%nat
     = Some (mkAudit Sample.urls 0 "https://example.com/a" true)
  /\ properName (sanatizeURL "https://example.com/a") = true
  /\ Fs.isDir (files Sample.auditing) ["output"] = true
  /\ Fs.isDir (files Sample.auditing) ["output"; sanatizeURL "https://example.com/a"] = true
  /\ exists st',
       run Sample.stringify
         (AuditSettled 0 (Some (JObj [], "<html></html>"))
            :: (if false
                then [WriteCompleted (length (writes Sample.auditing)) false;
                      WriteCompleted (length (writes Sample.auditing)) false]
                else [WriteCompleted (S (length (writes Sample.auditing))) false;
                      WriteCompleted (length (writes Sample.auditing)) false]))
         Sample.auditing = Some st'
       /\ files st' !! ["output"; sanatizeURL "https://example.com/a"; "auditData.json"]
          = Some (File (Sample.stringify (JObj [])))
       /\ files st' !! ["output"; sanatizeURL "https://example.com/a"; "index.html"]
          = Some (File "<html></html>")
       /\ (forall p,
             p <> ["output"; sanatizeURL "https://example.com/a"; "auditData.json"] ->
             p <> ["output"; sanatizeURL "https://example.com/a"; "index.html"] ->
             files st' !! p = files Sample.auditing !! p)
       /\ writes st' = writes Sample.auditing
       /\ exitCode st' = None.
Proof.
  split; [reflexivity|]. split; [reflexivity|]. split; [reflexivity|].
  split; [reflexivity|]. split; [reflexivity|].
  apply (audit_reports_round_trip Sample.stringify Sample.urls 0 0 "https://example.com/a"
           (JObj []) "<html></html>" false Sample.auditing);
    [reflexivity|reflexivity|discriminate|reflexivity..].
Defined.

Lemma audit_reports_escape_output_witness :
  exitCode Sample.escaping = None
  /\ audits Sample.escaping !! 0%nat = Some (mkAudit ["../"] 0 "../" true)
  /\ sanatizeURL "../" = ".."
  /\ Fs.isDir (files Sample.escaping) ["output"] = true
  /\ exists st',
       run Sample.stringify
         [AuditSettled 0 (Some (JObj [], "<html></html>"));
          WriteCompleted (length (writes Sample.escaping)) false;
          WriteCompleted (length (writes Sample.escaping)) false] Sample.escaping
       = Some st'
       /\ In (EWriteFileDone "./output/../auditData.json" true) (history st')
       /\ In (EWriteFileDone "./output/../index.html" true) (history st')
       /\ files st' !! ["auditData.json"] = Some (File (Sample.stringify (JObj [])))
       /\ files st' !! ["index.html"] = Some (File "<html></html>")
       /\ (forall p, head p = Some "output" -> files st' !! p = files Sample.escaping !! p).
Proof.
  split; [reflexivity|]. split; [reflexivity|]. split; [reflexivity|]. split; [reflexivity|].
  apply (audit_reports_escape_output Sample.stringify ["../"] 0 0 "../"
           (JObj []) "<html></html>" Sample.escaping);
    [reflexivity|reflexivity|discriminate|reflexivity..].
Defined.


Lemma queue_stalls_after_failure_witness :
  exists st,
    crawling (initial Sample.tree) = false
    /\ audits (initial Sample.tree) = []
    /\ failedAudit (AuditSettled 0 None) = true
    /\ run Sample.stringify
         ([ChromeLaunched 0 true] ++ AuditSettled 0 None :: [])
         (snd (auditAll Sample.urls 0 (initial Sample.tree))) = Some st
    /\ exists d k,
         history st = d ++ history (initial Sample.tree)
         /\ audits st = []
         /\ rev (launched d) = take k Sample.urls
         /\ completions d = 0%nat.
Proof.
  destruct (run_some (run Sample.stringify
                        ([ChromeLaunched 0 true] ++ AuditSettled 0 None :: [])
                        (snd (auditAll Sample.urls 0 (initial Sample.tree)))))
    as (st & E); [vm_compute; reflexivity|].
  exists st. split; [reflexivity|]. split; [reflexivity|]. split; [reflexivity|].
  split; [exact E|].
  exact (queue_stalls_after_failure Sample.stringify Sample.urls (initial Sample.tree)
           [ChromeLaunched 0 true] (AuditSettled 0 None) [] st eq_refl eq_refl eq_refl E).
Defined.
